(** * codeStructView: the structural parsers, embedded and verified

    A shallow embedding of the parser core of the codeStructView extension
    (src/parsers: BaseParser, CSharpParser, JavaScriptParser, VueParser,
    HtmlParser, ParserFactory) together with the properties its
    specification states about it, and of what surrounds that core
    (JavaParser, the symbol path of fileStructureParser.ts, the rules of
    tagRuleConfig.ts, the label, the tooltip and the escaping of
    codeStructViewProvider.ts) with further properties of the code.

    Conventions of the embedding.
    - A JavaScript string is a [string] of bytes; the character tests of
      the source ([\s], [\w], [trim], [toLowerCase]) are the ASCII ones, so
      the model speaks about ASCII source text (names such as the Chinese
      pseudo-node labels are carried as opaque byte sequences).
    - A JavaScript number used as a line number, an index or a brace
      counter is a [Z]; array indexing is [lookupZ], which is [None] out
      of range (JavaScript's [undefined]).
    - [undefined]/[null] in an optional position is [None].
    - An operation that would throw a [TypeError] (member access on
      [undefined]) is [Throws]; the parsers live in the [js] monad.
    - A regular expression literal is a [regex] term interpreted by a
      backtracking matcher with JavaScript's priorities (leftmost start,
      alternatives in order, greedy and lazy quantifiers).
    - Where a pattern of the source is quoted in a comment, [\x22] stands
      for the double quote and [{0,}] for a [*] that is followed by a
      closing parenthesis.
    - Objects that are mutated after they were stored in an array (the
      current namespace, the current class, the open markup tags) are
      referred to by their path in the element forest. *)

From Stdlib Require Import String Ascii List ZArith Lia Bool.
From stdpp Require Import gmap strings.
Import ListNotations.
Local Open Scope string_scope.
Local Open Scope Z_scope.

(** ** JavaScript strings *)

Module JsString.

Definition code (a : ascii) : nat := nat_of_ascii a.

(** ECMAScript WhiteSpace and LineTerminator, restricted to one byte:
    TAB, LF, VT, FF, CR and SPACE. *)
Definition is_space (a : ascii) : bool :=
  let n := code a in
  (Nat.leb 9 n && Nat.leb n 13) || Nat.eqb n 32.

Definition is_upper (a : ascii) : bool :=
  let n := code a in Nat.leb 65 n && Nat.leb n 90.

Definition is_lower (a : ascii) : bool :=
  let n := code a in Nat.leb 97 n && Nat.leb n 122.

Definition is_digit (a : ascii) : bool :=
  let n := code a in Nat.leb 48 n && Nat.leb n 57.

(** [\w] *)
Definition is_word (a : ascii) : bool :=
  is_upper a || is_lower a || is_digit a || Ascii.eqb a "_"%char.

Definition lower_char (a : ascii) : ascii :=
  if is_upper a then ascii_of_nat (code a + 32) else a.

Fixpoint toLowerCase (s : string) : string :=
  match s with
  | EmptyString => EmptyString
  | String a s' => String (lower_char a) (toLowerCase s')
  end.

Fixpoint trimStart (s : string) : string :=
  match s with
  | String a s' => if is_space a then trimStart s' else s
  | EmptyString => EmptyString
  end.

(** [trimEnd] keeps a character when it is not a space or when something
    that is kept follows it. *)
Fixpoint trimEnd (s : string) : string :=
  match s with
  | EmptyString => EmptyString
  | String a s' =>
      match trimEnd s' with
      | EmptyString => if is_space a then EmptyString else String a EmptyString
      | t => String a t
      end
  end.

Definition trim (s : string) : string := trimEnd (trimStart s).

(** [s.startsWith(p)] *)
Fixpoint startsWith (s p : string) : bool :=
  match p, s with
  | EmptyString, _ => true
  | String b p', String a s' => Ascii.eqb a b && startsWith s' p'
  | String _ _, EmptyString => false
  end.

(** [s.indexOf(p)], counted from [from]; [-1] when [p] does not occur. *)
Fixpoint indexOf_from (from : Z) (s p : string) : Z :=
  if startsWith s p then from
  else match s with
       | EmptyString => -1
       | String _ s' => indexOf_from (from + 1) s' p
       end.

Definition indexOf (s p : string) : Z := indexOf_from 0 s p.

Definition includes (s p : string) : bool := 0 <=? indexOf s p.

(** [s.lastIndexOf(p)]: the last position at which [p] starts, or [-1]. *)
Fixpoint lastIndexOf_from (from : Z) (s p : string) : Z :=
  let here := if startsWith s p then from else -1 in
  match s with
  | EmptyString => here
  | String _ s' =>
      let later := lastIndexOf_from (from + 1) s' p in
      if 0 <=? later then later else here
  end.

Definition lastIndexOf (s p : string) : Z := lastIndexOf_from 0 s p.

Fixpoint str_drop (n : nat) (s : string) : string :=
  match n, s with
  | O, _ => s
  | S n', String _ s' => str_drop n' s'
  | S _, EmptyString => EmptyString
  end.

Fixpoint str_take (n : nat) (s : string) : string :=
  match n, s with
  | O, _ => EmptyString
  | S n', String a s' => String a (str_take n' s')
  | S _, EmptyString => EmptyString
  end.

(** [s.substring(start)]: a negative [start] counts as 0. *)
Definition substring_from (s : string) (start : Z) : string :=
  str_drop (Z.to_nat start) s.

(** [s.substring(0, stop)] *)
Definition substring_to (s : string) (stop : Z) : string :=
  str_take (Z.to_nat stop) s.

(** [s.split('\n')] *)
Fixpoint split_lines (s : string) : list string :=
  match s with
  | EmptyString => [EmptyString]
  | String a s' =>
      if Ascii.eqb a "010"%char then EmptyString :: split_lines s'
      else match split_lines s' with
           | l :: ls => String a l :: ls
           | [] => [String a EmptyString]
           end
  end.

(** [xs.join(sep)] *)
Fixpoint join (sep : string) (xs : list string) : string :=
  match xs with
  | [] => EmptyString
  | [x] => x
  | x :: rest => x ++ sep ++ join sep rest
  end.

Definition is_empty (s : string) : bool :=
  match s with EmptyString => true | _ => false end.

(** The double quote, written [\x22] where a pattern of the source is
    quoted in a comment, and the two quote characters of [[\x22']]. *)
Definition LF : string := String "010"%char EmptyString.
Definition DQ : string := String "034"%char EmptyString.
Definition quotes : string := String "034"%char (String "'"%char EmptyString).

(** Truthiness of a string: non-empty. *)
Definition truthy (s : string) : bool := negb (is_empty s).

End JsString.
Import JsString.

(** ** Regular expressions

    The fragment of JavaScript's regular expressions that the parsers
    use: character classes, sequence, ordered alternative, greedy and lazy
    repetition, capturing groups, [^] and [$].  No capturing group of the
    source stands under a repetition, so the per-iteration reset of
    captures never applies. *)

Module Regex.

Inductive regex : Type :=
| Eps                                   (* the empty pattern *)
| Chr (p : ascii -> bool)               (* one character of a class *)
| Seq (r1 r2 : regex)                   (* r1r2 *)
| Alt (r1 r2 : regex)                   (* r1|r2 *)
| Star (greedy : bool) (r : regex)      (* r* and r*? *)
| Grp (i : nat) (r : regex)             (* the i-th capturing group *)
| Bol                                   (* ^ *)
| Eol.                                  (* $ *)

(** Captures: group number to captured text, [None] for a group that did
    not take part in the match ([undefined]). *)
Definition captures : Type := nat -> option string.

Definition no_captures : captures := fun _ => None.

Definition set_capture (i : nat) (v : string) (c : captures) : captures :=
  fun j => if Nat.eqb j i then Some v else c j.

(** A continuation receives the position reached, the rest of the subject
    and the captures so far. *)
Definition continuation (R : Type) : Type :=
  nat -> string -> captures -> option R.

(** Repetition of a matcher [once]: at most [fuel] iterations, each of
    which has to consume something (an iteration that consumes nothing is
    rejected, as in ECMAScript's RepeatMatcher).  A greedy repetition
    tries one more iteration before it goes on with [k], a lazy one goes
    on with [k] first. *)
Fixpoint repeat {R : Type} (greedy : bool)
    (once : continuation R -> continuation R) (k : continuation R)
    (fuel : nat) : continuation R :=
  fun pos s c =>
    let iterate :=
      match fuel with
      | O => None
      | S fuel' =>
          once (fun pos' s' c' =>
                  if Nat.ltb pos pos' then repeat greedy once k fuel' pos' s' c'
                  else None)
            pos s c
      end in
    if greedy then
      match iterate with
      | Some x => Some x
      | None => k pos s c
      end
    else
      match k pos s c with
      | Some x => Some x
      | None => iterate
      end.

(** The backtracking matcher, in continuation-passing style.  [pos] is the
    number of characters before [s] in the subject string.  Every
    iteration of a repetition consumes a character, so [String.length s]
    iterations are all there can be. *)
Fixpoint rmatch {R : Type} (r : regex) (k : continuation R)
  : continuation R :=
  fun pos s c =>
    match r with
    | Eps => k pos s c
    | Chr p =>
        match s with
        | String a s' => if p a then k (S pos) s' c else None
        | EmptyString => None
        end
    | Seq r1 r2 => rmatch r1 (rmatch r2 k) pos s c
    | Alt r1 r2 =>
        match rmatch r1 k pos s c with
        | Some x => Some x
        | None => rmatch r2 k pos s c
        end
    | Star greedy r1 => repeat greedy (rmatch r1) k (String.length s) pos s c
    | Grp i r1 =>
        rmatch r1
          (fun pos' s' c' =>
             k pos' s' (set_capture i (str_take (pos' - pos) s) c'))
          pos s c
    | Bol => if Nat.eqb pos 0 then k pos s c else None
    | Eol => match s with EmptyString => k pos s c | _ => None end
    end.

(** The result of [RegExp.prototype.exec]: where the match starts, the
    matched text (group 0) and the captures. *)
Record match_result : Type := MatchResult {
  index : nat;
  matched : string;
  groups : captures
}.

Definition match_at (r : regex) (pos : nat) (s : string) : option match_result :=
  rmatch r
    (fun pos' _ c => Some (MatchResult pos (str_take (pos' - pos) s) c))
    pos s no_captures.

(** Leftmost match at or after [pos]. *)
Fixpoint search_from (r : regex) (pos : nat) (s : string) : option match_result :=
  match match_at r pos s with
  | Some m => Some m
  | None =>
      match s with
      | EmptyString => None
      | String _ s' => search_from r (S pos) s'
      end
  end.

(** [s.match(r)] for a pattern without the [g] flag. *)
Definition exec (r : regex) (s : string) : option match_result :=
  search_from r 0 s.

(** [r.test(s)] *)
Definition test (r : regex) (s : string) : bool :=
  match exec r s with Some _ => true | None => false end.

(** All matches of a [g] pattern, left to right ([matchAll], and
    [s.match(r)] with the [g] flag).  After an empty match the search
    resumes one character further. *)
Fixpoint matchAll_from (fuel : nat) (r : regex) (pos : nat) (s : string)
  : list match_result :=
  match fuel with
  | O => []
  | S fuel' =>
      match search_from r pos s with
      | None => []
      | Some m =>
          let before := (index m - pos)%nat in
          match String.length (matched m) with
          | O =>
              match str_drop before s with
              | EmptyString => [m]
              | String _ rest =>
                  m :: matchAll_from fuel' r (pos + S before) rest
              end
          | S _ as len =>
              m :: matchAll_from fuel' r (pos + before + len)
                     (str_drop (before + len) s)
          end
      end
  end.

Definition matchAll (r : regex) (s : string) : list match_result :=
  matchAll_from (S (String.length s)) r 0 s.

(** [s.replace(r, by)] for a [g] pattern and a constant replacement. *)
Fixpoint replaceAll_from (fuel : nat) (r : regex) (by_ : string)
    (pos : nat) (s : string) : string :=
  match fuel with
  | O => s
  | S fuel' =>
      match search_from r pos s with
      | None => s
      | Some m =>
          let before := (index m - pos)%nat in
          match String.length (matched m) with
          | O =>
              str_take before s ++ by_ ++
              match str_drop before s with
              | EmptyString => EmptyString
              | String a rest =>
                  String a (replaceAll_from fuel' r by_ (pos + S before) rest)
              end
          | S _ as len =>
              str_take before s ++ by_ ++
              replaceAll_from fuel' r by_ (pos + before + len)
                (str_drop (before + len) s)
          end
      end
  end.

Definition replaceAll (r : regex) (by_ : string) (s : string) : string :=
  replaceAll_from (S (String.length s)) r by_ 0 s.

(** *** Pattern syntax *)

Definition any_of (cs : string) : ascii -> bool :=
  fun a => includes cs (String a EmptyString).

Definition chr (a : ascii) : regex := Chr (Ascii.eqb a).
(** a literal character under the [i] flag *)
Definition chr_i (a : ascii) : regex :=
  Chr (fun b => Ascii.eqb (lower_char b) (lower_char a)).

Fixpoint lit (s : string) : regex :=
  match s with
  | EmptyString => Eps
  | String a EmptyString => chr a
  | String a s' => Seq (chr a) (lit s')
  end.

Fixpoint lit_i (s : string) : regex :=
  match s with
  | EmptyString => Eps
  | String a EmptyString => chr_i a
  | String a s' => Seq (chr_i a) (lit_i s')
  end.

Definition star (r : regex) : regex := Star true r.          (* r*  *)
Definition plus (r : regex) : regex := Seq r (Star true r).  (* r+  *)
Definition opt (r : regex) : regex := Alt r Eps.             (* r?  *)
Definition lazy_star (r : regex) : regex := Star false r.    (* r*? *)
Definition lazy_plus (r : regex) : regex := Seq r (Star false r). (* r+? *)

Definition space : regex := Chr is_space.                    (* \s *)
Definition word : regex := Chr is_word.                      (* \w *)
Definition anything : regex := Chr (fun _ => true).          (* [\s\S] *)
Definition one_of (cs : string) : regex := Chr (any_of cs).  (* [cs] *)
Definition none_of (cs : string) : regex :=                  (* [^cs] *)
  Chr (fun a => negb (any_of cs a)).

(** a class given by several ranges and escapes, such as [[\w.]] *)
Definition cls (ps : list (ascii -> bool)) : regex :=
  Chr (fun a => existsb (fun p => p a) ps).

Fixpoint re_seq (rs : list regex) : regex :=
  match rs with
  | [] => Eps
  | [r] => r
  | r :: rs' => Seq r (re_seq rs')
  end.

Fixpoint re_alt (rs : list regex) : regex :=
  match rs with
  | [] => Eps
  | [r] => r
  | r :: rs' => Alt r (re_alt rs')
  end.

(** [(?:a|b|c)] over literal words *)
Definition words (ws : list string) : regex := re_alt (map lit ws).

End Regex.
Import Regex.

(** ** The [js] monad: a computation returns a value or throws *)

Inductive js (A : Type) : Type :=
| Returns (a : A)
| Throws (error : string).
Arguments Returns {A} a.
Arguments Throws {A} error.

#[global] Instance js_ret : MRet js := fun A a => Returns a.
#[global] Instance js_bind : MBind js := fun A B f m =>
  match m with
  | Returns a => f a
  | Throws e => Throws e
  end.

Definition TypeError {A : Type} : js A :=
  Throws "TypeError: Cannot read properties of undefined".

(** Reading a property of [o], which must not be [undefined]. *)
Definition defined {A : Type} (o : option A) : js A :=
  match o with
  | Some a => Returns a
  | None => TypeError
  end.

(** [xs[i]] *)
Definition lookupZ {A : Type} (xs : list A) (i : Z) : option A :=
  if i <? 0 then None else xs !! Z.to_nat i.

(** [xs.length] *)
Definition lengthZ {A : Type} (xs : list A) : Z := Z.of_nat (length xs).

(** [(s.match(/c/g) || []).length] for a one-character pattern *)
Definition count_matches (r : regex) (s : string) : Z :=
  lengthZ (matchAll r s).

(** [a.match(r1) || a.match(r2) || ...]: the first pattern that matches *)
Fixpoint firstMatch (rs : list regex) (s : string) : option match_result :=
  match rs with
  | [] => None
  | r :: rs' =>
      match exec r s with
      | Some m => Some m
      | None => firstMatch rs' s
      end
  end.

(** [m[i]] for a group that takes part in every match of its pattern *)
Definition group (m : match_result) (i : nat) : js string :=
  defined (groups m i).

(** [m[i] || ''] *)
Definition groupOrEmpty (m : match_result) (i : nat) : string :=
  match groups m i with
  | Some g => g
  | None => EmptyString
  end.

(** ** fileStructureParser.ts: the data model *)

(** [enum CodeElementType]; [Variable_] is the source's [Variable], a
    reserved word here. *)
Module CodeElementType.
Inductive t : Set :=
| Class | Interface | Method | Property | Variable_ | Function
| Namespace | Enum | Constructor | Field | Module.

Definition eqb (a b : t) : bool :=
  match a, b with
  | Class, Class | Interface, Interface | Method, Method
  | Property, Property | Variable_, Variable_ | Function, Function
  | Namespace, Namespace | Enum, Enum | Constructor, Constructor
  | Field, Field | Module, Module => true
  | _, _ => false
  end.
End CodeElementType.

(** [enum AccessModifier] *)
Module AccessModifier.
Inductive t : Set := Public | Private | Protected | Internal | Default.
End AccessModifier.

(** [interface CodeElement].  [children] is optional in the interface but
    every producer below initialises it with an array, so it is a list;
    [tagName] is the property that [VueParser.parseTemplateContent] adds
    to its elements through an [any] cast. *)
#[warnings="-register-all"]
Inductive CodeElement : Type := mkCodeElement {
  name : string;
  type : CodeElementType.t;
  accessModifier : AccessModifier.t;
  line : Z;
  children : list CodeElement;
  comment : option string;
  returnType : option string;
  parameters : option string;
  returns : option string;
  params : option (list (string * string));
  tagName : option string
}.

Definition set_children (e : CodeElement) (cs : list CodeElement) : CodeElement :=
  mkCodeElement (name e) (type e) (accessModifier e) (line e) cs
    (comment e) (returnType e) (parameters e) (returns e) (params e) (tagName e).

(** [e.children.push(x)] *)
Definition push_child (x : CodeElement) (e : CodeElement) : CodeElement :=
  set_children e (children e ++ [x]).

(** ** Loops

    [for (let i = hi; i >= lo; i--)] and [for (let j = lo; j <= hi; j++)]
    visit these indices, in this order, as long as the body does not
    break. *)

Definition for_down (hi lo : Z) : list Z :=
  map (fun k => hi - Z.of_nat k) (seq 0 (Z.to_nat (hi - lo + 1))).

Definition for_up (lo hi : Z) : list Z :=
  map (fun k => lo + Z.of_nat k) (seq 0 (Z.to_nat (hi - lo + 1))).

(** ** parsers/BaseParser.ts *)

Module BaseParser.
Import CodeElementType AccessModifier.

Definition extractAccessModifier (line : string) : AccessModifier.t :=
  if includes line "public" then Public
  else if includes line "private" then Private
  else if includes line "protected" then Protected
  else if includes line "internal" then Internal
  else Default.

(** [while (s.startsWith(c)) { s = s.substring(1).trim(); }]: every turn
    shortens [s], so [fuel = String.length s] turns are enough
    (lemma [strip_leading_done]). *)
Fixpoint strip_leading_loop (fuel : nat) (c : string) (s : string) : string :=
  match fuel with
  | O => s
  | S fuel' =>
      if startsWith s c
      then strip_leading_loop fuel' c (trim (substring_from s 1))
      else s
  end.

Definition strip_leading (c : string) (s : string) : string :=
  strip_leading_loop (String.length s) c s.

(** [/\s+/g] *)
Definition re_spaces : regex := plus space.

Definition cleanComment (comment : string) : string :=
  if is_empty comment then EmptyString
  else
    let cleaned := trim comment in
    let cleaned := strip_leading " " cleaned in
    let cleaned := strip_leading "/" cleaned in
    let cleaned := strip_leading "*" cleaned in
    let cleaned := strip_leading " " cleaned in
    trim (replaceAll re_spaces " " cleaned).

(** The upward scan for [///] lines, which [extractXmlCommentInfo] and
    [extractComment] both contain, word for word except for a redundant
    [!line.startsWith('///')] in the last test.  [todo] are the indices the
    [for] header still has to visit. *)
Fixpoint collectXmlCommentLines (lines : list string) (todo : list Z)
    (foundXmlStart : bool) (xmlCommentLines : list string) : list string :=
  match todo with
  | [] => xmlCommentLines
  | i :: todo' =>
      if (i <? 0) || (lengthZ lines <=? i) then xmlCommentLines
      else
        match lookupZ lines i with
        | None => xmlCommentLines
        | Some originalLine =>
            let line := trim originalLine in
            if startsWith line "///" then
              let content :=
                trim (substring_from originalLine
                        (indexOf originalLine "///" + 3)) in
              collectXmlCommentLines lines todo' true (content :: xmlCommentLines)
            else if foundXmlStart then
              if truthy line && negb (startsWith line "//")
                 && negb (startsWith line "*") && negb (startsWith line "[")
                 && Nat.ltb 0 (String.length line)
              then xmlCommentLines
              else collectXmlCommentLines lines todo' foundXmlStart xmlCommentLines
            else
              if truthy line && negb (startsWith line "//")
                 && negb (startsWith line "*") && negb (startsWith line "///")
                 && negb (startsWith line "[")
              then xmlCommentLines
              else collectXmlCommentLines lines todo' foundXmlStart xmlCommentLines
        end
  end.

Definition xmlCommentLinesAbove (lines : list string) (lineIndex : Z) : list string :=
  collectXmlCommentLines lines
    (for_down (lineIndex - 1) (Z.max 0 (lineIndex - 20))) false [].

(** [/<summary>([\s\S]*?)<\/summary>/i] *)
Definition re_summary : regex :=
  re_seq [lit_i "<summary>"; Grp 1 (lazy_star anything); lit_i "</summary>"].

(** [/<param\s+name=[\x22']([^\x22']+)[\x22']>([\s\S]*?)<\/param>/gi] *)
Definition re_param : regex :=
  re_seq [lit_i "<param"; plus space; lit_i "name="; one_of quotes;
       Grp 1 (plus (none_of quotes)); one_of quotes; chr ">";
       Grp 2 (lazy_star anything); lit_i "</param>"].

(** [/<returns>([\s\S]*?)<\/returns>/i] *)
Definition re_returns : regex :=
  re_seq [lit_i "<returns>"; Grp 1 (lazy_star anything); lit_i "</returns>"].

(** [text.split('\n').map(line => this.cleanComment(line))
        .filter(line => line.length > 0).join(' ')
        .replace(/\s+/g, ' ').trim()] *)
Definition cleanTagText (text : string) : string :=
  trim (replaceAll re_spaces " "
          (join " " (filter (fun l => Nat.ltb 0 (String.length l))
                       (map cleanComment (split_lines text))))).

Record XmlCommentInfo : Type := mkXmlCommentInfo {
  info_summary : option string;
  info_params : option (list (string * string));
  info_returns : option string
}.

Definition tagText (r : regex) (xmlComment : string) : option string :=
  match exec r xmlComment with
  | Some m =>
      match groups m 1%nat with
      | Some text =>
          let cleaned := cleanTagText text in
          if truthy cleaned then Some cleaned else None
      | None => None
      end
  | None => None
  end.

Definition paramOfMatch (m : match_result) : list (string * string) :=
  match groups m 1%nat, groups m 2%nat with
  | Some paramName, Some text =>
      let paramDesc := cleanTagText text in
      if truthy paramName && truthy paramDesc then [(paramName, paramDesc)] else []
  | _, _ => []
  end.

Definition extractXmlCommentInfo (lines : list string) (lineIndex : Z)
  : XmlCommentInfo :=
  if (lineIndex <? 0) || (lengthZ lines <=? lineIndex) then
    mkXmlCommentInfo None (Some []) None
  else
    let xmlCommentLines := xmlCommentLinesAbove lines lineIndex in
    if Nat.ltb 0 (length xmlCommentLines) then
      let xmlComment := join LF xmlCommentLines in
      let params := concat (map paramOfMatch (matchAll re_param xmlComment)) in
      mkXmlCommentInfo
        (tagText re_summary xmlComment)
        (if Nat.ltb 0 (length params) then Some params else None)
        (tagText re_returns xmlComment)
    else mkXmlCommentInfo None None None.

(** The inner loop of [extractComment] over a block comment that starts
    on line [i]: [todo] are the indices [j] still to visit. *)
Fixpoint blockCommentLoop (lines : list string) (i : Z) (todo : list Z)
    (comment : string) : js string :=
  match todo with
  | [] => mret comment
  | j :: todo' =>
      l ← defined (lookupZ lines j);
      let commentLine := trim l in
      if includes commentLine "*/" then
        mret (comment ++ substring_to commentLine (indexOf commentLine "*/"))
      else if j =? i then
        blockCommentLoop lines i todo'
          (comment ++ substring_from commentLine (indexOf commentLine "/*" + 2))
      else
        blockCommentLoop lines i todo' (comment ++ " " ++ commentLine)
  end.

(** [comment || undefined] *)
Definition orUndefined (comment : string) : option string :=
  if truthy comment then Some comment else None.

(** The second loop of [extractComment], over the five lines above. *)
Fixpoint plainCommentLoop (lines : list string) (lineIndex : Z) (todo : list Z)
  : js (option string) :=
  match todo with
  | [] => mret None
  | i :: todo' =>
      l ← defined (lookupZ lines i);
      let line := trim l in
      if startsWith line "//" && negb (startsWith line "///") then
        mret (orUndefined (cleanComment (substring_from line 2)))
      else if includes line "/*" then
        comment ← blockCommentLoop lines i
                    (for_up i (Z.min lineIndex (lengthZ lines - 1))) EmptyString;
        mret (orUndefined (cleanComment comment))
      else if truthy line && negb (startsWith line "//")
              && negb (startsWith line "*") && negb (startsWith line "///")
      then mret None
      else plainCommentLoop lines lineIndex todo'
  end.

Definition extractComment (lines : list string) (lineIndex : Z)
  : js (option string) :=
  if (lineIndex <? 0) || (lengthZ lines <=? lineIndex) then mret None
  else
    let xmlCommentLines := xmlCommentLinesAbove lines lineIndex in
    let fromXml :=
      if Nat.ltb 0 (length xmlCommentLines) then
        match tagText re_summary (join LF xmlCommentLines) with
        | Some summary => Some summary
        | None =>
            orUndefined
              (join " " (filter (fun l => Nat.ltb 0 (String.length l))
                           (map cleanComment xmlCommentLines)))
        end
      else None in
    match fromXml with
    | Some c => mret (Some c)
    | None =>
        plainCommentLoop lines lineIndex
          (for_down (lineIndex - 1) (Z.max 0 (lineIndex - 5)))
    end.

(** Truthiness of an optional string. *)
Definition truthy_opt (o : option string) : bool :=
  match o with
  | Some s => truthy s
  | None => false
  end.

(** The object literals of the synthesized child nodes: the fields that
    the literal does not mention are [undefined]. *)
Definition pseudoElement (name : string) (line : Z) (comment : option string)
    (children : list CodeElement) : CodeElement :=
  mkCodeElement name Variable_ Default line children comment
    None None None None None.

Definition descriptionNode (line : Z) (comment : string) : CodeElement :=
  pseudoElement "方法描述:" line (Some (strip_leading "/" comment)) [].

Definition paramNode (line : Z) (param : string * string) : CodeElement :=
  pseudoElement (fst param) line (Some (strip_leading "/" (snd param))) [].

Definition paramsNode (line : Z) (params : list (string * string)) : CodeElement :=
  pseudoElement "方法参数:" line None (map (paramNode line) params).

Definition returnsNode (line : Z) (returns : string) : CodeElement :=
  pseudoElement "方法返回:" line (Some (strip_leading "/" returns)) [].

(** The children that [createElement] pushes, in the order of its three
    [if] statements. *)
Definition pseudoChildren (line : Z) (comment : option string)
    (params : option (list (string * string))) (returns : option string)
  : list CodeElement :=
  (match comment with
   | Some c => if truthy c then [descriptionNode line c] else []
   | None => []
   end)
  ++ (match params with
      | Some ps => if Nat.ltb 0 (length ps) then [paramsNode line ps] else []
      | None => []
      end)
  ++ (match returns with
      | Some r => if truthy r then [returnsNode line r] else []
      | None => []
      end).

Definition createElement (name : string) (type : CodeElementType.t) (line : Z)
    (lineText : string) (lines : list string)
    (returnType parameters : option string) (lineIndex : option Z)
  : js CodeElement :=
  let indexForComment :=
    match lineIndex with
    | Some i => i
    | None => line - 1
    end in
  let xmlCommentInfo := extractXmlCommentInfo lines indexForComment in
  comment ←
    (if truthy_opt (info_summary xmlCommentInfo)
     then mret (info_summary xmlCommentInfo)
     else extractComment lines indexForComment);
  let comment :=
    if truthy_opt comment then option_map cleanComment comment else comment in
  let element :=
    mkCodeElement name type (extractAccessModifier lineText) line []
      comment returnType parameters (info_returns xmlCommentInfo) None None in
  if CodeElementType.eqb type Method || CodeElementType.eqb type Constructor
  then
    mret (set_children element
            (pseudoChildren line (comment)
               (info_params xmlCommentInfo) (returns element)))
  else mret element.

End BaseParser.

(** ** References into the element forest

    The scanners keep references to elements that already sit in the
    result array (or in the [children] of one of its members) and push
    children to them later.  Such a reference is the place of the object:
    [Root i] is [elements[i]], [Child i j] is [elements[i].children[j]].
    Nothing is ever removed or inserted in front, so a place keeps
    denoting the same object. *)

Inductive ref : Set :=
| Root (i : nat)
| Child (i j : nat).

Definition deref (r : ref) (elements : list CodeElement) : option CodeElement :=
  match r with
  | Root i => elements !! i
  | Child i j => e ← elements !! i; children e !! j
  end.

(** apply [f] to the object at [r] *)
Definition update (r : ref) (f : CodeElement -> CodeElement)
    (elements : list CodeElement) : list CodeElement :=
  match r with
  | Root i => alter f i elements
  | Child i j =>
      alter (fun e => set_children e (alter f j (children e))) i elements
  end.

(** ** parsers/CSharpParser.ts *)

Module CSharpParser.
Import CodeElementType BaseParser.

(** [(?:public|private|protected|internal)] *)
Definition modifier : regex :=
  words ["public"; "private"; "protected"; "internal"].

(** [(\w+)\s*\(([^)]{0,})\)]: a name and a parameter list, groups [i] and
    [i+1] *)
Definition callable (i : nat) : regex :=
  re_seq [Grp i (plus word); star space; chr "(";
          Grp (S i) (star (none_of ")")); chr ")"].

(** [([\w<>,\s.]+?)] *)
Definition returnTypeGroup : regex :=
  Grp 1 (lazy_plus (cls [is_word; any_of "<>,"; is_space; any_of "."])).

(** [(\w+(?:<[^>]+>)?)] *)
Definition typeGroup : regex :=
  Grp 1 (Seq (plus word) (opt (re_seq [chr "<"; plus (none_of ">"); chr ">"]))).

(** [/(?:public|private|protected|internal)?\s*(?:abstract|sealed|static)?\s*class\s+(\w+)/] *)
Definition re_class : regex :=
  re_seq [opt modifier; star space; opt (words ["abstract"; "sealed"; "static"]);
          star space; lit "class"; plus space; Grp 1 (plus word)].

(** [/(?:public|private|protected|internal)?\s*interface\s+(\w+)/] *)
Definition re_interface : regex :=
  re_seq [opt modifier; star space; lit "interface"; plus space; Grp 1 (plus word)].

(** [/namespace\s+([\w.]+)/] *)
Definition re_namespace : regex :=
  re_seq [lit "namespace"; plus space; Grp 1 (plus (cls [is_word; any_of "."]))].

(** [/(?:public|private|protected|internal)?\s*enum\s+(\w+)/] *)
Definition re_enum : regex :=
  re_seq [opt modifier; star space; lit "enum"; plus space; Grp 1 (plus word)].

(** [/static\s+(?:public|private|protected|internal)?\s*(\w+)\s*\(([^)]{0,})\)/] *)
Definition re_constructor1 : regex :=
  re_seq [lit "static"; plus space; opt modifier; star space; callable 1].

(** [/(?:public|private|protected|internal)\s*(\w+)\s*\(([^)]{0,})\)/] *)
Definition re_constructor2 : regex :=
  re_seq [modifier; star space; callable 1].

(** [/^\s*(\w+)\s*\(([^)]{0,})\)/] *)
Definition re_constructor3 : regex :=
  re_seq [Bol; star space; callable 1].

(** [/static\s+(?:public|private|protected|internal)?\s*(?:async|virtual|override|abstract)?\s*([\w<>,\s.]+?)\s+(\w+)\s*\(([^)]{0,})\)/] *)
Definition re_method1 : regex :=
  re_seq [lit "static"; plus space; opt modifier; star space;
          opt (words ["async"; "virtual"; "override"; "abstract"]); star space;
          returnTypeGroup; plus space; callable 2].

(** [/(?:public|private|protected|internal)\s*(?:static|async|virtual|override|abstract)?\s*([\w<>,\s.]+?)\s+(\w+)\s*\(([^)]{0,})\)/] *)
Definition re_method2 : regex :=
  re_seq [modifier; star space;
          opt (words ["static"; "async"; "virtual"; "override"; "abstract"]);
          star space; returnTypeGroup; plus space; callable 2].

(** [/static\s+([\w<>,\s.]+?)\s+(\w+)\s*\(([^)]{0,})\)/] *)
Definition re_method3 : regex :=
  re_seq [lit "static"; plus space; returnTypeGroup; plus space; callable 2].

(** [/static\s+(?:public|private|protected|internal)?\s*(?:virtual|override)?\s*(\w+(?:<[^>]+>)?)\s+(\w+)\s*\{/] *)
Definition re_property1 : regex :=
  re_seq [lit "static"; plus space; opt modifier; star space;
          opt (words ["virtual"; "override"]); star space;
          typeGroup; plus space; Grp 2 (plus word); star space; chr "{"].

(** [/(?:public|private|protected|internal)\s*(?:static|virtual|override)?\s*(\w+(?:<[^>]+>)?)\s+(\w+)\s*\{/] *)
Definition re_property2 : regex :=
  re_seq [modifier; star space; opt (words ["static"; "virtual"; "override"]);
          star space; typeGroup; plus space; Grp 2 (plus word); star space;
          chr "{"].

(** [/static\s+(\w+(?:<[^>]+>)?)\s+(\w+)\s*\{/] *)
Definition re_property3 : regex :=
  re_seq [lit "static"; plus space; typeGroup; plus space; Grp 2 (plus word);
          star space; chr "{"].

(** [/^\s*(?:public|private|protected|internal|static|readonly|const)/] *)
Definition re_field_guard : regex :=
  re_seq [Bol; star space;
          words ["public"; "private"; "protected"; "internal"; "static";
                 "readonly"; "const"]].

(** [(?:static|readonly|const)] *)
Definition storage : regex := words ["static"; "readonly"; "const"].

(** [(\w+)(?:\s*[=;])] *)
Definition fieldName : regex :=
  re_seq [Grp 2 (plus word); star space; one_of "=;"].

(** [/(?:static|readonly|const)\s+(?:public|private|protected|internal)?\s*(\w+(?:<[^>]+>)?)\s+(\w+)(?:\s*[=;])/] *)
Definition re_field1 : regex :=
  re_seq [storage; plus space; opt modifier; star space; typeGroup; plus space;
          fieldName].

(** [/(?:public|private|protected|internal)\s*(?:static|readonly|const)?\s*(\w+(?:<[^>]+>)?)\s+(\w+)(?:\s*[=;])/] *)
Definition re_field2 : regex :=
  re_seq [modifier; star space; opt storage; star space; typeGroup; plus space;
          fieldName].

(** [/(?:static|readonly|const)\s+(\w+(?:<[^>]+>)?)\s+(\w+)(?:\s*[=;])/] *)
Definition re_field3 : regex :=
  re_seq [storage; plus space; typeGroup; plus space; fieldName].

(** The four declarations that are recognised by one pattern and one
    [createElement] call. *)
Definition parseSimple (r : regex) (type : CodeElementType.t)
    (line : string) (lineNum : Z) (lines : list string)
  : js (option CodeElement) :=
  match exec r line with
  | Some m =>
      n ← group m 1;
      e ← createElement n type lineNum line lines None None None;
      mret (Some e)
  | None => mret None
  end.

Definition parseClass := parseSimple re_class Class.
Definition parseInterface := parseSimple re_interface Interface.
Definition parseNamespace := parseSimple re_namespace Namespace.
Definition parseEnum := parseSimple re_enum Enum.

(** [line.includes('{') && (line.includes('get') || line.includes('set'))] *)
Definition looksLikeProperty (line : string) : bool :=
  includes line "{" && (includes line "get" || includes line "set").

Definition parseConstructor (line : string) (lineNum : Z) (lines : list string)
    (className : string) : js (option CodeElement) :=
  if looksLikeProperty line then mret None
  else
    match firstMatch [re_constructor1; re_constructor2; re_constructor3] line with
    | Some constructorMatch =>
        methodName ← group constructorMatch 1;
        let parameters := groupOrEmpty constructorMatch 2 in
        if String.eqb methodName className then
          e ← createElement methodName Constructor lineNum line lines
                None (Some parameters) None;
          mret (Some e)
        else mret None
    | None => mret None
    end.

Definition parseMethod (line : string) (lineNum : Z) (lines : list string)
    (className : string) : js (option CodeElement) :=
  if looksLikeProperty line then mret None
  else
    match firstMatch [re_method1; re_method2; re_method3] line with
    | Some methodMatch =>
        g1 ← group methodMatch 1;
        let returnType := trim g1 in
        methodName ← group methodMatch 2;
        let parameters := groupOrEmpty methodMatch 3 in
        if String.eqb returnType methodName && String.eqb methodName className
        then
          e ← createElement methodName Constructor lineNum line lines
                None (Some parameters) None;
          mret (Some e)
        else
          e ← createElement methodName Method lineNum line lines
                (Some returnType) (Some parameters) None;
          mret (Some e)
    | None => mret None
    end.

Definition parseProperty (line : string) (lineNum : Z) (lines : list string)
  : js (option CodeElement) :=
  match firstMatch [re_property1; re_property2; re_property3] line with
  | Some propertyMatch =>
      n ← group propertyMatch 2;
      e ← createElement n Property lineNum line lines
            (groups propertyMatch 1%nat) None None;
      mret (Some e)
  | None => mret None
  end.

Definition parseField (line : string) (lineNum : Z) (lines : list string)
  : js (option CodeElement) :=
  if includes line "("
     || (includes line "{" && negb (includes line "get")
         && negb (includes line "set"))
  then mret None
  else if negb (test re_field_guard line) then mret None
  else
    match firstMatch [re_field1; re_field2; re_field3] line with
    | Some fieldMatch =>
        n ← group fieldMatch 2;
        e ← createElement n Field lineNum line lines
              (groups fieldMatch 1%nat) None None;
        mret (Some e)
    | None => mret None
    end.

(** The local variables of [parse].  [currentNamespace] is an index into
    [elements] (a namespace is only ever pushed there), [currentClass] a
    reference to a member of [elements] or to a child of the namespace. *)
Record state : Type := mkState {
  elements : list CodeElement;
  lineNum : Z;
  braceCount : Z;
  currentNamespace : option nat;
  namespaceStartBrace : Z;
  currentClass : option ref;
  classStartBrace : Z;
  inMethod : bool;
  methodBraceLevel : Z
}.

Definition initial : state := mkState [] 0 0 None (-1) None (-1) false (-1).

Definition with_elements (els : list CodeElement) (st : state) : state :=
  mkState els (lineNum st) (braceCount st) (currentNamespace st)
    (namespaceStartBrace st) (currentClass st) (classStartBrace st)
    (inMethod st) (methodBraceLevel st).

Definition with_lineNum (n : Z) (st : state) : state :=
  mkState (elements st) n (braceCount st) (currentNamespace st)
    (namespaceStartBrace st) (currentClass st) (classStartBrace st)
    (inMethod st) (methodBraceLevel st).

Definition with_braceCount (n : Z) (st : state) : state :=
  mkState (elements st) (lineNum st) n (currentNamespace st)
    (namespaceStartBrace st) (currentClass st) (classStartBrace st)
    (inMethod st) (methodBraceLevel st).

Definition with_namespace (ns : option nat) (floor : Z) (st : state) : state :=
  mkState (elements st) (lineNum st) (braceCount st) ns floor
    (currentClass st) (classStartBrace st) (inMethod st) (methodBraceLevel st).

Definition with_class (c : option ref) (floor : Z) (st : state) : state :=
  mkState (elements st) (lineNum st) (braceCount st) (currentNamespace st)
    (namespaceStartBrace st) c floor (inMethod st) (methodBraceLevel st).

Definition with_method (b : bool) (level : Z) (st : state) : state :=
  mkState (elements st) (lineNum st) (braceCount st) (currentNamespace st)
    (namespaceStartBrace st) (currentClass st) (classStartBrace st) b level.

(** The three closing tests, in the order of the source. *)
Definition closeNamespace (st : state) : state :=
  if bool_decide (is_Some (currentNamespace st))
     && (0 <=? namespaceStartBrace st)
     && (braceCount st <=? namespaceStartBrace st)
  then with_method false (-1) (with_class None (-1) (with_namespace None (-1) st))
  else st.

Definition closeClass (st : state) : state :=
  if bool_decide (is_Some (currentClass st))
     && (0 <=? classStartBrace st)
     && (braceCount st <=? classStartBrace st)
  then with_method false (-1) (with_class None (-1) st)
  else st.

Definition closeMethod (st : state) : state :=
  if inMethod st && (0 <=? methodBraceLevel st)
     && (braceCount st <=? methodBraceLevel st)
  then with_method false (-1) st
  else st.

(** [if (currentNamespace) currentNamespace.children.push(x) else
    elements.push(x)] *)
Definition pushToScope (x : CodeElement) (st : state) : state :=
  match currentNamespace st with
  | Some i => with_elements (update (Root i) (push_child x) (elements st)) st
  | None => with_elements (elements st ++ [x]) st
  end.

(** [currentClass.children.push(x)] *)
Definition pushToClass (c : ref) (x : CodeElement) (st : state) : state :=
  with_elements (update c (push_child x) (elements st)) st.

(** A class declaration: the new element becomes [currentClass]; its
    place is the end of the array it is pushed to. *)
Definition openClass (classElement : CodeElement) (beforeBraceCount : Z)
    (st : state) : js state :=
  match currentNamespace st with
  | Some i =>
      ns ← defined (elements st !! i);
      mret (with_class (Some (Child i (length (children ns)))) beforeBraceCount
              (pushToScope classElement st))
  | None =>
      mret (with_class (Some (Root (length (elements st)))) beforeBraceCount
              (pushToScope classElement st))
  end.

(** The members of the open class [c], when no method is open: the
    constructor pattern, then the method, property and field patterns.
    The result tells whether the line opened a method. *)
Definition parseMember (trimmedLine : string) (lineNum : Z)
    (lines : list string) (className : string)
  : js (option (CodeElement * bool)) :=
  constructorElement ← parseConstructor trimmedLine lineNum lines className;
  match constructorElement with
  | Some e => mret (Some (e, true))
  | None =>
      methodElement ← parseMethod trimmedLine lineNum lines className;
      match methodElement with
      | Some e => mret (Some (e, true))
      | None =>
          propertyElement ← parseProperty trimmedLine lineNum lines;
          match propertyElement with
          | Some e => mret (Some (e, false))
          | None =>
              fieldElement ← parseField trimmedLine lineNum lines;
              match fieldElement with
              | Some e => mret (Some (e, false))
              | None => mret None
              end
          end
      end
  end.

(** The part of the loop body under [if (currentClass)]. *)
Definition inClass (c : ref) (trimmedLine : string) (lines : list string)
    (st : state) : js state :=
  cls ← defined (deref c (elements st));
  if inMethod st then
    methodElement ← parseMethod trimmedLine (lineNum st) lines (name cls);
    match methodElement with
    | Some e => mret (pushToClass c e (with_method (inMethod st) (braceCount st) st))
    | None => mret st
    end
  else
    member ← parseMember trimmedLine (lineNum st) lines (name cls);
    match member with
    | Some (e, true) => mret (pushToClass c e (with_method true (braceCount st) st))
    | Some (e, false) => mret (pushToClass c e st)
    | None => mret st
    end.

(** The part of the loop body under the last [if (!currentClass)]. *)
Definition outsideClass (trimmedLine : string) (lines : list string)
    (st : state) : js state :=
  interfaceElement ← parseInterface trimmedLine (lineNum st) lines;
  match interfaceElement with
  | Some e => mret (pushToScope e st)
  | None =>
      enumElement ← parseEnum trimmedLine (lineNum st) lines;
      match enumElement with
      | Some e => mret (pushToScope e st)
      | None => mret st
      end
  end.

Definition isComment (trimmedLine : string) : bool :=
  is_empty trimmedLine
  || startsWith trimmedLine "//" || startsWith trimmedLine "*"
  || startsWith trimmedLine "///" || startsWith trimmedLine "/*"
  || startsWith trimmedLine "/**".

(** One turn of [for (const line of lines)]. *)
Definition scanLine (lines : list string) (st : state) (line : string)
  : js state :=
  let st := with_lineNum (lineNum st + 1) st in
  let trimmedLine := trim line in
  if isComment trimmedLine then mret st
  else
    let openBraces := count_matches (chr "{") line in
    let closeBraces := count_matches (chr "}") line in
    let beforeBraceCount := braceCount st in
    let st := with_braceCount (braceCount st + (openBraces - closeBraces)) st in
    let st := closeMethod (closeClass (closeNamespace st)) in
    namespaceElement ←
      (if bool_decide (currentNamespace st = None)
          && bool_decide (currentClass st = None)
       then parseNamespace trimmedLine (lineNum st) lines
       else mret None);
    match namespaceElement with
    | Some e =>
        mret (with_namespace (Some (length (elements st))) beforeBraceCount
                (with_elements (elements st ++ [e]) st))
    | None =>
        classElement ←
          (if bool_decide (currentClass st = None)
           then parseClass trimmedLine (lineNum st) lines
           else mret None);
        match classElement with
        | Some e => openClass e beforeBraceCount st
        | None =>
            match currentClass st with
            | Some c => inClass c trimmedLine lines st
            | None => outsideClass trimmedLine lines st
            end
        end
    end.

(** [for (const line of lines)], from the state [st] on. *)
Fixpoint scan (lines : list string) (todo : list string) (st : state)
  : js state :=
  match todo with
  | [] => mret st
  | line :: todo' =>
      st' ← scanLine lines st line;
      scan lines todo' st'
  end.

Definition parse (lines : list string) : js (list CodeElement) :=
  st ← scan lines lines initial;
  mret (elements st).

End CSharpParser.

(** ** parsers/JavaScriptParser.ts *)

Module JavaScriptParser.
Import CodeElementType AccessModifier BaseParser.

(** [(s.match(/{/g) || []).length - (s.match(/}/g) || []).length] *)
Definition netBraces (s : string) : Z :=
  count_matches (chr "{") s - count_matches (chr "}") s.

(** The test at the head of the loops of the sub-scans. *)
Definition isBlankOrComment (trimmedLine : string) : bool :=
  is_empty trimmedLine || startsWith trimmedLine "//"
  || startsWith trimmedLine "*".

(** [(?:['\x22]?)(\w+)(?:['\x22]?)] *)
Definition quotedName : regex :=
  re_seq [opt (one_of quotes); Grp 1 (plus word); opt (one_of quotes)].

(** [(?:function\s*\(|\(|async\s*\(|async\s*function\s*\()] *)
Definition functionHead : regex :=
  re_alt [re_seq [lit "function"; star space; chr "("];
          chr "(";
          re_seq [lit "async"; star space; chr "("];
          re_seq [lit "async"; star space; lit "function"; star space; chr "("]].

(** [/^\s*(\w+)\s*[:=]\s*(?:function\s*\(|\(|async\s*\(|async\s*function\s*\()/] *)
Definition re_method_assigned : regex :=
  re_seq [Bol; star space; Grp 1 (plus word); star space; one_of ":=";
          star space; functionHead].

(** [/^\s*(\w+)\s*\(/] *)
Definition re_method_short : regex :=
  re_seq [Bol; star space; Grp 1 (plus word); star space; chr "("].

(** [/\(([^)]{0,})\)/] *)
Definition re_params : regex :=
  re_seq [chr "("; Grp 1 (star (none_of ")")); chr ")"].

(** [/^\s*(\w+)\s*[:=]\s*(?:function\s*\(|\(|{)/] *)
Definition re_computed : regex :=
  re_seq [Bol; star space; Grp 1 (plus word); star space; one_of ":=";
          star space;
          re_alt [re_seq [lit "function"; star space; chr "("]; chr "("; chr "{"]].

(** [/^\s*(?:['\x22]?)(\w+)(?:['\x22]?)\s*[:=]/] *)
Definition re_entry : regex :=
  re_seq [Bol; star space; quotedName; star space; one_of ":="].

(** [/^\s*(?:['\x22]?)(\w+)(?:['\x22]?)\s*[:=]\s*(?:function\s*\(|\(|async\s*\(|async\s*function\s*\()/] *)
Definition re_watch_assigned : regex :=
  re_seq [Bol; star space; quotedName; star space; one_of ":="; star space;
          functionHead].

(** [/^\s*(?:['\x22]?)(\w+)(?:['\x22]?)\s*\(/] *)
Definition re_watch_short : regex :=
  re_seq [Bol; star space; quotedName; star space; chr "("].

(** [/(?:export\s+)?(?:default\s+)?(?:abstract\s+)?class\s+(\w+)/] *)
Definition re_class : regex :=
  re_seq [opt (Seq (lit "export") (plus space));
          opt (Seq (lit "default") (plus space));
          opt (Seq (lit "abstract") (plus space));
          lit "class"; plus space; Grp 1 (plus word)].

(** [/(?:export\s+)?(?:async\s+)?function\s+(\w+)\s*\(/] *)
Definition re_function1 : regex :=
  re_seq [opt (Seq (lit "export") (plus space));
          opt (Seq (lit "async") (plus space));
          lit "function"; plus space; Grp 1 (plus word); star space; chr "("].

(** [/(?:export\s+)?(?:const|let|var)\s+(\w+)\s*[=:]\s*(?:async\s{0,})?\(/] *)
Definition re_function2 : regex :=
  re_seq [opt (Seq (lit "export") (plus space)); words ["const"; "let"; "var"];
          plus space; Grp 1 (plus word); star space; one_of "=:"; star space;
          opt (Seq (lit "async") (star space)); chr "("].

(** [/(?:export\s+)?(\w+)\s*[:=]\s*(?:async\s{0,})?\(/] *)
Definition re_function3 : regex :=
  re_seq [opt (Seq (lit "export") (plus space)); Grp 1 (plus word); star space;
          one_of ":="; star space; opt (Seq (lit "async") (star space));
          chr "("].

(** [/(?:export\s+)?interface\s+(\w+)/] *)
Definition re_interface : regex :=
  re_seq [opt (Seq (lit "export") (plus space)); lit "interface"; plus space;
          Grp 1 (plus word)].

Definition parseSimple (rs : list regex) (type : CodeElementType.t)
    (line : string) (lineNum : Z) (lines : list string)
  : js (option CodeElement) :=
  match firstMatch rs line with
  | Some m =>
      n ← group m 1;
      e ← createElement n type lineNum line lines None None None;
      mret (Some e)
  | None => mret None
  end.

Definition parseClass := parseSimple [re_class] Class.
Definition parseFunction :=
  parseSimple [re_function1; re_function2; re_function3] Function.
Definition parseInterface := parseSimple [re_interface] Interface.

(** *** parseMethodsContent *)

Record methodsState : Type := mkMethodsState {
  methods : list CodeElement;
  m_braceCount : Z;
  inMethods : bool;
  inMethodBody : bool;
  methodBodyBraceCount : Z
}.

(** One turn of the loop; [true] in the result stands for [break]. *)
Definition methodsLine (lines : list string) (startLineOffset : Z) (i : Z)
    (st : methodsState) : js (methodsState * bool) :=
  line ← defined (lookupZ lines i);
  let trimmedLine := trim line in
  if isBlankOrComment trimmedLine then mret (st, false)
  else if includes trimmedLine "methods" && includes trimmedLine "{" then
    mret (mkMethodsState (methods st) (netBraces trimmedLine) true
            (inMethodBody st) (methodBodyBraceCount st), false)
  else if negb (inMethods st) then mret (st, false)
  else
    let lineBraceCount := netBraces trimmedLine in
    if inMethodBody st then
      let body := methodBodyBraceCount st + lineBraceCount in
      let braceCount := m_braceCount st + lineBraceCount in
      mret (mkMethodsState (methods st) braceCount (inMethods st)
              (if body <=? 0 then false else true)
              (if body <=? 0 then 0 else body),
            braceCount <=? 0)
    else
      match firstMatch [re_method_assigned; re_method_short]
              trimmedLine with
      | Some methodMatch =>
          methodName ← group methodMatch 1;
          parameters ←
            match exec re_params trimmedLine with
            | Some paramMatch => group paramMatch 1
            | None => mret EmptyString
            end;
          let hasMethodBody := includes trimmedLine "{" in
          let body :=
            if hasMethodBody then netBraces trimmedLine
            else methodBodyBraceCount st in
          let inBody :=
            if hasMethodBody && (0 <? body) then true else inMethodBody st in
          methodElement ←
            createElement methodName Method (i + 1 + startLineOffset) line lines
              None (Some parameters) (Some i);
          let braceCount := m_braceCount st + lineBraceCount in
          mret (mkMethodsState (methods st ++ [methodElement]) braceCount
                  (inMethods st)
                  inBody body,
                braceCount <=? 0)
      | None =>
          if String.eqb trimmedLine "{" then
            mret (mkMethodsState (methods st) (m_braceCount st + lineBraceCount)
                    (inMethods st) true 1, false)
          else
            let braceCount := m_braceCount st + lineBraceCount in
            mret (mkMethodsState (methods st) braceCount (inMethods st)
                    (inMethodBody st) (methodBodyBraceCount st),
                  braceCount <=? 0)
      end.

(** A [for] loop over the indices [todo] whose body may [break]. *)
Fixpoint forLoop {St : Type} (body : Z -> St -> js (St * bool))
    (todo : list Z) (st : St) : js St :=
  match todo with
  | [] => mret st
  | i :: todo' =>
      body i st ≫= fun r : St * bool =>
      if snd r then mret (fst r) else forLoop body todo' (fst r)
  end.

(** [for (let i = startLine - 1; i < endLine && i < lines.length; i++)] *)
Definition contentRange (lines : list string) (startLine endLine : Z) : list Z :=
  for_up (startLine - 1) (Z.min endLine (lengthZ lines) - 1).

Definition parseMethodsContent (lines : list string) (startLine endLine : Z)
    (startLineOffset : Z) : js (list CodeElement) :=
  st ← forLoop (methodsLine lines startLineOffset)
         (contentRange lines startLine endLine)
         (mkMethodsState [] 0 false false 0);
  mret (methods st).

(** *** parseComputedContent, parseWatchContent, parsePropsContent

    The three functions are one text up to the key they look for, the
    patterns of an entry and the kind of the elements. *)

Record bagState : Type := mkBagState {
  entries : list CodeElement;
  b_braceCount : Z;
  inBag : bool
}.

Definition bagLine (key : string) (patterns : list regex)
    (type : CodeElementType.t) (lines : list string) (startLineOffset : Z)
    (i : Z) (st : bagState) : js (bagState * bool) :=
  line ← defined (lookupZ lines i);
  let trimmedLine := trim line in
  if isBlankOrComment trimmedLine then mret (st, false)
  else if includes trimmedLine key && includes trimmedLine "{" then
    mret (mkBagState (entries st) (netBraces trimmedLine) true, false)
  else if negb (inBag st) then mret (st, false)
  else
    let braceCount := b_braceCount st + netBraces trimmedLine in
    match firstMatch patterns trimmedLine with
    | Some m =>
        n ← group m 1;
        e ← createElement n type (i + 1 + startLineOffset) line lines
              None None (Some i);
        mret (mkBagState (entries st ++ [e]) braceCount (inBag st),
              braceCount <=? 0)
    | None =>
        mret (mkBagState (entries st) braceCount (inBag st), braceCount <=? 0)
    end.

Definition parseBagContent (key : string) (patterns : list regex)
    (type : CodeElementType.t) (lines : list string) (startLine endLine : Z)
    (startLineOffset : Z) : js (list CodeElement) :=
  st ← forLoop (bagLine key patterns type lines startLineOffset)
         (contentRange lines startLine endLine) (mkBagState [] 0 false);
  mret (entries st).

Definition parseComputedContent := parseBagContent "computed" [re_computed] Property.
Definition parseWatchContent :=
  parseBagContent "watch" [re_watch_assigned; re_watch_short] Method.
Definition parsePropsContent := parseBagContent "props" [re_entry] Property.

(** *** parseDataContent *)

Record dataState : Type := mkDataState {
  data : list CodeElement;
  d_braceCount : Z;
  inData : bool;
  inReturn : bool
}.

Definition dataLine (lines : list string) (startLineOffset : Z) (i : Z)
    (st : dataState) : js (dataState * bool) :=
  line ← defined (lookupZ lines i);
  let trimmedLine := trim line in
  if isBlankOrComment trimmedLine then mret (st, false)
  else if includes trimmedLine "data"
          && (includes trimmedLine "{" || includes trimmedLine "(") then
    mret (mkDataState (data st) (netBraces trimmedLine) true (inReturn st), false)
  else if negb (inData st) then mret (st, false)
  else if includes trimmedLine "return" && includes trimmedLine "{" then
    mret (mkDataState (data st) (netBraces trimmedLine) (inData st) true, false)
  else if negb (inReturn st) then mret (st, false)
  else
    let braceCount := d_braceCount st + netBraces trimmedLine in
    match exec re_entry trimmedLine with
    | Some m =>
        n ← group m 1;
        e ← createElement n Variable_ (i + 1 + startLineOffset) line lines
              None None (Some i);
        mret (mkDataState (data st ++ [e]) braceCount (inData st) (inReturn st),
              braceCount <=? 0)
    | None =>
        mret (mkDataState (data st) braceCount (inData st) (inReturn st),
              braceCount <=? 0)
    end.

Definition parseDataContent (lines : list string) (startLine endLine : Z)
    (startLineOffset : Z) : js (list CodeElement) :=
  st ← forLoop (dataLine lines startLineOffset)
         (contentRange lines startLine endLine) (mkDataState [] 0 false false);
  mret (data st).

(** *** parseExportDefaultProperties *)

(** the [type] strings of [vuePropertyPatterns] *)
Inductive propertyKind : Set :=
| property | data_ | methods_ | computed | watch | props | components
| lifecycle | setup.

(** [/^\s*key\s*[:=]\s*{/] *)
Definition re_bag (key : string) : regex :=
  re_seq [Bol; star space; lit key; star space; one_of ":="; star space; chr "{"].

(** [/^\s*hook\s*\([^)]*\)\s*{/] *)
Definition re_hook (hook : string) : regex :=
  re_seq [Bol; star space; lit hook; star space; chr "("; star (none_of ")");
          chr ")"; star space; chr "{"].

(** [/^\s*key\s*[:=]\s*(?:\([^)]*\)\s*=>\s{0,})?{/] *)
Definition re_factory (key : string) : regex :=
  re_seq [Bol; star space; lit key; star space; one_of ":="; star space;
          opt (re_seq [chr "("; star (none_of ")"); chr ")"; star space;
                       lit "=>"; star space]);
          chr "{"].

(** [/^\s*name\s*[:=]\s*['\x22]([^'\x22]+)['\x22]/] *)
Definition re_name : regex :=
  re_seq [Bol; star space; lit "name"; star space; one_of ":="; star space;
          one_of quotes; Grp 1 (plus (none_of quotes)); one_of quotes].

Definition vuePropertyPatterns : list (string * regex * propertyKind) :=
  [("name", re_name, property);
   ("data", re_factory "data", data_);
   ("methods", re_bag "methods", methods_);
   ("computed", re_bag "computed", computed);
   ("watch", re_bag "watch", watch);
   ("props", re_bag "props", props);
   ("components", re_bag "components", components);
   ("mounted", re_hook "mounted", lifecycle);
   ("created", re_hook "created", lifecycle);
   ("beforeMount", re_hook "beforeMount", lifecycle);
   ("beforeDestroy", re_hook "beforeDestroy", lifecycle);
   ("destroyed", re_hook "destroyed", lifecycle);
   ("beforeCreate", re_hook "beforeCreate", lifecycle);
   ("beforeUpdate", re_hook "beforeUpdate", lifecycle);
   ("updated", re_hook "updated", lifecycle);
   ("activated", re_hook "activated", lifecycle);
   ("deactivated", re_hook "deactivated", lifecycle);
   ("setup", re_factory "setup", setup)].

(** [['methods', 'computed', 'data', 'watch', 'props'].includes(type)] *)
Definition tracked (k : propertyKind) : bool :=
  match k with
  | methods_ | computed | data_ | watch | props => true
  | _ => false
  end.

(** [currentProperty] *)
Record openProperty : Type := mkOpenProperty {
  op_name : string;
  op_startLine : Z;
  op_braceCount : Z;
  op_type : propertyKind
}.

Record exportState : Type := mkExportState {
  properties : list CodeElement;
  e_braceCount : Z;
  e_inExportDefault : bool;
  currentProperty : option openProperty
}.

(** the first pattern of [vuePropertyPatterns] that the line passes *)
Definition matchingProperty (trimmedLine : string)
  : option (string * regex * propertyKind) :=
  List.find (fun prop => test (snd (fst prop)) trimmedLine) vuePropertyPatterns.

(** the sub-scan that belongs to a tracked property *)
Definition parseContent (k : propertyKind) (lines : list string)
    (startLine endLine startLineOffset : Z) : option (js (list CodeElement)) :=
  match k with
  | methods_ => Some (parseMethodsContent lines startLine endLine startLineOffset)
  | computed => Some (parseComputedContent lines startLine endLine startLineOffset)
  | data_ => Some (parseDataContent lines startLine endLine startLineOffset)
  | watch => Some (parseWatchContent lines startLine endLine startLineOffset)
  | props => Some (parsePropsContent lines startLine endLine startLineOffset)
  | _ => None
  end.

(** [properties.find(p => p.name === name)], as the place of the object *)
Fixpoint findByName (n : string) (els : list CodeElement) : option nat :=
  match els with
  | [] => None
  | e :: els' =>
      if String.eqb (name e) n then Some O
      else option_map S (findByName n els')
  end.

(** The block of the loop body under [if (currentProperty)]. *)
Definition closeProperty (lines : list string) (startLineOffset : Z) (i : Z)
    (braceCount : Z) (cp : openProperty) (lineBraceCount : Z)
    (st : exportState) : js exportState :=
  let cp := mkOpenProperty (op_name cp) (op_startLine cp)
              (op_braceCount cp + lineBraceCount) (op_type cp) in
  if op_braceCount cp <=? 0 then
    match findByName (op_name cp) (properties st),
          parseContent (op_type cp) lines (op_startLine cp) (i + 1)
            startLineOffset with
    | Some place, Some content =>
        cs ← content;
        mret (mkExportState
                (alter (fun e => set_children e cs) place (properties st))
                braceCount (e_inExportDefault st) None)
    | _, _ =>
        mret (mkExportState (properties st) braceCount (e_inExportDefault st)
                None)
    end
  else
    mret (mkExportState (properties st) braceCount (e_inExportDefault st)
            (Some cp)).

Definition exportLine (lines : list string) (startLineOffset : Z) (i : Z)
    (st : exportState) : js (exportState * bool) :=
  line ← defined (lookupZ lines i);
  let trimmedLine := trim line in
  if isBlankOrComment trimmedLine then mret (st, false)
  else if includes trimmedLine "export default" && includes trimmedLine "{" then
    mret (mkExportState (properties st) (netBraces trimmedLine) true
            (currentProperty st), false)
  else if negb (e_inExportDefault st) then mret (st, false)
  else
    let lineBraceCount := netBraces trimmedLine in
    let braceCount := e_braceCount st + lineBraceCount in
    match currentProperty st with
    | Some cp =>
        st' ← closeProperty lines startLineOffset i braceCount cp
                lineBraceCount st;
        mret (st', false)
    | None =>
        match matchingProperty trimmedLine with
        | Some (propName, _, kind) =>
            element ←
              createElement propName Property (i + 1 + startLineOffset) line
                lines None None (Some i);
            mret (mkExportState (properties st ++ [element]) braceCount
                    (e_inExportDefault st)
                    (if tracked kind
                     then Some (mkOpenProperty propName (i + 1)
                                  (netBraces trimmedLine) kind)
                     else None),
                  braceCount <=? 0)
        | None =>
            mret (mkExportState (properties st) braceCount
                    (e_inExportDefault st) None,
                  braceCount <=? 0)
        end
    end.

(** [for (let i = startLine - 1; i < lines.length; i++)] *)
Definition parseExportDefaultProperties (lines : list string) (startLine : Z)
    (startLineOffset : Z) : js (list CodeElement) :=
  st ← forLoop (exportLine lines startLineOffset)
         (for_up (startLine - 1) (lengthZ lines - 1))
         (mkExportState [] 0 false None);
  mret (properties st).

(** *** parse *)

Record state : Type := mkState {
  elements : list CodeElement;
  lineNum : Z;
  inExportDefault : bool;
  exportDefaultStartLine : Z;
  braceCount : Z
}.

Definition initial : state := mkState [] 0 false 0 0.

(** the object literal of the element for the export itself *)
Definition exportDefaultElement (line : Z) (children : list CodeElement)
  : CodeElement :=
  mkCodeElement "export default" Class Default line children
    None None None None None None.

Definition isComment (trimmedLine : string) : bool :=
  is_empty trimmedLine || startsWith trimmedLine "//"
  || startsWith trimmedLine "*" || startsWith trimmedLine "/**".

(** The three declaration patterns of the primary mode, in order. *)
Definition parseDeclaration (trimmedLine : string) (lineNum : Z)
    (lines : list string) : js (option CodeElement) :=
  classElement ← parseClass trimmedLine lineNum lines;
  match classElement with
  | Some e => mret (Some e)
  | None =>
      functionElement ← parseFunction trimmedLine lineNum lines;
      match functionElement with
      | Some e => mret (Some e)
      | None => parseInterface trimmedLine lineNum lines
      end
  end.

(** One turn of [for (const line of lines)]. *)
Definition scanLine (lines : list string) (startLineOffset : Z) (st : state)
    (line : string) : js state :=
  let lineNum := lineNum st + 1 in
  let trimmedLine := trim line in
  if isComment trimmedLine then
    mret (mkState (elements st) lineNum (inExportDefault st)
            (exportDefaultStartLine st) (braceCount st))
  else if includes trimmedLine "export default" && includes trimmedLine "{" then
    let exportDefaultStartLine := lineNum + startLineOffset in
    let braceCount := netBraces trimmedLine in
    properties ←
      (if 0 <? braceCount
       then parseExportDefaultProperties lines lineNum startLineOffset
       else mret []);
    mret (mkState
            (elements st ++ [exportDefaultElement exportDefaultStartLine properties])
            lineNum true exportDefaultStartLine braceCount)
  else if inExportDefault st then
    let braceCount := braceCount st + netBraces trimmedLine in
    mret (mkState (elements st) lineNum
            (if braceCount <=? 0 then false else inExportDefault st)
            (exportDefaultStartLine st) braceCount)
  else
    declaration ← parseDeclaration trimmedLine lineNum lines;
    match declaration with
    | Some e =>
        mret (mkState (elements st ++ [e]) lineNum (inExportDefault st)
                (exportDefaultStartLine st) (braceCount st))
    | None =>
        mret (mkState (elements st) lineNum (inExportDefault st)
                (exportDefaultStartLine st) (braceCount st))
    end.

Fixpoint scan (lines : list string) (startLineOffset : Z)
    (todo : list string) (st : state) : js state :=
  match todo with
  | [] => mret st
  | line :: todo' =>
      st' ← scanLine lines startLineOffset st line;
      scan lines startLineOffset todo' st'
  end.

(** [parse(document, lines, startLineOffset = 0)] *)
Definition parse (lines : list string) (startLineOffset : Z)
  : js (list CodeElement) :=
  st ← scan lines startLineOffset lines initial;
  mret (elements st).

End JavaScriptParser.

(** ** Paths: references to elements at any depth of the forest *)

Fixpoint derefPath (p : list nat) (elements : list CodeElement)
  : option CodeElement :=
  match p with
  | [] => None
  | [i] => elements !! i
  | i :: p' => e ← elements !! i; derefPath p' (children e)
  end.

Fixpoint updatePath (p : list nat) (f : CodeElement -> CodeElement)
    (elements : list CodeElement) : list CodeElement :=
  match p with
  | [] => elements
  | [i] => alter f i elements
  | i :: p' =>
      alter (fun e => set_children e (updatePath p' f (children e))) i elements
  end.

(** ** parsers/VueParser.ts *)

Module VueParser.
Import CodeElementType AccessModifier.

(** [/^<template\s/] and [/^<style\s/] *)
Definition re_tag_space (tag : string) : regex :=
  re_seq [Bol; chr "<"; lit tag; space].

(** the object literals of [parse] *)
Definition regionElement (name : string) (line : Z) : CodeElement :=
  mkCodeElement name Module Default line [] None None None None None None.

Record state : Type := mkState {
  elements : list CodeElement;
  lineNum : Z;
  inScriptTag : bool;
  scriptContent : list string;
  scriptElement : option nat;     (* the place of the object in [elements] *)
  styleStartLine : Z;
  inTemplate : bool;
  inStyle : bool
}.

Definition initial : state := mkState [] 0 false [] None 0 false false.

(** [parseScriptContent(lines, document, startLineOffset = 0)] *)
Definition parseScriptContent (lines : list string) (startLineOffset : Z)
  : js (list CodeElement) :=
  JavaScriptParser.parse lines startLineOffset.

(** The block under [if (inScriptTag && trimmedLine.includes('</script>'))]:
    the new value of [elements]. *)
Definition closeScript (st : state) : js (list CodeElement) :=
  match scriptElement st with
  | Some place =>
      if Nat.ltb 0 (length (scriptContent st)) then
        script ← defined (elements st !! place);
        let scriptStartLine := line script in
        scriptElements ← parseScriptContent (scriptContent st) (scriptStartLine + 1);
        if Nat.ltb 0 (length scriptElements)
        then mret (alter (fun e => set_children e scriptElements) place
                     (elements st))
        else mret (elements st)
      else mret (elements st)
  | None => mret (elements st)
  end.

Definition isTag (tag : string) (trimmedLine : string) : bool :=
  startsWith trimmedLine ("<" ++ tag) || test (re_tag_space tag) trimmedLine.

(** One turn of [for (const line of lines)]. *)
Definition scanLine (st : state) (line : string) : js state :=
  let lineNum := lineNum st + 1 in
  let trimmedLine := trim line in
  if isTag "template" trimmedLine then
    mret (mkState (elements st) lineNum (inScriptTag st) (scriptContent st)
            (scriptElement st) (styleStartLine st) true (inStyle st))
  else if inTemplate st && includes trimmedLine "</template>" then
    mret (mkState (elements st) lineNum (inScriptTag st) (scriptContent st)
            (scriptElement st) (styleStartLine st) false (inStyle st))
  else if inTemplate st then
    mret (mkState (elements st) lineNum (inScriptTag st) (scriptContent st)
            (scriptElement st) (styleStartLine st) (inTemplate st) (inStyle st))
  else if includes trimmedLine "<script" then
    mret (mkState (elements st ++ [regionElement "script" lineNum]) lineNum true
            (scriptContent st) (Some (length (elements st))) (styleStartLine st)
            (inTemplate st) (inStyle st))
  else if inScriptTag st && includes trimmedLine "</script>" then
    elements' ← closeScript st;
    mret (mkState elements' lineNum false [] None (styleStartLine st)
            (inTemplate st) (inStyle st))
  else
    let scriptContent :=
      if inScriptTag st then (scriptContent st ++ [line])%list
      else scriptContent st in
    if isTag "style" trimmedLine then
      let isScoped := includes trimmedLine "scoped" in
      mret (mkState
              (elements st
               ++ [regionElement (if isScoped then "style scoped" else "style")
                     lineNum])
              lineNum (inScriptTag st) scriptContent (scriptElement st) lineNum
              (inTemplate st) true)
    else if inStyle st && includes trimmedLine "</style>" then
      mret (mkState (elements st) lineNum (inScriptTag st) scriptContent
              (scriptElement st) (styleStartLine st) (inTemplate st) false)
    else
      mret (mkState (elements st) lineNum (inScriptTag st) scriptContent
              (scriptElement st) (styleStartLine st) (inTemplate st) (inStyle st)).

Fixpoint scan (todo : list string) (st : state) : js state :=
  match todo with
  | [] => mret st
  | line :: todo' =>
      st' ← scanLine st line;
      scan todo' st'
  end.

Definition parse (lines : list string) : js (list CodeElement) :=
  st ← scan lines initial;
  if Nat.eqb (length (elements st)) 0 && Nat.ltb 0 (length (scriptContent st))
  then parseScriptContent (scriptContent st) 0
  else mret (elements st).

(** *** parseTemplateContent: the tag stack *)

(** [/<([a-zA-Z][\w-]{0,})[^>]*>/] *)
Definition re_start_tag : regex :=
  re_seq [chr "<";
          Grp 1 (Seq (cls [is_lower; is_upper]) (star (cls [is_word; any_of "-"])));
          star (none_of ">"); chr ">"].

(** [/\/\s*>$/] *)
Definition re_self_closing_end : regex :=
  re_seq [chr "/"; star space; chr ">"; Eol].

(** [/<[^>]+\/>/] *)
Definition re_self_closing : regex :=
  re_seq [chr "<"; plus (none_of ">"); lit "/>"].

(** [/id\s*=\s*[\x22']([^\x22']+)[\x22']/] and the same for [class] *)
Definition re_attribute (attribute : string) : regex :=
  re_seq [lit attribute; star space; chr "="; star space; one_of quotes;
          Grp 1 (plus (none_of quotes)); one_of quotes].

(** [/<\/(\w+)>/] *)
Definition re_end_tag : regex :=
  re_seq [lit "</"; Grp 1 (plus word); chr ">"].

(** a member of [stack]; [element] is the path of the object *)
Record frame : Type := mkFrame {
  f_element : list nat;
  f_startLine : Z;
  f_braceCount : Z
}.

Record templateState : Type := mkTemplateState {
  t_elements : list CodeElement;
  stack : list frame
}.

(** The element goes to the children of the top of the stack, or to the
    result when the stack is empty; the result is the new forest and the
    path of the element in it. *)
Definition attach (element : CodeElement) (st : templateState)
  : js (list CodeElement * list nat) :=
  match last (stack st) with
  | None =>
      mret ((t_elements st ++ [element])%list, [length (t_elements st)])
  | Some parent =>
      p ← defined (derefPath (f_element parent) (t_elements st));
      mret (updatePath (f_element parent) (push_child element) (t_elements st),
            (f_element parent ++ [length (children p)])%list)
  end.

(** The loop over the stack from its top, on the reversed stack: the
    nearest frame whose tag is [tag] is decremented, and removed at 0. *)
Fixpoint closeNearest (elements : list CodeElement) (tag : string)
    (reversed : list frame) : js (list frame) :=
  match reversed with
  | [] => mret []
  | stackItem :: below =>
      e ← defined (derefPath (f_element stackItem) elements);
      if bool_decide (tagName e = Some tag) then
        let count := f_braceCount stackItem - 1 in
        if count <=? 0 then mret below
        else mret (mkFrame (f_element stackItem) (f_startLine stackItem) count
                     :: below)
      else
        below' ← closeNearest elements tag below;
        mret (stackItem :: below')
  end.

Definition templateLine (lines : list string) (startLine : Z) (i : Z)
    (st : templateState) : js (templateState * bool) :=
  let currentLine := startLine + i in
  line ← defined (lookupZ lines i);
  let trimmedLine := trim line in
  if is_empty trimmedLine || startsWith trimmedLine "<!--" then mret (st, false)
  else
    match exec re_start_tag trimmedLine with
    | Some startTagMatch =>
        tag ← group startTagMatch 1;
        if bool_decide (toLowerCase tag ∈ ["script"; "style"; "template"])
        then mret (st, false)
        else
          let isSelfClosing :=
            test re_self_closing_end trimmedLine
            || test re_self_closing trimmedLine in
          let idMatch := exec (re_attribute "id") trimmedLine in
          let classMatch := exec (re_attribute "class") trimmedLine in
          n ← match idMatch, classMatch with
              | Some m, _ => group m 1
              | None, Some m => group m 1
              | None, None => mret tag
              end;
          let element :=
            mkCodeElement n Module Default currentLine [] None None None None
              None (Some tag) in
          attached ← attach element st;
          if negb isSelfClosing
             && negb (includes trimmedLine ("</" ++ tag ++ ">"))
          then mret (mkTemplateState (fst attached)
                       (stack st ++ [mkFrame (snd attached) currentLine 1])%list,
                     false)
          else mret (mkTemplateState (fst attached) (stack st), false)
    | None =>
        match exec re_end_tag trimmedLine with
        | Some endTagMatch =>
            if Nat.ltb 0 (length (stack st)) then
              tag ← group endTagMatch 1;
              reversed ← closeNearest (t_elements st) tag (rev (stack st));
              mret (mkTemplateState (t_elements st) (rev reversed), false)
            else mret (st, false)
        | None => mret (st, false)
        end
    end.

(** [for (let i = 0; i < lines.length; i++)] *)
Definition parseTemplateContent (lines : list string) (startLine : Z)
  : js (list CodeElement) :=
  st ← JavaScriptParser.forLoop (templateLine lines startLine)
         (for_up 0 (lengthZ lines - 1)) (mkTemplateState [] []);
  mret (t_elements st).

End VueParser.

(** ** parsers/HtmlParser.ts *)

Module HtmlParser.
Import CodeElementType BaseParser.

(** [/<script[^>]*>/] *)
Definition re_script : regex :=
  re_seq [lit "<script"; star (none_of ">"); chr ">"].

(** [/id\s*=\s*[\x22'](\w+)[\x22']/] *)
Definition re_id : regex :=
  re_seq [lit "id"; star space; chr "="; star space; one_of quotes;
          Grp 1 (plus word); one_of quotes].

(** [/src\s*=\s*[\x22']([^\x22']+)[\x22']/] *)
Definition re_src : regex := VueParser.re_attribute "src".

(** [/<(div|section|article|main|header|footer|nav|aside)[^>]*(?:id\s*=\s*[\x22'](\w+)[\x22']|class\s*=\s*[\x22']([\w\s-]+)[\x22'])?/] *)
Definition re_main : regex :=
  re_seq [chr "<";
          Grp 1 (words ["div"; "section"; "article"; "main"; "header"; "footer";
                        "nav"; "aside"]);
          star (none_of ">");
          opt (Alt
                 (re_seq [lit "id"; star space; chr "="; star space;
                          one_of quotes; Grp 2 (plus word); one_of quotes])
                 (re_seq [lit "class"; star space; chr "="; star space;
                          one_of quotes;
                          Grp 3 (plus (cls [is_word; is_space; any_of "-"]));
                          one_of quotes]))].

Definition parseScriptTag (line : string) (lineNum : Z) (lines : list string)
  : js (option CodeElement) :=
  match exec re_script line with
  | Some _ =>
      n ← match exec re_id line, exec re_src line with
          | Some m, _ => group m 1
          | None, Some m => group m 1
          | None, None => mret "script"
          end;
      e ← createElement n Module lineNum line lines None None None;
      mret (Some e)
  | None => mret None
  end.

(** [a || b] on optional strings *)
Definition orElse (a : option string) (b : option string) : option string :=
  if truthy_opt a then a else b.

Definition parseMainElement (line : string) (lineNum : Z) (lines : list string)
  : js (option CodeElement) :=
  match exec re_main line with
  | Some elementMatch =>
      n ← defined (orElse (groups elementMatch 2%nat)
                     (orElse (groups elementMatch 3%nat)
                        (groups elementMatch 1%nat)));
      e ← createElement n Module lineNum line lines None None None;
      mret (Some e)
  | None => mret None
  end.

Definition scanLine (lines : list string) (st : list CodeElement * Z)
    (line : string) : js (list CodeElement * Z) :=
  let elements := fst st in
  let lineNum := snd st + 1 in
  let trimmedLine := trim line in
  if is_empty trimmedLine || startsWith trimmedLine "<!--"
     || startsWith trimmedLine "//"
  then mret (elements, lineNum)
  else
    scriptElement ← parseScriptTag trimmedLine lineNum lines;
    match scriptElement with
    | Some e => mret ((elements ++ [e])%list, lineNum)
    | None =>
        mainElement ← parseMainElement trimmedLine lineNum lines;
        match mainElement with
        | Some e => mret ((elements ++ [e])%list, lineNum)
        | None => mret (elements, lineNum)
        end
    end.

Fixpoint scan (lines : list string) (todo : list string)
    (st : list CodeElement * Z) : js (list CodeElement * Z) :=
  match todo with
  | [] => mret st
  | line :: todo' =>
      st' ← scanLine lines st line;
      scan lines todo' st'
  end.

Definition parse (lines : list string) : js (list CodeElement) :=
  st ← scan lines lines ([], 0);
  mret (fst st).

End HtmlParser.

(** ** parsers/ParserFactory.ts *)

Module ParserFactory.

(** The classes that implement [IParser]: the five of the repository and
    the classes that a caller registers (the README's [PythonParser]). *)
Inductive ParserClass : Set :=
| CSharp | Java | JavaScript | Vue | Html
| Custom (className : string).

(** [new ParserClass()]: the instance knows its class. *)
Inductive IParser : Set :=
| New (constructedBy : ParserClass).

(** [private static parsers: Map<string, new () => IParser>], at class
    initialisation. *)
Definition parsers : gmap string ParserClass :=
  <[".htm" := Html]> (<[".html" := Html]> (<[".vue" := Vue]>
  (<[".ts" := JavaScript]> (<[".js" := JavaScript]> (<[".java" := Java]>
  (<[".cs" := CSharp]> ∅)))))).

(** [filePath.substring(filePath.lastIndexOf('.'))] *)
Definition rawExtension (filePath : string) : string :=
  substring_from filePath (lastIndexOf filePath ".").

(** [filePath.substring(filePath.lastIndexOf('.')).toLowerCase()] *)
Definition extension (filePath : string) : string :=
  toLowerCase (rawExtension filePath).

(** [createParser(filePath)], on the current value of the static map;
    [None] is [null]. *)
Definition createParser (registry : gmap string ParserClass)
    (filePath : string) : option IParser :=
  match registry !! extension filePath with
  | Some ParserClass => Some (New ParserClass)
  | None => None
  end.

(** [registerParser(extension, ParserClass)]: the new value of the map *)
Definition registerParser (ext : string) (c : ParserClass)
    (registry : gmap string ParserClass) : gmap string ParserClass :=
  <[toLowerCase ext := c]> registry.

(** [isSupported(filePath)] *)
Definition isSupported (registry : gmap string ParserClass)
    (filePath : string) : bool :=
  bool_decide (is_Some (registry !! extension filePath)).

End ParserFactory.

(** ** parsers/JavaParser.ts *)

Module JavaParser.
Import CodeElementType BaseParser.

(** [(?:public|private|protected)] *)
Definition modifier : regex := words ["public"; "private"; "protected"].

(** [/(?:public|private|protected)?\s*(?:abstract|final)?\s*class\s+(\w+)/] *)
Definition re_class : regex :=
  re_seq [opt modifier; star space; opt (words ["abstract"; "final"]);
          star space; lit "class"; plus space; Grp 1 (plus word)].

(** [/(?:public|private|protected)?\s*interface\s+(\w+)/] *)
Definition re_interface : regex :=
  re_seq [opt modifier; star space; lit "interface"; plus space;
          Grp 1 (plus word)].

(** [/package\s+([\w.]+)/] *)
Definition re_package : regex :=
  re_seq [lit "package"; plus space; Grp 1 (plus (cls [is_word; any_of "."]))].

(** [/(?:public|private|protected)?\s*enum\s+(\w+)/] *)
Definition re_enum : regex :=
  re_seq [opt modifier; star space; lit "enum"; plus space; Grp 1 (plus word)].

(** The four private functions are one text up to the pattern and the
    kind of the element. *)
Definition parseSimple (r : regex) (type : CodeElementType.t) (line : string)
    (lineNum : Z) (lines : list string) : js (option CodeElement) :=
  match exec r line with
  | Some m =>
      n ← group m 1;
      e ← createElement n type lineNum line lines None None None;
      mret (Some e)
  | None => mret None
  end.

Definition parseClass := parseSimple re_class Class.
Definition parseInterface := parseSimple re_interface Interface.
Definition parsePackage := parseSimple re_package Namespace.
Definition parseEnum := parseSimple re_enum Enum.

Definition isComment (trimmedLine : string) : bool :=
  is_empty trimmedLine || startsWith trimmedLine "//"
  || startsWith trimmedLine "*" || startsWith trimmedLine "/**".

(** The four patterns, in the order of the loop body; the first that
    matches gives the element of the line. *)
Definition parseDeclaration (trimmedLine : string) (lineNum : Z)
    (lines : list string) : js (option CodeElement) :=
  classElement ← parseClass trimmedLine lineNum lines;
  match classElement with
  | Some e => mret (Some e)
  | None =>
      interfaceElement ← parseInterface trimmedLine lineNum lines;
      match interfaceElement with
      | Some e => mret (Some e)
      | None =>
          packageElement ← parsePackage trimmedLine lineNum lines;
          match packageElement with
          | Some e => mret (Some e)
          | None => parseEnum trimmedLine lineNum lines
          end
      end
  end.

(** One turn of [for (const line of lines)], on [elements] and
    [lineNum]. *)
Definition scanLine (lines : list string) (st : list CodeElement * Z)
    (line : string) : js (list CodeElement * Z) :=
  let elements := fst st in
  let lineNum := snd st + 1 in
  let trimmedLine := trim line in
  if isComment trimmedLine then mret (elements, lineNum)
  else
    declaration ← parseDeclaration trimmedLine lineNum lines;
    match declaration with
    | Some e => mret ((elements ++ [e])%list, lineNum)
    | None => mret (elements, lineNum)
    end.

Fixpoint scan (lines : list string) (todo : list string)
    (st : list CodeElement * Z) : js (list CodeElement * Z) :=
  match todo with
  | [] => mret st
  | line :: todo' =>
      st' ← scanLine lines st line;
      scan lines todo' st'
  end.

Definition parse (lines : list string) : js (list CodeElement) :=
  st ← scan lines lines ([], 0);
  mret (fst st).

End JavaParser.

(** ** More of JavaScript's strings and arrays *)

(** [s[n]]: the character at [n], [None] ([undefined]) past the end *)
Definition charAt (s : string) (n : nat) : option ascii :=
  match str_drop n s with
  | String a _ => Some a
  | EmptyString => None
  end.

(** [xs.map(f)] for an [f] that may throw: the elements in order, up to
    the first that throws. *)
Definition mapJs {A B : Type} (f : A -> js B) : list A -> js (list B) :=
  fix each (xs : list A) : js (list B) :=
    match xs with
    | [] => mret []
    | x :: rest =>
        y ← f x;
        ys ← each rest;
        mret (y :: ys)
    end.

(** [s.replace(r, f)] for a [g] pattern and a replacement computed from
    the matched text, as [replaceAll] is for a constant replacement. *)
Fixpoint replaceAllWith_from (fuel : nat) (r : regex) (f : string -> string)
    (pos : nat) (s : string) : string :=
  match fuel with
  | O => s
  | S fuel' =>
      match search_from r pos s with
      | None => s
      | Some m =>
          let before := (index m - pos)%nat in
          match String.length (matched m) with
          | O =>
              str_take before s ++ f (matched m) ++
              match str_drop before s with
              | EmptyString => EmptyString
              | String a rest =>
                  String a (replaceAllWith_from fuel' r f (pos + S before) rest)
              end
          | S _ as len =>
              str_take before s ++ f (matched m) ++
              replaceAllWith_from fuel' r f (pos + before + len)
                (str_drop (before + len) s)
          end
      end
  end.

Definition replaceAllWith (r : regex) (f : string -> string) (s : string)
  : string :=
  replaceAllWith_from (S (String.length s)) r f 0 s.

(** ** fileStructureParser.ts: the symbols of the language server *)

(** [vscode.SymbolKind]; [Variable_] is [Variable]. *)
Module SymbolKind.
Inductive t : Set :=
| File | Module | Namespace | Package | Class | Method | Property | Field
| Constructor | Enum | Interface | Function | Variable_ | Constant | String
| Number | Boolean | Array | Object | Key | Null | EnumMember | Struct | Event
| Operator | TypeParameter.
End SymbolKind.

(** [vscode.DocumentSymbol], as far as the code reads it: [startLine] is
    [range.start.line], which counts from 0. *)
Module DocumentSymbol.
#[warnings="-register-all"]
Inductive t : Type := make {
  name : string;
  kind : SymbolKind.t;
  startLine : nat;
  children : list t
}.
End DocumentSymbol.

Module FileStructureParser.
Import CodeElementType.

(** the strings of [enum AccessModifier] *)
Definition text (a : AccessModifier.t) : string :=
  match a with
  | AccessModifier.Public => "public"
  | AccessModifier.Private => "private"
  | AccessModifier.Protected => "protected"
  | AccessModifier.Internal => "internal"
  | AccessModifier.Default => EmptyString
  end.

(** [const accessModifiers] of [extractDetails] *)
Definition accessModifiers : list AccessModifier.t :=
  [AccessModifier.Public; AccessModifier.Private; AccessModifier.Protected;
   AccessModifier.Internal].

(** The loop of [extractDetails] over [accessModifiers]. *)
Definition accessModifierOf (lineText : string) : AccessModifier.t :=
  match List.find (fun m => includes lineText (text m)) accessModifiers with
  | Some m => m
  | None => AccessModifier.Default
  end.

(** The loop of [extractComment] over the five lines above; the inner
    loop over a block comment is, word for word, that of
    [BaseParser.extractComment]. *)
Fixpoint commentLoop (lines : list string) (lineIndex : Z) (todo : list Z)
  : js (option string) :=
  match todo with
  | [] => mret None
  | i :: todo' =>
      l ← defined (lookupZ lines i);
      let line := trim l in
      if startsWith line "//" then
        mret (Some (trim (substring_from line 2)))
      else if includes line "/*" then
        comment ← BaseParser.blockCommentLoop lines i
                    (for_up i (Z.min lineIndex (lengthZ lines - 1))) EmptyString;
        mret (BaseParser.orUndefined (trim comment))
      else if startsWith line "///" then
        mret (Some (trim (substring_from line 3)))
      else if truthy line && negb (startsWith line "//")
              && negb (startsWith line "*") && negb (startsWith line "///")
      then mret None
      else commentLoop lines lineIndex todo'
  end.

(** [for (let i = lineIndex - 1; i >= Math.max(0, lineIndex - 5); i--)] *)
Definition extractComment (lines : list string) (lineIndex : Z)
  : js (option string) :=
  commentLoop lines lineIndex (for_down (lineIndex - 1) (Z.max 0 (lineIndex - 5))).

(** [/(?:public|private|protected|internal)?\s*(\w+)\s+(\w+)\s*\(([^)]{0,})\)/] *)
Definition re_method : regex :=
  re_seq [opt CSharpParser.modifier; star space; Grp 1 (plus word); plus space;
          Grp 2 (plus word); star space; chr "(";
          Grp 3 (star (none_of ")")); chr ")"].

(** [/(?:function|const|let|var)?\s*(\w+)\s*\(([^)]{0,})\)(?::\s*(\w+))?/] *)
Definition re_function : regex :=
  re_seq [opt (words ["function"; "const"; "let"; "var"]); star space;
          Grp 1 (plus word); star space; chr "(";
          Grp 2 (star (none_of ")")); chr ")";
          opt (re_seq [chr ":"; star space; Grp 3 (plus word)])].

(** [extractMethodInfo]: the return type and the parameters *)
Definition extractMethodInfo (lineText : string) (fileExt : string)
  : option string * option string :=
  if String.eqb fileExt ".cs" || String.eqb fileExt ".java" then
    match exec re_method lineText with
    | Some methodMatch =>
        (groups methodMatch 1%nat, Some (groupOrEmpty methodMatch 3))
    | None => (None, None)
    end
  else if String.eqb fileExt ".js" || String.eqb fileExt ".ts" then
    match exec re_function lineText with
    | Some funcMatch => (groups funcMatch 3%nat, Some (groupOrEmpty funcMatch 2))
    | None => (None, None)
    end
  else (None, None).

Definition symbolKindToElementType (kind : SymbolKind.t) : CodeElementType.t :=
  match kind with
  | SymbolKind.Class => Class
  | SymbolKind.Interface => Interface
  | SymbolKind.Method => Method
  | SymbolKind.Function => Function
  | SymbolKind.Property => Property
  | SymbolKind.Variable_ => Variable_
  | SymbolKind.Field => Field
  | SymbolKind.Namespace => Namespace
  | SymbolKind.Enum => Enum
  | SymbolKind.Constructor => Constructor
  | SymbolKind.Module => Module
  | _ => Class
  end.

(** [symbolToCodeElement] with [extractDetails] in its place *)
Definition symbolToCodeElement (symbol : DocumentSymbol.t) (lines : list string)
    (fileExt : string) : js CodeElement :=
  let lineIndex := Z.of_nat (DocumentSymbol.startLine symbol) in
  let lineText := default EmptyString (lookupZ lines lineIndex) in
  let accessModifier := accessModifierOf lineText in
  comment ← extractComment lines lineIndex;
  let methodInfo :=
    match DocumentSymbol.kind symbol with
    | SymbolKind.Method | SymbolKind.Function =>
        extractMethodInfo lineText fileExt
    | _ => (None, None)
    end in
  mret (mkCodeElement (DocumentSymbol.name symbol)
          (symbolKindToElementType (DocumentSymbol.kind symbol))
          accessModifier (lineIndex + 1) [] comment (fst methodInfo)
          (snd methodInfo) None None None).

(** [type === Method || type === Function || type === Constructor] *)
Definition callable (t : CodeElementType.t) : bool :=
  match t with
  | Method | Function | Constructor => true
  | _ => false
  end.

(** The function that [symbolsToCodeElements] maps over the symbols. *)
Fixpoint symbolToElement (lines : list string) (fileExt : string)
    (symbol : DocumentSymbol.t) {struct symbol} : js CodeElement :=
  element ← symbolToCodeElement symbol lines fileExt;
  match symbol with
  | DocumentSymbol.make _ _ _ [] => mret element
  | DocumentSymbol.make _ _ _ ((_ :: _) as children) =>
      if callable (type element) then mret (set_children element [])
      else
        elements ← mapJs (symbolToElement lines fileExt) children;
        mret (set_children element elements)
  end.

Definition symbolsToCodeElements (symbols : list DocumentSymbol.t)
    (lines : list string) (fileExt : string) : js (list CodeElement) :=
  mapJs (symbolToElement lines fileExt) symbols.

(** [parser.parse(document, lines)], by the class of the instance;
    [custom] stands for the [parse] methods of the classes that were
    registered from outside. *)
Definition parseWith (custom : string -> list string -> js (list CodeElement))
    (parser : ParserFactory.IParser) (lines : list string)
  : js (list CodeElement) :=
  match parser with
  | ParserFactory.New ParserFactory.CSharp => CSharpParser.parse lines
  | ParserFactory.New ParserFactory.Java => JavaParser.parse lines
  | ParserFactory.New ParserFactory.JavaScript => JavaScriptParser.parse lines 0
  | ParserFactory.New ParserFactory.Vue => VueParser.parse lines
  | ParserFactory.New ParserFactory.Html => HtmlParser.parse lines
  | ParserFactory.New (ParserFactory.Custom className) => custom className lines
  end.

(** [parseWithCustomParser]: [try { ... } catch { return []; }] around the
    call, and [[]] without a parser. *)
Definition parseWithCustomParser
    (registry : gmap string ParserFactory.ParserClass)
    (custom : string -> list string -> js (list CodeElement))
    (lines : list string) (filePath : string) : list CodeElement :=
  match ParserFactory.createParser registry filePath with
  | Some parser =>
      match parseWith custom parser lines with
      | Returns elements => elements
      | Throws _ => []
      end
  | None => []
  end.

End FileStructureParser.

(** ** tagRuleConfig.ts *)

(** A value that [JSON.parse] returns.  The value of a number is never
    read; an object is the list of its properties, each key once. *)
#[warnings="-register-all"]
Inductive json : Type :=
| JNull
| JBoolean (b : bool)
| JNumber
| JString (s : string)
| JArray (items : list json)
| JObject (properties : list (string * json)).

Module TagRuleConfig.

(** [interface TagRule] *)
Record TagRule : Type := mkTagRule {
  tag : string;
  color : string;
  strikethrough : bool;
  underline : bool;
  bold : bool;
  italic : bool
}.

(** [typeof v === 'object'] *)
Definition isObject (v : json) : bool :=
  match v with
  | JNull | JArray _ | JObject _ => true
  | _ => false
  end.

(** [o[key]] for an object that was parsed from JSON *)
Fixpoint property (key : string) (properties : list (string * json))
  : option json :=
  match properties with
  | [] => None
  | (k, v) :: rest => if String.eqb k key then Some v else property key rest
  end.

(** [rule.key], for one of the six keys of a rule: a [TypeError] on
    [null], [undefined] on an array. *)
Definition get (rule : json) (key : string) : js (option json) :=
  match rule with
  | JNull => TypeError
  | JObject properties => mret (property key properties)
  | _ => mret None
  end.

(** [typeof v === 'string'] and [typeof v === 'boolean'] on the value of
    a property *)
Definition asString (v : option json) : option string :=
  match v with Some (JString s) => Some s | _ => None end.

Definition asBoolean (v : option json) : option bool :=
  match v with Some (JBoolean b) => Some b | _ => None end.

Definition hex : regex :=
  Chr (fun a => is_digit a
                || (Nat.leb 65 (code a) && Nat.leb (code a) 70)
                || (Nat.leb 97 (code a) && Nat.leb (code a) 102)).

(** [/^#[0-9A-Fa-f]{6}$/] *)
Definition re_color : regex :=
  re_seq [Bol; chr "#"; hex; hex; hex; hex; hex; hex; Eol].

(** [validateRule(rule)]: the conjunction, from left to right; with the
    result [true] comes the rule that the object is. *)
Definition validateRule (rule : json) : js (option TagRule) :=
  if negb (isObject rule) then mret None
  else
    tag ← get rule "tag";
    match asString tag with
    | None => mret None
    | Some tag =>
        color ← get rule "color";
        match asString color with
        | None => mret None
        | Some color =>
            if negb (test re_color color) then mret None
            else
              strikethrough ← get rule "strikethrough";
              match asBoolean strikethrough with
              | None => mret None
              | Some strikethrough =>
                  underline ← get rule "underline";
                  match asBoolean underline with
                  | None => mret None
                  | Some underline =>
                      bold ← get rule "bold";
                      match asBoolean bold with
                      | None => mret None
                      | Some bold =>
                          italic ← get rule "italic";
                          match asBoolean italic with
                          | None => mret None
                          | Some italic =>
                              mret (Some (mkTagRule tag color strikethrough
                                            underline bold italic))
                          end
                      end
                  end
              end
        end
    end.

(** [for (const rule of rules)] of [loadConfig] *)
Fixpoint validRules (rules : list json) : js (list TagRule) :=
  match rules with
  | [] => mret []
  | rule :: rest =>
      valid ← validateRule rule;
      validRules ← validRules rest;
      mret (match valid with
            | Some r => r :: validRules
            | None => validRules
            end)
  end.

(** What [loadConfig] assigns to [tagRules] once the file was read and
    parsed: the [try] block up to the assignment, and the [catch]. *)
Definition loadRules (parsed : json) : list TagRule :=
  let loaded :=
    match parsed with
    | JArray rules => validRules rules
    | _ => Throws "配置文件格式错误：根元素必须是数组"
    end in
  match loaded with
  | Returns validRules => validRules
  | Throws _ => []
  end.

(** The four loops at the head of [matchTagRule], which
    [formatCodeElementLabel] has as well. *)
Definition stripMarkers (comment : string) : string :=
  let cleaned := trim comment in
  let cleaned := BaseParser.strip_leading " " cleaned in
  let cleaned := BaseParser.strip_leading "/" cleaned in
  let cleaned := BaseParser.strip_leading "*" cleaned in
  BaseParser.strip_leading " " cleaned.

(** The test of one rule against the cleaned, lower-cased comment. *)
Definition matches (cleanedComment : string) (rule : TagRule) : bool :=
  let tag := toLowerCase (tag rule) in
  startsWith cleanedComment tag
  && match charAt cleanedComment (String.length tag) with
     | None => true
     | Some nextChar =>
         Ascii.eqb nextChar " " || Ascii.eqb nextChar ":"
         || Ascii.eqb nextChar "009"
     end.

(** [matchTagRule(comment)], on the current value of [tagRules] *)
Definition matchTagRule (tagRules : list TagRule) (comment : option string)
  : option TagRule :=
  match comment with
  | None => None
  | Some comment =>
      if is_empty comment then None
      else List.find (matches (toLowerCase (stripMarkers comment))) tagRules
  end.

End TagRuleConfig.

(** ** codeStructViewProvider.ts: labels, tooltips and the panel *)

Module CodeStructViewProvider.
Import CodeElementType.

(** [const map] of [escapeHtml] *)
Definition entities : list (string * string) :=
  [("&", "&amp;"); ("<", "&lt;"); (">", "&gt;"); (DQ, "&quot;");
   ("'", "&#039;")].

(** [m => map[m]], as a string *)
Definition entity (m : string) : string :=
  match List.find (fun kv => String.eqb (fst kv) m) entities with
  | Some kv => snd kv
  | None => "undefined"
  end.

(** [/[&<>\x22']/g] *)
Definition re_special : regex := one_of ("&<>" ++ quotes).

Definition escapeHtml (text : string) : string :=
  replaceAllWith re_special entity text.

(** [element.type === Method || ... Function || ... Constructor] *)
Definition isCallable (e : CodeElement) : bool :=
  FileStructureParser.callable (type e).

(** [static formatCodeElementLabel(element)]; the two branches for the
    elements that are no callables have the same text. *)
Definition formatCodeElementLabel (element : CodeElement) : string :=
  let label := name element in
  let label :=
    match accessModifier element with
    | AccessModifier.Default => label
    | a => FileStructureParser.text a ++ " " ++ label
    end in
  if isCallable element then
    let label :=
      if BaseParser.truthy_opt (returnType element)
      then label ++ ": " ++ default EmptyString (returnType element)
      else label in
    match parameters element with
    | Some parameters => label ++ "(" ++ parameters ++ ")"
    | None => label
    end
  else
    if BaseParser.truthy_opt (comment element) then
      let comment :=
        TagRuleConfig.stripMarkers (default EmptyString (comment element)) in
      if truthy comment then label ++ " " ++ comment else label
    else label.

(** the lines that [forEach] adds for the documented parameters *)
Definition parameterLines (params : list (string * string)) : string :=
  fold_left (fun tooltip param =>
               tooltip ++ LF ++ "  " ++ fst param ++ ": " ++ snd param)
    params EmptyString.

(** [buildTooltip()] of the item of the element [codeElement] *)
Definition buildTooltip (codeElement : CodeElement) : string :=
  let tooltip := name codeElement in
  let tooltip :=
    match accessModifier codeElement with
    | AccessModifier.Default => tooltip
    | a => FileStructureParser.text a ++ " " ++ tooltip
    end in
  let tooltip :=
    if BaseParser.truthy_opt (returnType codeElement)
    then tooltip ++ ": " ++ default EmptyString (returnType codeElement)
    else tooltip in
  let tooltip :=
    if BaseParser.truthy_opt (parameters codeElement)
    then tooltip ++ "(" ++ default EmptyString (parameters codeElement) ++ ")"
    else tooltip in
  if isCallable codeElement then
    let tooltip :=
      if BaseParser.truthy_opt (comment codeElement)
      then tooltip ++ LF ++ LF ++ "方法描述: "
           ++ default EmptyString (comment codeElement)
      else tooltip in
    let tooltip :=
      match params codeElement with
      | Some ((_ :: _) as params) =>
          tooltip ++ LF ++ LF ++ "方法参数:" ++ parameterLines params
      | _ => tooltip
      end in
    if BaseParser.truthy_opt (returns codeElement)
    then tooltip ++ LF ++ LF ++ "方法返回: "
         ++ default EmptyString (returns codeElement)
    else tooltip
  else
    if BaseParser.truthy_opt (comment codeElement)
    then tooltip ++ LF ++ LF ++ default EmptyString (comment codeElement)
    else tooltip.

End CodeStructViewProvider.

(** ** The inputs of the specification's examples *)

Module Examples.

(** [namespace Foo { class Bar { public Bar() {} public void Baz(int x) {} } }],
    one declaration per line *)
Definition namespaceFoo : list string :=
  ["namespace Foo {";
   "class Bar {";
   "public Bar() {}";
   "public void Baz(int x) {}";
   "}";
   "}"].

(** a method that bears the name of its class *)
Definition methodNamedLikeClass : list string :=
  ["class Bar {";
   "public void Bar() {}"].

(** a class that is never closed *)
Definition unclosedClass : list string :=
  ["class Bar {";
   "public int Count;";
   "public void Baz(int x) {"].

(** [export default { methods: { foo() {} } }] on one line *)
Definition exportDefaultOneLine : list string :=
  ["export default { methods: { foo() {} } }"].

(** the same text, one declaration per line *)
Definition exportDefaultLines : list string :=
  ["export default {";
   "methods: {";
   "foo() {}";
   "}";
   "}"].

(** a component file: the export is declared on line 2 *)
Definition vueComponent : list string :=
  ["<script>";
   "export default {";
   "}";
   "</script>"].

(** a component file: the function is declared on line 3 *)
Definition vueFunction : list string :=
  ["<script>";
   EmptyString;
   "function foo() {}";
   "</script>"].

(** a file without any region tag *)
Definition noRegionTags : list string :=
  ["function foo() {}"].

(** [<div id="x"><span>...</span></div>] on one line *)
Definition divOneLine : list string :=
  ["<div id=" ++ DQ ++ "x" ++ DQ ++ "><span>...</span></div>"].

(** the same markup, one tag per line *)
Definition divLines : list string :=
  ["<div id=" ++ DQ ++ "x" ++ DQ ++ ">";
   "<span>...</span>";
   "</div>"].

(** the documented method of the specification, in a class frame *)
Definition documentedAdd : list string :=
  ["class Calc {";
   "/// <summary>Add two numbers</summary>";
   "/// <param name=" ++ DQ ++ "a" ++ DQ ++ ">first</param>";
   "public int Add(int a,int b){}"].

(** a documented function of a script *)
Definition documentedFunction : list string :=
  ["/// <summary>Adds</summary>";
   "function add(a, b) {}"].

(** an element without documentation and without children *)
Definition plain (name : string) (type : CodeElementType.t)
    (access : AccessModifier.t) (line : Z) (children : list CodeElement)
    (returnType parameters : option string) : CodeElement :=
  mkCodeElement name type access line children None returnType parameters
    None None None.

(** *** The trees these inputs are scanned to *)

Import CodeElementType AccessModifier.

(** [Foo -> Bar -> [Bar(constructor), Baz(method, parameters = "int x")]] *)
Definition namespaceFooTree : list CodeElement :=
  [plain "Foo" Namespace Default 1
     [plain "Bar" Class Default 2
        [plain "Bar" Constructor Public 3 [] None (Some EmptyString);
         plain "Baz" Method Public 4 [] (Some "void") (Some "int x")]
        None None]
     None None].

(** the method [Bar] of the class [Bar] *)
Definition methodNamedLikeClassTree : list CodeElement :=
  [plain "Bar" Class Default 1
     [plain "Bar" Method Public 2 [] (Some "void") (Some EmptyString)]
     None None].

Definition unclosedClassTree : list CodeElement :=
  [plain "Bar" Class Default 1
     [plain "Count" Field Public 2 [] (Some "int") None;
      plain "Baz" Method Public 3 [] (Some "void") (Some "int x")]
     None None].

(** the export without children *)
Definition exportDefaultOneLineTree : list CodeElement :=
  [plain "export default" Class Default 1 [] None None].

(** [export default -> methods -> foo] *)
Definition exportDefaultLinesTree : list CodeElement :=
  [plain "export default" Class Default 1
     [plain "methods" Property Default 2
        [plain "foo" Method Default 3 [] None (Some EmptyString)]
        None None]
     None None].

Definition markupElement (name tag : string) (line : Z)
    (children : list CodeElement) : CodeElement :=
  mkCodeElement name Module Default line children None None None None None
    (Some tag).

(** the [div] named [x], without the [span] *)
Definition divOneLineTree : list CodeElement :=
  [markupElement "x" "div" 1 []].

(** the [div] named [x] with its child [span] *)
Definition divLinesTree : list CodeElement :=
  [markupElement "x" "div" 1 [markupElement "span" "span" 2 []]].

(** what [HtmlParser] makes of either input: one flat [div] *)
Definition divFlatTree : list CodeElement :=
  [plain "div" Module Default 1 [] None None].

(** the [script] region with the export reported on line 3 *)
Definition vueComponentTree : list CodeElement :=
  [plain "script" Module Default 1
     [plain "export default" Class Default 3 [] None None]
     None None].

(** the [script] region with the function reported on line 2 *)
Definition vueFunctionTree : list CodeElement :=
  [plain "script" Module Default 1
     [plain "foo" Function Default 2 [] None None]
     None None].

(** what the script scanner makes of the file without region tags *)
Definition noRegionTagsTree : list CodeElement :=
  [plain "foo" Function Default 1 [] None None].

(** the documented method [Add]: its own [params] field is not set *)
Definition documentedAddTree : list CodeElement :=
  [plain "Calc" Class Default 1
     [mkCodeElement "Add" Method Public 4
        [BaseParser.descriptionNode 4 "Add two numbers";
         BaseParser.paramsNode 4 [("a", "first")]]
        (Some "Add two numbers") (Some "int") (Some "int a,int b")
        None None None]
     None None].

(** the documented function [add]: a summary and no children *)
Definition documentedFunctionTree : list CodeElement :=
  [mkCodeElement "add" Function Default 2 [] (Some "Adds") None None
     None None None].

End Examples.

(** ** Which groups take part in every match

    [binds i r]: every successful match of [r] goes through the capturing
    group [i] (a syntactic, sufficient test). *)

Fixpoint binds (i : nat) (r : regex) : bool :=
  match r with
  | Grp j r1 => Nat.eqb j i || binds i r1
  | Seq r1 r2 => binds i r1 || binds i r2
  | Alt r1 r2 => binds i r1 && binds i r2
  | _ => false
  end.

(** ** Notions used in the statements *)

(** [k] yields a [Q] result whenever it is entered with [P] captures. *)
Definition respects {R : Type} (P : captures -> Prop) (Q : R -> Prop)
    (k : continuation R) : Prop :=
  forall pos s c x, P c -> k pos s c = Some x -> Q x.

(** group [i] has taken part *)
Definition bound (i : nat) (c : captures) : Prop := is_Some (c i).

(** The elements that [createElement] can return: everything but the
    comment is a function of the arguments. *)
Definition created (name : string) (type : CodeElementType.t) (line : Z)
    (lineText : string) (lines : list string)
    (returnType parameters : option string) (lineIndex : option Z)
    (comment : option string) : CodeElement :=
  let info :=
    BaseParser.extractXmlCommentInfo lines (default (line - 1) lineIndex) in
  mkCodeElement name type (BaseParser.extractAccessModifier lineText) line
    (if CodeElementType.eqb type CodeElementType.Method
        || CodeElementType.eqb type CodeElementType.Constructor
     then BaseParser.pseudoChildren line comment
            (BaseParser.info_params info) (BaseParser.info_returns info)
     else [])
    comment returnType parameters (BaseParser.info_returns info) None None.

(** The references of a state of the brace-depth scanner denote objects. *)
Definition valid (st : CSharpParser.state) : Prop :=
  (forall i, CSharpParser.currentNamespace st = Some i ->
             is_Some (CSharpParser.elements st !! i))
  /\ (forall c, CSharpParser.currentClass st = Some c ->
                is_Some (deref c (CSharpParser.elements st))).

(** [l1] and [l2] are the same array as far as indices below [n] can
    tell. *)
Definition agree (n : Z) (l1 l2 : list string) : Prop :=
  forall i, i < n ->
    lookupZ l1 i = lookupZ l2 i
    /\ (lengthZ l1 <=? i) = (lengthZ l2 <=? i).

(** What the synthesized nodes have in common: the line of the element
    they describe, no access modifier, the kind [Variable_]. *)
Definition pseudo (l : Z) (e : CodeElement) : Prop :=
  line e = l
  /\ accessModifier e = AccessModifier.Default
  /\ type e = CodeElementType.Variable_.

(** One of the three region tags that [VueParser.parse] looks for opens
    on this line. *)
Definition hasRegionTag (line : string) : bool :=
  let trimmedLine := trim line in
  VueParser.isTag "template" trimmedLine
  || includes trimmedLine "<script"
  || VueParser.isTag "style" trimmedLine.

(** A child of kind [Constructor] sits in a class and bears its name. *)
Definition namedLikeParent (parent m : CodeElement) : Prop :=
  type m = CodeElementType.Constructor ->
  type parent = CodeElementType.Class /\ name m = name parent.

(** In the tree [e], every element of kind [Constructor] is the child of
    an element of kind [Class] and bears the name of that class. *)
Fixpoint constructorsNamed (e : CodeElement) : Prop :=
  match e with
  | mkCodeElement _ _ _ _ cs _ _ _ _ _ _ =>
      Forall (namedLikeParent e) cs
      /\ (fix all (cs : list CodeElement) : Prop :=
            match cs with
            | [] => True
            | c :: cs' => constructorsNamed c /\ all cs'
            end) cs
  end.

(** [e] was created with the kind [t]. *)
Definition declared (t : CodeElementType.t) (e : CodeElement) : Prop :=
  exists n l lineText lines returnType parameters lineIndex comment,
    e = created n t l lineText lines returnType parameters lineIndex comment.

(** [e] was created as a member of the class [className]: as a
    constructor only under the name of the class. *)
Definition member (className : string) (e : CodeElement) : Prop :=
  exists t,
    declared t e /\ (t = CodeElementType.Constructor -> name e = className).

(** The invariant of the brace-depth scan: the roots are no constructors,
    the trees have their constructors named, and [currentClass] is a
    class. *)
Definition classified (st : CSharpParser.state) : Prop :=
  Forall (fun e => type e <> CodeElementType.Constructor /\ constructorsNamed e)
    (CSharpParser.elements st)
  /\ (forall c cls,
         CSharpParser.currentClass st = Some c ->
         deref c (CSharpParser.elements st) = Some cls ->
         type cls = CodeElementType.Class).

(** The invariant of the container scan: script lines are only collected
    inside a script region, and a script region has its element. *)
Definition collecting (st : VueParser.state) : Prop :=
  (VueParser.inScriptTag st = false -> VueParser.scriptContent st = [])
  /\ (VueParser.elements st = [] -> VueParser.inScriptTag st = false).

(** ** Notions used in the further properties *)

(** The open property of an export scan began on a line of the array. *)
Definition opened (st : JavaScriptParser.exportState) : Prop :=
  forall cp, JavaScriptParser.currentProperty st = Some cp ->
             1 <= JavaScriptParser.op_startLine cp.

(** The script element of a state of the container scan is in the
    result. *)
Definition placed (st : VueParser.state) : Prop :=
  forall p, VueParser.scriptElement st = Some p ->
            is_Some (VueParser.elements st !! p).

(** *** The shape of the trees of the brace-depth scanner *)

(** a node without children *)
Definition leaf (e : CodeElement) : Prop := children e = [].

(** a synthesized node: of kind [Variable_], over leaves of that kind *)
Definition pseudoShape (e : CodeElement) : Prop :=
  type e = CodeElementType.Variable_
  /\ Forall (fun g => type g = CodeElementType.Variable_ /\ leaf g) (children e).

(** a member of a class: a callable over synthesized nodes, or a property
    or field without children *)
Definition memberShape (e : CodeElement) : Prop :=
  ((type e = CodeElementType.Constructor \/ type e = CodeElementType.Method)
   /\ Forall pseudoShape (children e))
  \/ ((type e = CodeElementType.Property \/ type e = CodeElementType.Field)
      /\ leaf e).

(** a type declaration: a class over members, or an interface or enum
    without children *)
Definition typeShape (e : CodeElement) : Prop :=
  (type e = CodeElementType.Class /\ Forall memberShape (children e))
  \/ ((type e = CodeElementType.Interface \/ type e = CodeElementType.Enum)
      /\ leaf e).

(** a root: a type declaration, or a namespace over type declarations *)
Definition rootShape (e : CodeElement) : Prop :=
  typeShape e
  \/ (type e = CodeElementType.Namespace /\ Forall typeShape (children e)).

(** The invariant of the brace-depth scan for the shape: the roots are
    shaped, [currentNamespace] is a namespace and [currentClass] a class
    among the roots or in a namespace. *)
Definition shaped (st : CSharpParser.state) : Prop :=
  Forall rootShape (CSharpParser.elements st)
  /\ (forall i, CSharpParser.currentNamespace st = Some i ->
        exists ns, CSharpParser.elements st !! i = Some ns
                   /\ type ns = CodeElementType.Namespace)
  /\ (forall c, CSharpParser.currentClass st = Some c ->
        match c with
        | Root i =>
            exists cls, CSharpParser.elements st !! i = Some cls
                        /\ type cls = CodeElementType.Class
        | Child i j =>
            exists ns cls,
              CSharpParser.elements st !! i = Some ns
              /\ type ns = CodeElementType.Namespace
              /\ children ns !! j = Some cls
              /\ type cls = CodeElementType.Class
        end).

(** *** Lines *)

(** [P] holds of [e] and of every element below it. *)
Fixpoint everywhere (P : CodeElement -> Prop) (e : CodeElement) : Prop :=
  match e with
  | mkCodeElement _ _ _ _ cs _ _ _ _ _ _ =>
      P e
      /\ (fix all (cs : list CodeElement) : Prop :=
            match cs with
            | [] => True
            | c :: cs' => everywhere P c /\ all cs'
            end) cs
  end.

(** The elements of [es] are on lines that increase strictly. *)
Definition inOrder (es : list CodeElement) : Prop :=
  forall i j a b, (i < j)%nat -> es !! i = Some a -> es !! j = Some b ->
                  line a < line b.

(** The elements of [es] are on lines that do not decrease. *)
Definition nonDecreasing (es : list CodeElement) : Prop :=
  forall i j a b, (i <= j)%nat -> es !! i = Some a -> es !! j = Some b ->
                  line a <= line b.

(** [e] is on one of the lines 1 to [hi]; its children are on its line or
    on later ones, in the order of their lines. *)
Definition positioned (hi : Z) (e : CodeElement) : Prop :=
  1 <= line e <= hi
  /\ Forall (fun c => line e <= line c) (children e)
  /\ nonDecreasing (children e).

(** Every element is positioned, and the roots are on lines that
    increase strictly. *)
Definition numberedTo (hi : Z) (es : list CodeElement) : Prop :=
  Forall (everywhere (positioned hi)) es /\ inOrder es.

(** [e] was created for the line [l]. *)
Definition createdOn (l : Z) (e : CodeElement) : Prop :=
  exists n t lineText lines returnType parameters lineIndex comment,
    e = created n t l lineText lines returnType parameters lineIndex comment.

(** A flat list: elements of the kinds [kinds] without children, on the
    lines 1 to [hi], in the order of their lines. *)
Definition flat (kinds : list CodeElementType.t) (hi : Z)
    (es : list CodeElement) : Prop :=
  Forall (fun e => type e ∈ kinds /\ children e = [] /\ 1 <= line e <= hi) es
  /\ inOrder es.

(** A region of a component file: the element of a [script] or [style]
    tag on line [l]; only a script region has children, which are what the
    script scanner returns for the lines [content], with the offset
    [l + 1]. *)
Definition region (hi : Z) (e : CodeElement) : Prop :=
  exists n l cs,
    e = set_children (VueParser.regionElement n l) cs
    /\ n ∈ ["script"; "style"; "style scoped"]
    /\ 1 <= l <= hi
    /\ (cs = []
        \/ (n = "script"
            /\ exists content,
                 JavaScriptParser.parse content (l + 1) = Returns cs)).

(** The invariant of the container scan for the regions: the elements
    are regions in the order of their lines, and the open script region
    is still without children. *)
Definition regions (st : VueParser.state) : Prop :=
  0 <= VueParser.lineNum st
  /\ Forall (region (VueParser.lineNum st)) (VueParser.elements st)
  /\ inOrder (VueParser.elements st)
  /\ (forall p, VueParser.scriptElement st = Some p ->
        exists l, VueParser.elements st !! p
                  = Some (VueParser.regionElement "script" l)
                  /\ 1 <= l <= VueParser.lineNum st).

(** A line that leaves the container scan inside a template: it does not
    hold the closing tag, or it opens a template itself. *)
Definition keepsTemplateOpen (text : string) : bool :=
  VueParser.isTag "template" (trim text)
  || negb (includes (trim text) "</template>").

(** The frames of the tag stack refer to elements of the forest. *)
Definition stacked (st : VueParser.templateState) : Prop :=
  Forall (fun f => is_Some (derefPath (VueParser.f_element f)
                              (VueParser.t_elements st)))
    (VueParser.stack st).

(** An element of the markup scan of the lines [startLine] to
    [startLine + n - 1]: of kind [Module], with the name of its tag kept
    aside. *)
Definition markup (startLine n : Z) (e : CodeElement) : Prop :=
  type e = CodeElementType.Module
  /\ accessModifier e = AccessModifier.Default
  /\ is_Some (tagName e)
  /\ startLine <= line e < startLine + n.

(** *** Symbols *)

(** The symbol [s] and the symbols below it start on one of the lines of
    an array of [n] lines, or right after the last one. *)
Fixpoint within (n : nat) (s : DocumentSymbol.t) : bool :=
  match s with
  | DocumentSymbol.make _ _ l cs => Nat.leb l n && forallb (within n) cs
  end.

(** The element [e] stands for the symbol [s]: it has its name, the kind
    that belongs to the kind of the symbol and the number of its first
    line; below a callable there is nothing, below another element there
    are the elements that stand for the children of the symbol, in their
    order. *)
Fixpoint mirrors (s : DocumentSymbol.t) (e : CodeElement) : Prop :=
  match s with
  | DocumentSymbol.make n k l cs =>
      name e = n
      /\ type e = FileStructureParser.symbolKindToElementType k
      /\ line e = Z.of_nat l + 1
      /\ if FileStructureParser.callable (type e) then children e = []
         else (fix all (cs : list DocumentSymbol.t) (es : list CodeElement)
                 : Prop :=
                 match cs, es with
                 | [], [] => True
                 | c :: cs', x :: es' => mirrors c x /\ all cs' es'
                 | _, _ => False
                 end) cs (children e)
  end.

(** [es] stand for [ss], one by one. *)
Fixpoint allMirror (ss : list DocumentSymbol.t) (es : list CodeElement) : Prop :=
  match ss, es with
  | [], [] => True
  | s :: ss', e :: es' => mirrors s e /\ allMirror ss' es'
  | _, _ => False
  end.

(** *** Texts *)

(** the character [c] occurs in [s] *)
Fixpoint occurs (c : ascii) (s : string) : bool :=
  match s with
  | EmptyString => false
  | String a s' => Ascii.eqb a c || occurs c s'
  end.

(** [s] with every character of the class [p] replaced by what [f] makes
    of it *)
Fixpoint replaceEach (p : ascii -> bool) (f : string -> string) (s : string)
  : string :=
  match s with
  | EmptyString => EmptyString
  | String a s' =>
      (if p a then f (String a EmptyString) else String a EmptyString)
      ++ replaceEach p f s'
  end.

(** no character of [s] is of the class [p] *)
Fixpoint noneOf (p : ascii -> bool) (s : string) : bool :=
  match s with
  | EmptyString => true
  | String a s' => negb (p a) && noneOf p s'
  end.

(** [v] is [null] *)
Definition isNull (v : json) : bool :=
  match v with JNull => true | _ => false end.

(** the text that [escapeHtml] makes of one character *)
Definition escaped (a : ascii) : string :=
  if any_of ("&<>" ++ quotes) a
  then CodeStructViewProvider.entity (String a EmptyString)
  else String a EmptyString.

(** What the label and the tooltip of an element begin with: the access
    modifier, the name and the return type. *)
Definition signature (e : CodeElement) : string :=
  let head :=
    match accessModifier e with
    | AccessModifier.Default => name e
    | a => FileStructureParser.text a ++ " " ++ name e
    end in
  if BaseParser.truthy_opt (returnType e)
  then head ++ ": " ++ default EmptyString (returnType e)
  else head.

(** *** The shape of the trees of the script scanner *)

(** the kind of the entries of an option of a component *)
Definition entryKind (optionName : string) : option CodeElementType.t :=
  if String.eqb optionName "methods" || String.eqb optionName "watch"
  then Some CodeElementType.Method
  else if String.eqb optionName "computed" || String.eqb optionName "props"
  then Some CodeElementType.Property
  else if String.eqb optionName "data" then Some CodeElementType.Variable_
  else None.

(** an entry of kind [t]: a method over synthesized nodes, or a leaf *)
Definition entryShape (t : CodeElementType.t) (e : CodeElement) : Prop :=
  type e = t
  /\ if CodeElementType.eqb t CodeElementType.Method
     then Forall pseudoShape (children e) else leaf e.

(** an option of a component: a property that bears one of the names of
    [vuePropertyPatterns], over the entries of its kind *)
Definition optionShape (e : CodeElement) : Prop :=
  type e = CodeElementType.Property
  /\ (exists r k, (name e, r, k) ∈ JavaScriptParser.vuePropertyPatterns)
  /\ match entryKind (name e) with
     | Some t => Forall (entryShape t) (children e)
     | None => leaf e
     end.

(** a root of the script scanner: the element of an export over options,
    or a class, a function or an interface without children *)
Definition scriptShape (e : CodeElement) : Prop :=
  (name e = "export default" /\ type e = CodeElementType.Class
   /\ Forall optionShape (children e))
  \/ ((type e = CodeElementType.Class \/ type e = CodeElementType.Function
       \/ type e = CodeElementType.Interface)
      /\ leaf e).

(** The invariant of the scan of an export: the properties are options,
    and the open property is one of the tracked ones, under its name. *)
Definition exporting (st : JavaScriptParser.exportState) : Prop :=
  Forall optionShape (JavaScriptParser.properties st)
  /\ forall cp, JavaScriptParser.currentProperty st = Some cp ->
       1 <= JavaScriptParser.op_startLine cp
       /\ exists r,
            (JavaScriptParser.op_name cp, r, JavaScriptParser.op_type cp)
            ∈ JavaScriptParser.vuePropertyPatterns.

(** *** Comments *)

(** [s] does not begin with white space. *)
Definition beginsTight (s : string) : Prop :=
  match s with
  | String a _ => is_space a = false
  | EmptyString => True
  end.

(** * Properties *)

(** ** Captures of a successful match *)

Section CapturesInvariant.
Context {R : Type} (P : captures -> Prop) (Q : R -> Prop).
Hypothesis P_set : forall j v c, P c -> P (set_capture j v c).

Lemma repeat_respects greedy once k fuel :
  (forall k', respects P Q k' -> respects P Q (once k')) ->
  respects P Q k -> respects P Q (repeat greedy once k fuel).
Proof.
  intros Honce Hk. induction fuel as [ | fuel IH]; intros pos s c x Hc; simpl.
  - destruct greedy; [apply Hk; assumption | ].
    destruct (k pos s c) eqn:E; [ | discriminate].
    intros [= <-]. eapply Hk; eauto.
  - set (again := fun pos' s' c' =>
                    if Nat.ltb pos pos' then repeat greedy once k fuel pos' s' c'
                    else None).
    assert (Hagain : respects P Q again).
    { intros pos' s' c' x' Hc'. unfold again.
      destruct (Nat.ltb pos pos'); [apply IH; assumption | discriminate]. }
    pose proof (Honce again Hagain pos s c) as Hiter.
    destruct greedy.
    + destruct (once again pos s c) eqn:E.
      * intros [= <-]. eapply Hiter; eauto.
      * apply Hk; assumption.
    + destruct (k pos s c) eqn:E.
      * intros [= <-]. eapply Hk; eauto.
      * apply Hiter; assumption.
Qed.

Lemma rmatch_respects r :
  forall k, respects P Q k -> respects P Q (rmatch r k).
Proof.
  induction r as [ | p | r1 IH1 r2 IH2 | r1 IH1 r2 IH2 | g r1 IH1
                 | i r1 IH1 | | ]; intros k Hk pos s c x Hc; simpl.
  - apply Hk; assumption.
  - destruct s as [ | a s']; [discriminate | ].
    destruct (p a); [ | discriminate]. apply Hk; assumption.
  - apply IH1; [ | assumption]. apply IH2; assumption.
  - destruct (rmatch r1 k pos s c) eqn:E1.
    + intros [= <-]. eapply IH1; eauto.
    + eapply IH2; eauto.
  - apply repeat_respects; assumption.
  - apply IH1; [ | assumption].
    intros pos' s' c' x' Hc'. apply Hk. apply P_set; assumption.
  - destruct (Nat.eqb pos 0); [apply Hk; assumption | discriminate].
  - destruct s; [apply Hk; assumption | discriminate].
Qed.
End CapturesInvariant.

Lemma bound_set i j v c : bound i c -> bound i (set_capture j v c).
Proof.
  unfold bound, set_capture. destruct (Nat.eqb i j); [eauto | trivial].
Qed.

(** A pattern that binds [i] turns a continuation that needs [i] into one
    that needs nothing. *)
Lemma rmatch_binds {R : Type} (Q : R -> Prop) i r :
  binds i r = true ->
  forall k, respects (bound i) Q k -> respects (fun _ => True) Q (rmatch r k).
Proof.
  induction r as [ | p | r1 IH1 r2 IH2 | r1 IH1 r2 IH2 | g r1 IH1
                 | j r1 IH1 | | ]; simpl; intros Hb k Hk; try discriminate.
  - apply orb_true_iff in Hb as [Hb | Hb].
    + intros pos s c x _. apply (IH1 Hb (rmatch r2 k)); [ | exact I].
      apply rmatch_respects; [apply bound_set | assumption].
    + intros pos s c x _.
      apply (rmatch_respects (fun _ => True) Q (fun _ _ _ _ => I) r1
               (rmatch r2 k) (IH2 Hb k Hk)); exact I.
  - apply andb_true_iff in Hb as [Hb1 Hb2].
    intros pos s c x _. simpl.
    destruct (rmatch r1 k pos s c) eqn:E1.
    + intros [= <-]. eapply (IH1 Hb1 k Hk); eauto.
    + apply (IH2 Hb2 k Hk); exact I.
  - apply orb_true_iff in Hb as [Hb | Hb].
    + apply Nat.eqb_eq in Hb as ->.
      intros pos s c x _. simpl.
      apply (rmatch_respects (fun _ => True) Q (fun _ _ _ _ => I) r1); [ | exact I].
      intros pos' s' c' x' _. apply Hk.
      unfold bound, set_capture. rewrite Nat.eqb_refl. eauto.
    + intros pos s c x _. simpl. apply (IH1 Hb); [ | exact I].
      intros pos' s' c' x' Hc'. apply Hk. apply bound_set; assumption.
Qed.

Lemma search_from_binds i r pos s m :
  binds i r = true -> search_from r pos s = Some m -> is_Some (groups m i).
Proof.
  intros Hb. revert pos. induction s as [ | a s IH]; intros pos; simpl.
  - destruct (match_at r pos "") eqn:E; [ | discriminate].
    intros [= <-]. revert E. unfold match_at.
    apply (rmatch_binds (fun m => is_Some (groups m i)) i r Hb); [ | exact I].
    intros pos' s' c' x Hc [= <-]. exact Hc.
  - destruct (match_at r pos (String a s)) eqn:E.
    + intros [= <-]. revert E. unfold match_at.
      apply (rmatch_binds (fun m => is_Some (groups m i)) i r Hb); [ | exact I].
      intros pos' s' c' x Hc [= <-]. exact Hc.
    + apply IH.
Qed.

Lemma exec_binds i r s m :
  binds i r = true -> exec r s = Some m -> is_Some (groups m i).
Proof. apply search_from_binds. Qed.

Lemma firstMatch_binds i rs s m :
  forallb (binds i) rs = true -> firstMatch rs s = Some m ->
  is_Some (groups m i).
Proof.
  induction rs as [ | r rs IH]; simpl; [discriminate | ].
  intros Hb. apply andb_true_iff in Hb as [Hr Hrs].
  destruct (exec r s) eqn:E.
  - intros [= <-]. eapply exec_binds; eauto.
  - apply IH; assumption.
Qed.

(** [m[i]] does not throw after a match of a pattern that binds [i]. *)
Lemma group_returns i rs s m :
  forallb (binds i) rs = true -> firstMatch rs s = Some m ->
  exists g, group m i = Returns g.
Proof.
  intros Hb Hm. destruct (firstMatch_binds i rs s m Hb Hm) as [g Hg].
  exists g. unfold group. rewrite Hg. reflexivity.
Qed.

Import CodeElementType AccessModifier BaseParser.

(** Wherever the parsers read [m[i]] as a string, the pattern binds the
    group [i]. *)
Lemma groups_read_are_bound :
  forallb (binds 1)
    [CSharpParser.re_class; CSharpParser.re_interface;
     CSharpParser.re_namespace; CSharpParser.re_enum;
     CSharpParser.re_constructor1; CSharpParser.re_constructor2;
     CSharpParser.re_constructor3; CSharpParser.re_method1;
     CSharpParser.re_method2; CSharpParser.re_method3;
     JavaScriptParser.re_class; JavaScriptParser.re_function1;
     JavaScriptParser.re_function2; JavaScriptParser.re_function3;
     JavaScriptParser.re_interface; JavaScriptParser.re_method_assigned;
     JavaScriptParser.re_method_short; JavaScriptParser.re_params;
     JavaScriptParser.re_computed; JavaScriptParser.re_watch_assigned;
     JavaScriptParser.re_watch_short; JavaScriptParser.re_entry;
     VueParser.re_start_tag; VueParser.re_attribute "id";
     VueParser.re_attribute "class"; VueParser.re_end_tag;
     HtmlParser.re_id; HtmlParser.re_src; HtmlParser.re_main] = true
  /\ forallb (binds 2)
       [CSharpParser.re_method1; CSharpParser.re_method2;
        CSharpParser.re_method3; CSharpParser.re_property1;
        CSharpParser.re_property2; CSharpParser.re_property3;
        CSharpParser.re_field1; CSharpParser.re_field2;
        CSharpParser.re_field3] = true.
Proof. split; reflexivity. Qed.

(** ** The [js] monad *)

Lemma bind_returns {A B : Type} (a : A) (f : A -> js B) :
  (Returns a ≫= f) = f a.
Proof. reflexivity. Qed.

Lemma bind_inv {A B : Type} (m : js A) (f : A -> js B) (b : B) :
  (m ≫= f) = Returns b -> exists a, m = Returns a /\ f a = Returns b.
Proof. destruct m as [a | e]; [eauto | discriminate]. Qed.

(** ** Loops and array accesses *)

Lemma for_down_range hi lo :
  Forall (fun i => lo <= i <= hi) (for_down hi lo).
Proof.
  unfold for_down. apply List.Forall_forall. intros i Hi.
  apply in_map_iff in Hi as (k & <- & Hk). apply in_seq in Hk. lia.
Qed.

Lemma for_up_range lo hi :
  Forall (fun i => lo <= i <= hi) (for_up lo hi).
Proof.
  unfold for_up. apply List.Forall_forall. intros i Hi.
  apply in_map_iff in Hi as (k & <- & Hk). apply in_seq in Hk. lia.
Qed.

Lemma lookupZ_in_range {A : Type} (xs : list A) (i : Z) :
  0 <= i < lengthZ xs -> exists x, lookupZ xs i = Some x.
Proof.
  unfold lookupZ, lengthZ. intros Hi.
  destruct (Z.ltb_spec i 0); [lia | ].
  destruct (lookup_lt_is_Some_2 xs (Z.to_nat i)) as [x Hx]; [lia | eauto].
Qed.

(** ** BaseParser: [createElement] never throws *)

Lemma blockCommentLoop_returns lines i todo comment :
  Forall (fun j => 0 <= j < lengthZ lines) todo ->
  exists c, blockCommentLoop lines i todo comment = Returns c.
Proof.
  intros Hall. revert comment.
  induction Hall as [ | j todo Hj _ IH]; intros comment; simpl; [eauto | ].
  destruct (lookupZ_in_range lines j Hj) as [l ->]. simpl.
  destruct (includes (trim l) "*/"); [eauto | ].
  destruct (j =? i); apply IH.
Qed.

Lemma plainCommentLoop_returns lines lineIndex todo :
  Forall (fun i => 0 <= i < lengthZ lines) todo ->
  exists c, plainCommentLoop lines lineIndex todo = Returns c.
Proof.
  induction 1 as [ | i todo Hi _ IH]; simpl; [eauto | ].
  destruct (lookupZ_in_range lines i Hi) as [l ->]. simpl.
  destruct (startsWith (trim l) "//" && negb (startsWith (trim l) "///"));
    [eauto | ].
  destruct (includes (trim l) "/*").
  - destruct (blockCommentLoop_returns lines i
                (for_up i (Z.min lineIndex (lengthZ lines - 1))) EmptyString)
      as [c ->]; [ | simpl; eauto].
    eapply Forall_impl; [apply for_up_range | ]. simpl. lia.
  - match goal with |- context [if ?b then _ else _] => destruct b end; eauto.
Qed.

Lemma extractComment_returns lines lineIndex :
  exists c, extractComment lines lineIndex = Returns c.
Proof.
  unfold extractComment.
  destruct ((lineIndex <? 0) || (lengthZ lines <=? lineIndex)) eqn:Hrange;
    [eauto | ].
  apply orb_false_iff in Hrange as [H0 Hlen].
  apply Z.ltb_ge in H0. apply Z.leb_gt in Hlen.
  match goal with |- context [match ?o with Some _ => _ | None => _ end] =>
    destruct o end; [eauto | ].
  apply plainCommentLoop_returns.
  eapply Forall_impl; [apply for_down_range | ]. simpl. lia.
Qed.

Lemma createElement_returns name type line lineText lines returnType
    parameters lineIndex :
  exists comment,
    createElement name type line lineText lines returnType parameters lineIndex
    = Returns (created name type line lineText lines returnType parameters
                 lineIndex comment).
Proof.
  unfold createElement, created.
  replace (match lineIndex with Some i => i | None => line - 1 end)
    with (default (line - 1) lineIndex) by (destruct lineIndex; reflexivity).
  set (idx := default (line - 1) lineIndex).
  set (info := extractXmlCommentInfo lines idx).
  destruct (truthy_opt (info_summary info)).
  - rewrite bind_returns.
    destruct (_ || _); eexists; reflexivity.
  - destruct (extractComment_returns lines idx) as [c ->]. rewrite bind_returns.
    destruct (_ || _); eexists; reflexivity.
Qed.

(** ** CSharpParser: [parse] never throws *)
Import CSharpParser.

(** uses the match in the context to evaluate [group m i] in the goal *)
Ltac group_ok i g :=
  match goal with
  | E : firstMatch ?rs ?line = Some ?m |- _ =>
      destruct (group_returns i rs line m eq_refl E) as [g ->];
      rewrite bind_returns
  end.

Lemma parseSimple_returns r type line lineNum lines :
  binds 1 r = true ->
  exists o, parseSimple r type line lineNum lines = Returns o.
Proof.
  intros Hb. unfold parseSimple. destruct (exec r line) as [m | ] eqn:E; [ | eauto].
  destruct (group_returns 1 [r] line m) as [g ->].
  { simpl. rewrite Hb. reflexivity. }
  { simpl. rewrite E. reflexivity. }
  rewrite bind_returns.
  destruct (createElement_returns g type lineNum line lines None None None)
    as [c ->].
  rewrite bind_returns. eauto.
Qed.

Lemma parseConstructor_returns line lineNum lines className :
  exists o, parseConstructor line lineNum lines className = Returns o.
Proof.
  unfold parseConstructor. destruct (looksLikeProperty line); [eauto | ].
  destruct (firstMatch _ line) as [m | ] eqn:E; [ | eauto].
  group_ok 1%nat g.
  destruct (String.eqb g className); [ | eauto].
  destruct (createElement_returns g Constructor lineNum line lines None
              (Some (groupOrEmpty m 2)) None) as [c ->].
  rewrite bind_returns. eauto.
Qed.

Lemma parseMethod_returns line lineNum lines className :
  exists o, parseMethod line lineNum lines className = Returns o.
Proof.
  unfold parseMethod. destruct (looksLikeProperty line); [eauto | ].
  destruct (firstMatch _ line) as [m | ] eqn:E; [ | eauto].
  group_ok 1%nat g1.
  group_ok 2%nat g2.
  destruct (_ && _).
  - destruct (createElement_returns g2 Constructor lineNum line lines None
                (Some (groupOrEmpty m 3)) None) as [c ->].
    rewrite bind_returns. eauto.
  - destruct (createElement_returns g2 Method lineNum line lines
                (Some (trim g1)) (Some (groupOrEmpty m 3)) None) as [c ->].
    rewrite bind_returns. eauto.
Qed.

Lemma parseProperty_returns line lineNum lines :
  exists o, parseProperty line lineNum lines = Returns o.
Proof.
  unfold parseProperty.
  destruct (firstMatch _ line) as [m | ] eqn:E; [ | eauto].
  group_ok 2%nat g.
  destruct (createElement_returns g Property lineNum line lines
              (groups m 1%nat) None None) as [c ->].
  rewrite bind_returns. eauto.
Qed.

Lemma parseField_returns line lineNum lines :
  exists o, parseField line lineNum lines = Returns o.
Proof.
  unfold parseField. destruct (_ || _); [eauto | ].
  destruct (negb _); [eauto | ].
  destruct (firstMatch _ line) as [m | ] eqn:E; [ | eauto].
  group_ok 2%nat g.
  destruct (createElement_returns g Field lineNum line lines
              (groups m 1%nat) None None) as [c ->].
  rewrite bind_returns. eauto.
Qed.

Lemma parseMember_returns line lineNum lines className :
  exists o, parseMember line lineNum lines className = Returns o.
Proof.
  unfold parseMember.
  destruct (parseConstructor_returns line lineNum lines className) as [[e | ] ->];
    rewrite bind_returns; [eauto | ].
  destruct (parseMethod_returns line lineNum lines className) as [[e | ] ->];
    rewrite bind_returns; [eauto | ].
  destruct (parseProperty_returns line lineNum lines) as [[e | ] ->];
    rewrite bind_returns; [eauto | ].
  destruct (parseField_returns line lineNum lines) as [[e | ] ->];
    rewrite bind_returns; eauto.
Qed.

Lemma lookup_update c f els i :
  is_Some (els !! i) -> is_Some (update c f els !! i).
Proof.
  destruct c as [k | k j]; simpl; intros [e He].
  - destruct (decide (k = i)) as [-> | Hne].
    + rewrite list_lookup_alter_eq, He. simpl. eauto.
    + rewrite list_lookup_alter_ne by assumption. eauto.
  - destruct (decide (k = i)) as [-> | Hne].
    + rewrite list_lookup_alter_eq, He. simpl. eauto.
    + rewrite list_lookup_alter_ne by assumption. eauto.
Qed.

Lemma deref_update c f els :
  is_Some (deref c els) -> is_Some (deref c (update c f els)).
Proof.
  destruct c as [i | i j]; simpl.
  - intros [e He]. rewrite list_lookup_alter_eq, He. simpl. eauto.
  - destruct (els !! i) as [e | ] eqn:He; simpl; [ | intros [? [=]]].
    intros [x Hx]. rewrite list_lookup_alter_eq, He. simpl.
    rewrite list_lookup_alter_eq, Hx. simpl. eauto.
Qed.

Lemma valid_pushToClass c e st :
  valid st -> currentClass st = Some c -> valid (pushToClass c e st).
Proof.
  intros [Hn Hc] Hcur. split; simpl.
  - intros i Hi. apply lookup_update. auto.
  - intros c' Hc'. rewrite Hcur in Hc'. injection Hc' as <-.
    apply deref_update. auto.
Qed.

Lemma valid_pushToScope e st :
  valid st -> currentClass st = None -> valid (pushToScope e st).
Proof.
  intros [Hn _] Hcur. unfold pushToScope.
  destruct (currentNamespace st) as [i | ] eqn:Hi; split; simpl.
  - rewrite Hi. intros k Hk. apply (lookup_update (Root i)). auto.
  - rewrite Hcur. discriminate.
  - rewrite Hi. discriminate.
  - rewrite Hcur. discriminate.
Qed.

Lemma valid_close st : valid st -> valid (closeMethod (closeClass (closeNamespace st))).
Proof.
  intros Hv.
  assert (H1 : valid (closeNamespace st)).
  { unfold closeNamespace. destruct (_ && _); [ | assumption].
    split; simpl; discriminate. }
  assert (H2 : valid (closeClass (closeNamespace st))).
  { revert H1. generalize (closeNamespace st). intros s [Hn Hc].
    unfold closeClass. destruct (_ && _); [ | split; assumption].
    split; simpl; [assumption | discriminate]. }
  revert H2. generalize (closeClass (closeNamespace st)). intros s [Hn Hc].
  unfold closeMethod. destruct (_ && _); split; assumption.
Qed.

Lemma openClass_returns e floor st :
  valid st -> currentClass st = None ->
  exists st', openClass e floor st = Returns st' /\ valid st'.
Proof.
  intros [Hn Hc] Hcur. unfold openClass, pushToScope.
  destruct (currentNamespace st) as [i | ] eqn:Hi.
  - destruct (Hn i eq_refl) as [ns Hns]. rewrite Hns. simpl.
    eexists; split; [reflexivity | ]. split; simpl.
    + rewrite Hi. intros k [= <-]. rewrite list_lookup_alter_eq, Hns. simpl. eauto.
    + intros c [= <-]. simpl. rewrite list_lookup_alter_eq, Hns. simpl.
      rewrite lookup_app_r by reflexivity. rewrite Nat.sub_diag. simpl. eauto.
  - eexists; split; [reflexivity | ]. split; simpl.
    + rewrite Hi. discriminate.
    + intros c [= <-]. simpl. rewrite lookup_app_r by reflexivity.
      rewrite Nat.sub_diag. simpl. eauto.
Qed.

Lemma inClass_returns c trimmedLine lines st :
  valid st -> currentClass st = Some c ->
  exists st', inClass c trimmedLine lines st = Returns st' /\ valid st'.
Proof.
  intros Hv Hcur. unfold inClass.
  destruct (proj2 Hv c Hcur) as [cls ->]. simpl.
  destruct (inMethod st).
  - destruct (parseMethod_returns trimmedLine (lineNum st) lines (name cls))
      as [[e | ] ->]; rewrite bind_returns; [ | eauto].
    eexists; split; [reflexivity | ].
    apply valid_pushToClass; [ | assumption]. exact Hv.
  - destruct (parseMember_returns trimmedLine (lineNum st) lines (name cls))
      as [[[e [ | ]] | ] ->]; rewrite bind_returns; [ | | eauto].
    + eexists; split; [reflexivity | ].
      apply valid_pushToClass; [ | assumption]. exact Hv.
    + eexists; split; [reflexivity | ].
      apply valid_pushToClass; assumption.
Qed.

Lemma outsideClass_returns trimmedLine lines st :
  valid st -> currentClass st = None ->
  exists st', outsideClass trimmedLine lines st = Returns st' /\ valid st'.
Proof.
  intros Hv Hcur. unfold outsideClass.
  destruct (parseSimple_returns re_interface Interface trimmedLine (lineNum st)
              lines eq_refl) as [[e | ] He];
    unfold parseInterface; rewrite He, bind_returns.
  - eexists; split; [reflexivity | ]. apply valid_pushToScope; assumption.
  - destruct (parseSimple_returns re_enum Enum trimmedLine (lineNum st)
                lines eq_refl) as [[e | ] He'];
      unfold parseEnum; rewrite He', bind_returns.
    + eexists; split; [reflexivity | ]. apply valid_pushToScope; assumption.
    + eauto.
Qed.

Lemma scanLine_returns lines st line :
  valid st -> exists st', scanLine lines st line = Returns st' /\ valid st'.
Proof.
  intros Hv. unfold scanLine.
  destruct (isComment (trim line)).
  { eexists; split; [reflexivity | ]. exact Hv. }
  set (st0 := with_braceCount _ (with_lineNum _ st)).
  assert (Hv0 : valid st0) by exact Hv.
  pose proof (valid_close st0 Hv0) as Hv1.
  revert Hv1. generalize (closeMethod (closeClass (closeNamespace st0))).
  intros st1 Hv1.
  assert (Hns : exists o,
    (if bool_decide (currentNamespace st1 = None)
        && bool_decide (currentClass st1 = None)
     then parseNamespace (trim line) (lineNum st1) lines
     else mret None) = Returns o
    /\ (is_Some o -> currentClass st1 = None)).
  { destruct (bool_decide (currentNamespace st1 = None)) eqn:E1; simpl.
    - destruct (bool_decide (currentClass st1 = None)) eqn:E2; simpl.
      + apply bool_decide_eq_true in E2.
        destruct (parseSimple_returns re_namespace Namespace (trim line)
                    (lineNum st1) lines eq_refl) as [o Ho].
        exists o. split; [exact Ho | auto].
      + exists None. split; [reflexivity | intros [? [=]]].
    - exists None. split; [reflexivity | intros [? [=]]]. }
  destruct Hns as ([e | ] & -> & Hcur); rewrite bind_returns.
  { eexists; split; [reflexivity | ]. split; simpl.
    - intros i [= <-]. rewrite lookup_app_r by reflexivity.
      rewrite Nat.sub_diag. simpl. eauto.
    - rewrite Hcur by eauto. discriminate. }
  destruct (bool_decide (currentClass st1 = None)) eqn:E2.
  - apply bool_decide_eq_true in E2.
    destruct (parseSimple_returns re_class Class (trim line) (lineNum st1)
                lines eq_refl) as [[e | ] He];
      unfold parseClass; rewrite He, bind_returns.
    + apply openClass_returns; assumption.
    + rewrite E2. apply outsideClass_returns; assumption.
  - apply bool_decide_eq_false in E2. rewrite bind_returns.
    destruct (currentClass st1) as [c | ] eqn:Hc; [ | congruence].
    apply inClass_returns; assumption.
Qed.

Lemma scan_returns lines todo st :
  valid st -> exists st', scan lines todo st = Returns st' /\ valid st'.
Proof.
  revert st. induction todo as [ | line todo IH]; intros st Hv; simpl; [eauto | ].
  destruct (scanLine_returns lines st line Hv) as (st' & -> & Hv').
  rewrite bind_returns. apply IH. assumption.
Qed.

Lemma valid_initial : valid initial.
Proof. split; simpl; discriminate. Qed.

Lemma parse_returns lines : exists elements, parse lines = Returns elements.
Proof.
  unfold parse. destruct (scan_returns lines lines initial valid_initial)
    as (st & -> & _).
  rewrite bind_returns. eauto.
Qed.

(** ** What an element depends on

    [createElement] at index [i] reads the lines up to [i] only. *)

Lemma agree_take (n : nat) (lines : list string) :
  agree (Z.of_nat n) (take n lines) lines.
Proof.
  intros i Hi. unfold lookupZ, lengthZ. split.
  - destruct (Z.ltb_spec i 0); [reflexivity | ].
    apply lookup_take_lt. lia.
  - rewrite length_take.
    destruct (Z.leb_spec (Z.of_nat (length lines)) i);
      destruct (Z.leb_spec (Z.of_nat (Nat.min n (length lines))) i); lia.
Qed.

Section Agreement.
Context (n : Z) (l1 l2 : list string) (Hagree : agree n l1 l2).

Lemma collectXmlCommentLines_agree todo found acc :
  Forall (fun i => i < n) todo ->
  collectXmlCommentLines l1 todo found acc
  = collectXmlCommentLines l2 todo found acc.
Proof.
  intros Hall. revert found acc.
  induction Hall as [ | i todo Hi _ IH]; intros found acc; simpl; [reflexivity | ].
  destruct (Hagree i Hi) as [-> ->].
  destruct (_ || _); [reflexivity | ].
  destruct (lookupZ l2 i) as [l | ]; [ | reflexivity].
  destruct (startsWith (trim l) "///"); [apply IH | ].
  destruct found.
  - match goal with |- context [if ?b then _ else _] => destruct b end;
      [reflexivity | apply IH].
  - match goal with |- context [if ?b then _ else _] => destruct b end;
      [reflexivity | apply IH].
Qed.

Lemma xmlCommentLinesAbove_agree lineIndex :
  lineIndex < n ->
  xmlCommentLinesAbove l1 lineIndex = xmlCommentLinesAbove l2 lineIndex.
Proof.
  intros Hi. unfold xmlCommentLinesAbove. apply collectXmlCommentLines_agree.
  eapply Forall_impl; [apply for_down_range | ]. simpl. lia.
Qed.

Lemma extractXmlCommentInfo_agree lineIndex :
  lineIndex < n ->
  extractXmlCommentInfo l1 lineIndex = extractXmlCommentInfo l2 lineIndex.
Proof.
  intros Hi. unfold extractXmlCommentInfo.
  destruct (Hagree lineIndex Hi) as [_ ->].
  rewrite xmlCommentLinesAbove_agree by assumption. reflexivity.
Qed.

Lemma blockCommentLoop_agree i todo comment :
  Forall (fun j => j < n) todo ->
  blockCommentLoop l1 i todo comment = blockCommentLoop l2 i todo comment.
Proof.
  intros Hall. revert comment.
  induction Hall as [ | j todo Hj _ IH]; intros comment; simpl; [reflexivity | ].
  destruct (Hagree j Hj) as [-> _].
  destruct (lookupZ l2 j) as [l | ]; [simpl | reflexivity].
  destruct (includes (trim l) "*/"); [reflexivity | ].
  destruct (j =? i); apply IH.
Qed.

Lemma plainCommentLoop_agree lineIndex todo :
  lineIndex < n -> lineIndex < lengthZ l1 -> lineIndex < lengthZ l2 ->
  Forall (fun i => i < n) todo ->
  plainCommentLoop l1 lineIndex todo = plainCommentLoop l2 lineIndex todo.
Proof.
  intros Hn H1 H2 Hall.
  induction Hall as [ | i todo Hi _ IH]; simpl; [reflexivity | ].
  destruct (Hagree i Hi) as [-> _].
  destruct (lookupZ l2 i) as [l | ]; [simpl | reflexivity].
  destruct (_ && _); [reflexivity | ].
  destruct (includes (trim l) "/*").
  - replace (Z.min lineIndex (lengthZ l1 - 1)) with lineIndex by lia.
    replace (Z.min lineIndex (lengthZ l2 - 1)) with lineIndex by lia.
    rewrite blockCommentLoop_agree; [reflexivity | ].
    eapply Forall_impl; [apply for_up_range | ]. simpl. lia.
  - match goal with |- context [if ?b then _ else _] => destruct b end;
      [reflexivity | apply IH].
Qed.

Lemma extractComment_agree lineIndex :
  lineIndex < n ->
  extractComment l1 lineIndex = extractComment l2 lineIndex.
Proof.
  intros Hi. unfold extractComment.
  destruct (Hagree lineIndex Hi) as [_ Hlen]. rewrite Hlen.
  destruct ((lineIndex <? 0) || (lengthZ l2 <=? lineIndex)) eqn:Hrange;
    [reflexivity | ].
  apply orb_false_iff in Hrange as [_ H2]. rewrite H2 in Hlen.
  apply Z.leb_gt in H2, Hlen.
  rewrite xmlCommentLinesAbove_agree by assumption.
  match goal with |- context [match ?o with Some _ => _ | None => _ end] =>
    destruct o end; [reflexivity | ].
  apply plainCommentLoop_agree; try assumption.
  eapply Forall_impl; [apply for_down_range | ]. simpl. lia.
Qed.

Lemma createElement_agree name type line lineText returnType parameters
    lineIndex :
  default (line - 1) lineIndex < n ->
  createElement name type line lineText l1 returnType parameters lineIndex
  = createElement name type line lineText l2 returnType parameters lineIndex.
Proof.
  intros Hi. unfold createElement.
  replace (match lineIndex with Some i => i | None => line - 1 end)
    with (default (line - 1) lineIndex) by (destruct lineIndex; reflexivity).
  rewrite extractXmlCommentInfo_agree, extractComment_agree by assumption.
  reflexivity.
Qed.

Lemma parseSimple_agree r type line lineNum :
  lineNum - 1 < n ->
  parseSimple r type line lineNum l1 = parseSimple r type line lineNum l2.
Proof.
  intros Hi. unfold parseSimple. destruct (exec r line); [ | reflexivity].
  destruct (group _ 1); [simpl | reflexivity].
  rewrite createElement_agree by assumption. reflexivity.
Qed.

Lemma parseConstructor_agree line lineNum className :
  lineNum - 1 < n ->
  parseConstructor line lineNum l1 className
  = parseConstructor line lineNum l2 className.
Proof.
  intros Hi. unfold parseConstructor. destruct (looksLikeProperty line);
    [reflexivity | ].
  destruct (firstMatch _ line); [ | reflexivity].
  destruct (group _ 1); [simpl | reflexivity].
  destruct (String.eqb _ _); [ | reflexivity].
  rewrite createElement_agree by assumption. reflexivity.
Qed.

Lemma parseMethod_agree line lineNum className :
  lineNum - 1 < n ->
  parseMethod line lineNum l1 className = parseMethod line lineNum l2 className.
Proof.
  intros Hi. unfold parseMethod. destruct (looksLikeProperty line);
    [reflexivity | ].
  destruct (firstMatch _ line); [ | reflexivity].
  destruct (group _ 1); [simpl | reflexivity].
  destruct (group _ 2); [simpl | reflexivity].
  destruct (_ && _); rewrite createElement_agree by assumption; reflexivity.
Qed.

Lemma parseProperty_agree line lineNum :
  lineNum - 1 < n ->
  parseProperty line lineNum l1 = parseProperty line lineNum l2.
Proof.
  intros Hi. unfold parseProperty. destruct (firstMatch _ line); [ | reflexivity].
  destruct (group _ 2); [simpl | reflexivity].
  rewrite createElement_agree by assumption. reflexivity.
Qed.

Lemma parseField_agree line lineNum :
  lineNum - 1 < n ->
  parseField line lineNum l1 = parseField line lineNum l2.
Proof.
  intros Hi. unfold parseField. destruct (_ || _); [reflexivity | ].
  destruct (negb _); [reflexivity | ].
  destruct (firstMatch _ line); [ | reflexivity].
  destruct (group _ 2); [simpl | reflexivity].
  rewrite createElement_agree by assumption. reflexivity.
Qed.

Lemma parseMember_agree line lineNum className :
  lineNum - 1 < n ->
  parseMember line lineNum l1 className = parseMember line lineNum l2 className.
Proof.
  intros Hi. unfold parseMember.
  rewrite parseConstructor_agree by assumption.
  destruct (parseConstructor line lineNum l2 className) as [[e | ] | err];
    simpl; try reflexivity.
  rewrite parseMethod_agree by assumption.
  destruct (parseMethod line lineNum l2 className) as [[e | ] | err];
    simpl; try reflexivity.
  rewrite parseProperty_agree by assumption.
  destruct (parseProperty line lineNum l2) as [[e | ] | err];
    simpl; try reflexivity.
  rewrite parseField_agree by assumption. reflexivity.
Qed.

Lemma inClass_agree c trimmedLine st :
  lineNum st - 1 < n ->
  inClass c trimmedLine l1 st = inClass c trimmedLine l2 st.
Proof.
  intros Hi. unfold inClass.
  destruct (defined (deref c (elements st))); [simpl | reflexivity].
  rewrite parseMethod_agree, parseMember_agree by assumption. reflexivity.
Qed.

Lemma outsideClass_agree trimmedLine st :
  lineNum st - 1 < n ->
  outsideClass trimmedLine l1 st = outsideClass trimmedLine l2 st.
Proof.
  intros Hi. unfold outsideClass, parseInterface, parseEnum.
  rewrite (parseSimple_agree re_interface) by assumption.
  destruct (parseSimple re_interface _ _ _ l2) as [[e | ] | err];
    simpl; try reflexivity.
  rewrite (parseSimple_agree re_enum) by assumption. reflexivity.
Qed.

Lemma lineNum_close st :
  lineNum (closeMethod (closeClass (closeNamespace st))) = lineNum st.
Proof.
  unfold closeMethod, closeClass, closeNamespace.
  repeat match goal with |- context [if ?b then _ else _] => destruct b; simpl end;
    reflexivity.
Qed.

Lemma scanLine_agree st line :
  lineNum st < n -> scanLine l1 st line = scanLine l2 st line.
Proof.
  intros Hi. unfold scanLine.
  destruct (isComment (trim line)); [reflexivity | ].
  set (st0 := with_braceCount _ (with_lineNum _ st)).
  pose proof (lineNum_close st0) as Hln.
  revert Hln. generalize (closeMethod (closeClass (closeNamespace st0))).
  intros st1 Hln. simpl in Hln.
  assert (Hi1 : lineNum st1 - 1 < n) by lia.
  unfold parseNamespace, parseClass.
  rewrite (parseSimple_agree re_namespace), (parseSimple_agree re_class)
    by assumption.
  destruct (if _ && _ then _ else _) as [[e | ] | err]; simpl; try reflexivity.
  destruct (if bool_decide _ then _ else _) as [[e | ] | err]; simpl;
    try reflexivity.
  destruct (currentClass st1).
  - apply inClass_agree; assumption.
  - apply outsideClass_agree; assumption.
Qed.

End Agreement.

(** Every turn of the loop counts one line. *)
Lemma lineNum_pushToScope e st : lineNum (pushToScope e st) = lineNum st.
Proof. unfold pushToScope. destruct (currentNamespace st); reflexivity. Qed.

Lemma scanLine_lineNum lines st line st' :
  scanLine lines st line = Returns st' -> lineNum st' = lineNum st + 1.
Proof.
  unfold scanLine. destruct (isComment (trim line)).
  { intros [= <-]. reflexivity. }
  set (st0 := with_braceCount _ (with_lineNum _ st)).
  pose proof (lineNum_close st0) as Hln.
  revert Hln. generalize (closeMethod (closeClass (closeNamespace st0))).
  intros st1 Hln. simpl in Hln.
  intros H. apply bind_inv in H as ([e | ] & _ & H).
  { injection H as <-. simpl. exact Hln. }
  apply bind_inv in H as ([e | ] & _ & H).
  { unfold openClass in H. destruct (currentNamespace st1) eqn:Hns.
    - apply bind_inv in H as (ns & _ & H). injection H as <-. simpl.
      rewrite lineNum_pushToScope. exact Hln.
    - injection H as <-. simpl. rewrite lineNum_pushToScope. exact Hln. }
  destruct (currentClass st1) as [c | ].
  - unfold inClass in H. apply bind_inv in H as (cls & _ & H).
    destruct (inMethod st1).
    + apply bind_inv in H as ([e | ] & _ & H); injection H as <-; exact Hln.
    + apply bind_inv in H as ([[e [ | ]] | ] & _ & H); injection H as <-;
        exact Hln.
  - unfold outsideClass in H. apply bind_inv in H as ([e | ] & _ & H).
    + injection H as <-. rewrite lineNum_pushToScope. exact Hln.
    + apply bind_inv in H as ([e | ] & _ & H); injection H as <-;
        [rewrite lineNum_pushToScope | ]; exact Hln.
Qed.

Lemma scan_agree n l1 l2 todo st :
  agree n l1 l2 -> lineNum st + lengthZ todo <= n ->
  scan l1 todo st = scan l2 todo st.
Proof.
  intros Hagree. revert st.
  induction todo as [ | line todo IH]; intros st Hn; simpl; [reflexivity | ].
  unfold lengthZ in Hn. simpl in Hn.
  rewrite (scanLine_agree n l1 l2 Hagree) by lia.
  destruct (scanLine l2 st line) as [st' | err] eqn:E; [simpl | reflexivity].
  apply IH. apply scanLine_lineNum in E. unfold lengthZ. lia.
Qed.

(** Scanning a prefix of the input gives the state in which the scan of
    the whole input leaves that prefix. *)
Lemma scan_take (n : nat) (lines : list string) :
  scan (take n lines) (take n lines) initial
  = scan lines (take n lines) initial.
Proof.
  apply (scan_agree (Z.of_nat n)); [apply agree_take | ].
  unfold lengthZ. rewrite length_take. simpl. lia.
Qed.

(** ** BaseParser: the loops of [cleanComment] terminate *)

Lemma length_trimStart s : (String.length (trimStart s) <= String.length s)%nat.
Proof.
  induction s as [ | a s IH]; simpl; [lia | ].
  destruct (is_space a); simpl; lia.
Qed.

Lemma length_trimEnd s : (String.length (trimEnd s) <= String.length s)%nat.
Proof.
  induction s as [ | a s IH]; simpl; [lia | ].
  destruct (trimEnd s); [destruct (is_space a) | ]; simpl in *; lia.
Qed.

Lemma length_trim s : (String.length (trim s) <= String.length s)%nat.
Proof.
  unfold trim. etransitivity; [apply length_trimEnd | apply length_trimStart].
Qed.

(** With [String.length s] turns the loop has run to its end: the result
    no longer starts with [c]. *)
Lemma strip_leading_loop_done fuel c s :
  c <> EmptyString -> (String.length s <= fuel)%nat ->
  startsWith (strip_leading_loop fuel c s) c = false.
Proof.
  intros Hc. revert s. induction fuel as [ | fuel IH]; intros s Hlen; simpl.
  - destruct s; [ | simpl in Hlen; lia]. destruct c; [congruence | reflexivity].
  - destruct (startsWith s c) eqn:E; [ | exact E].
    apply IH. destruct s as [ | a s].
    + destruct c; [congruence | discriminate].
    + unfold substring_from. simpl. pose proof (length_trim s). simpl in Hlen. lia.
Qed.

Lemma strip_leading_done c s :
  c <> EmptyString -> startsWith (strip_leading c s) c = false.
Proof. intros Hc. apply strip_leading_loop_done; [assumption | lia]. Qed.

(** ** BaseParser: the children of a created element *)

Lemma createElement_inv name type line lineText lines returnType parameters
    lineIndex e :
  createElement name type line lineText lines returnType parameters lineIndex
  = Returns e ->
  exists comment,
    e = created name type line lineText lines returnType parameters lineIndex
          comment.
Proof.
  destruct (createElement_returns name type line lineText lines returnType
              parameters lineIndex) as [c ->].
  intros [= <-]. eauto.
Qed.

Lemma pseudoChildren_shape l comment ps returns :
  Forall (fun c =>
            pseudo l c
            /\ (children c = []
                \/ exists documented,
                     ps = Some documented
                     /\ c = paramsNode l documented
                     /\ Forall (fun g => pseudo l g /\ children g = [])
                          (children c)))
    (pseudoChildren l comment ps returns).
Proof.
  unfold pseudoChildren. repeat apply Forall_app_2.
  - destruct comment as [c | ]; [ | constructor].
    destruct (truthy c); [ | constructor].
    constructor; [ | constructor]. split; [repeat split | left; reflexivity].
  - destruct ps as [documented | ]; [ | constructor].
    destruct (Nat.ltb 0 (length documented)); [ | constructor].
    constructor; [ | constructor]. split; [repeat split | ].
    right. exists documented. repeat split.
    simpl. apply List.Forall_forall. intros g Hg.
    apply in_map_iff in Hg as (p & <- & _). repeat split.
  - destruct returns as [r | ]; [ | constructor].
    destruct (truthy r); [ | constructor].
    constructor; [ | constructor]. split; [repeat split | left; reflexivity].
Qed.

(** ** Trees whose constructors bear the name of their class *)

Lemma constructorsNamed_unfold e :
  constructorsNamed e
  <-> Forall (namedLikeParent e) (children e)
      /\ Forall constructorsNamed (children e).
Proof.
  destruct e as [n t a l cs c rt ps r pr tg]. simpl.
  assert (H : (fix all (cs : list CodeElement) : Prop :=
                 match cs with
                 | [] => True
                 | c :: cs' => constructorsNamed c /\ all cs'
                 end) cs <-> Forall constructorsNamed cs).
  { induction cs as [ | x cs IH]; simpl.
    - split; [constructor | trivial].
    - rewrite IH. split.
      + intros [Hx Hcs]. constructor; assumption.
      + intros Hall. inversion Hall; subst. split; assumption. }
  rewrite H. reflexivity.
Qed.

Lemma constructorsNamed_leaf e :
  children e = [] -> constructorsNamed e.
Proof.
  intros H. apply constructorsNamed_unfold. rewrite H. split; constructor.
Qed.

Lemma constructorsNamed_pseudoChildren l comment ps returns :
  Forall (fun c => type c = Variable_ /\ constructorsNamed c)
    (pseudoChildren l comment ps returns).
Proof.
  unfold pseudoChildren. repeat apply Forall_app_2.
  - destruct comment as [c | ]; [ | constructor].
    destruct (truthy c); [ | constructor].
    constructor; [ | constructor]. split; [reflexivity | ].
    apply constructorsNamed_leaf. reflexivity.
  - destruct ps as [documented | ]; [ | constructor].
    destruct (Nat.ltb 0 (length documented)); [ | constructor].
    constructor; [ | constructor]. split; [reflexivity | ].
    apply constructorsNamed_unfold. simpl. split.
    + apply List.Forall_forall. intros g Hg.
      apply in_map_iff in Hg as (p & <- & _). intros [=].
    + apply List.Forall_forall. intros g Hg.
      apply in_map_iff in Hg as (p & <- & _).
      apply constructorsNamed_leaf. reflexivity.
  - destruct returns as [r | ]; [ | constructor].
    destruct (truthy r); [ | constructor].
    constructor; [ | constructor]. split; [reflexivity | ].
    apply constructorsNamed_leaf. reflexivity.
Qed.

Lemma constructorsNamed_created n t l lineText lines returnType parameters
    lineIndex comment :
  constructorsNamed
    (created n t l lineText lines returnType parameters lineIndex comment).
Proof.
  apply constructorsNamed_unfold. unfold created. simpl.
  destruct (_ || _); [ | split; constructor].
  pose proof (constructorsNamed_pseudoChildren l comment
                (info_params (extractXmlCommentInfo lines
                                (default (l - 1) lineIndex)))
                (info_returns (extractXmlCommentInfo lines
                                 (default (l - 1) lineIndex)))) as H.
  split; eapply Forall_impl; try exact H; simpl.
  - intros c [Hc _] Hctor. congruence.
  - intros c [_ Hc]. exact Hc.
Qed.

Lemma constructorsNamed_push x e :
  constructorsNamed e -> constructorsNamed x -> namedLikeParent e x ->
  constructorsNamed (push_child x e).
Proof.
  intros He Hx Hn. apply constructorsNamed_unfold in He as [He1 He2].
  apply constructorsNamed_unfold. unfold push_child, set_children. simpl.
  split; apply Forall_app_2.
  - exact He1.
  - constructor; [exact Hn | constructor].
  - exact He2.
  - constructor; [exact Hx | constructor].
Qed.

(** ** CSharpParser: what the patterns create *)

Lemma createElement_declared n t l lineText lines returnType parameters
    lineIndex e :
  createElement n t l lineText lines returnType parameters lineIndex
  = Returns e ->
  declared t e /\ name e = n.
Proof.
  intros H. apply createElement_inv in H as [c ->].
  split; [ | reflexivity]. repeat eexists.
Qed.

Lemma parseSimple_declared r t line lineNum lines e :
  parseSimple r t line lineNum lines = Returns (Some e) -> declared t e.
Proof.
  unfold parseSimple. destruct (exec r line); [ | discriminate].
  intros H. apply bind_inv in H as (g & _ & H).
  apply bind_inv in H as (e' & He' & [= <-]).
  apply createElement_declared in He'. tauto.
Qed.

Lemma parseConstructor_member line lineNum lines className e :
  parseConstructor line lineNum lines className = Returns (Some e) ->
  declared Constructor e /\ name e = className.
Proof.
  unfold parseConstructor.
  destruct (looksLikeProperty line); [discriminate | ].
  destruct (firstMatch _ line) as [m | ]; [ | discriminate].
  intros H. apply bind_inv in H as (g & _ & H).
  destruct (String.eqb g className) eqn:Hname; [ | discriminate].
  apply String.eqb_eq in Hname as ->.
  apply bind_inv in H as (e' & He' & [= <-]).
  apply createElement_declared in He'. exact He'.
Qed.

Lemma parseMethod_member line lineNum lines className e :
  parseMethod line lineNum lines className = Returns (Some e) ->
  (declared Constructor e /\ name e = className) \/ declared Method e.
Proof.
  unfold parseMethod.
  destruct (looksLikeProperty line); [discriminate | ].
  destruct (firstMatch _ line) as [m | ]; [ | discriminate].
  intros H. apply bind_inv in H as (g1 & _ & H).
  apply bind_inv in H as (g2 & _ & H).
  destruct (String.eqb (trim g1) g2 && String.eqb g2 className) eqn:Hname.
  - apply andb_true_iff in Hname as [_ Hname].
    apply String.eqb_eq in Hname as ->.
    apply bind_inv in H as (e' & He' & [= <-]).
    apply createElement_declared in He'. left. exact He'.
  - apply bind_inv in H as (e' & He' & [= <-]).
    apply createElement_declared in He'. right. tauto.
Qed.

Lemma parseProperty_declared line lineNum lines e :
  parseProperty line lineNum lines = Returns (Some e) -> declared Property e.
Proof.
  unfold parseProperty. destruct (firstMatch _ line) as [m | ]; [ | discriminate].
  intros H. apply bind_inv in H as (g & _ & H).
  apply bind_inv in H as (e' & He' & [= <-]).
  apply createElement_declared in He'. tauto.
Qed.

Lemma parseField_declared line lineNum lines e :
  parseField line lineNum lines = Returns (Some e) -> declared Field e.
Proof.
  unfold parseField. destruct (_ || _); [discriminate | ].
  destruct (negb _); [discriminate | ].
  destruct (firstMatch _ line) as [m | ]; [ | discriminate].
  intros H. apply bind_inv in H as (g & _ & H).
  apply bind_inv in H as (e' & He' & [= <-]).
  apply createElement_declared in He'. tauto.
Qed.

Lemma parseMethod_is_member line lineNum lines className e :
  parseMethod line lineNum lines className = Returns (Some e) ->
  member className e.
Proof.
  intros H. apply parseMethod_member in H as [[Hd Hn] | Hd].
  - exists Constructor. split; [exact Hd | auto].
  - exists Method. split; [exact Hd | discriminate].
Qed.

Lemma parseMember_is_member line lineNum lines className e opens :
  parseMember line lineNum lines className = Returns (Some (e, opens)) ->
  member className e.
Proof.
  unfold parseMember. intros H.
  apply bind_inv in H as ([c | ] & Hc & H).
  { injection H as <- <-. apply parseConstructor_member in Hc as [Hd Hn].
    exists Constructor. split; [exact Hd | auto]. }
  apply bind_inv in H as ([m | ] & Hm & H).
  { injection H as <- <-. eapply parseMethod_is_member; eauto. }
  apply bind_inv in H as ([p | ] & Hp & H).
  { injection H as <- <-. apply parseProperty_declared in Hp.
    exists Property. split; [exact Hp | discriminate]. }
  apply bind_inv in H as ([f | ] & Hf & H); [ | discriminate].
  injection H as <- <-. apply parseField_declared in Hf.
  exists Field. split; [exact Hf | discriminate].
Qed.

Lemma declared_type t e : declared t e -> type e = t.
Proof. intros (n & l & lt & ls & rt & ps & idx & c & ->). reflexivity. Qed.

Lemma declared_constructorsNamed t e : declared t e -> constructorsNamed e.
Proof.
  intros (n & l & lt & ls & rt & ps & idx & c & ->).
  apply constructorsNamed_created.
Qed.

(** ** CSharpParser: every constructor bears the name of its class *)

Lemma type_push_child x e : type (push_child x e) = type e.
Proof. reflexivity. Qed.

Lemma deref_update_eq c f els e :
  deref c els = Some e -> deref c (update c f els) = Some (f e).
Proof.
  destruct c as [i | i j]; simpl.
  - intros He. rewrite list_lookup_alter_eq, He. reflexivity.
  - destruct (els !! i) as [p | ] eqn:Hp; simpl; [ | discriminate].
    intros He. rewrite list_lookup_alter_eq, Hp. simpl.
    rewrite list_lookup_alter_eq, He. reflexivity.
Qed.

Lemma classified_push_root x st :
  type x <> Constructor -> constructorsNamed x ->
  Forall (fun e => type e <> Constructor /\ constructorsNamed e) (elements st) ->
  Forall (fun e => type e <> Constructor /\ constructorsNamed e)
    (elements (pushToScope x st)).
Proof.
  intros Ht Hx Hall. unfold pushToScope.
  destruct (currentNamespace st) as [i | ]; simpl.
  - apply Forall_alter; [assumption | ].
    intros ns _ [Hns1 Hns2]. split; [exact Hns1 | ].
    apply constructorsNamed_push; try assumption.
    intros Hc. congruence.
  - apply Forall_app_2; [assumption | ]. repeat constructor; assumption.
Qed.

Lemma classified_push_member c cls x els :
  deref c els = Some cls -> type cls = Class -> member (name cls) x ->
  Forall (fun e => type e <> Constructor /\ constructorsNamed e) els ->
  Forall (fun e => type e <> Constructor /\ constructorsNamed e)
    (update c (push_child x) els).
Proof.
  intros Hc Hcls (t & Hd & Hn) Hall.
  assert (Hx : constructorsNamed x) by (eapply declared_constructorsNamed; eauto).
  assert (Hnamed : namedLikeParent cls x).
  { intros Hctor. split; [assumption | ].
    apply Hn. rewrite <- Hctor. symmetry. apply declared_type. assumption. }
  destruct c as [i | i j]; simpl in *.
  - apply Forall_alter; [assumption | ].
    intros e He [He1 He2]. rewrite He in Hc. injection Hc as ->.
    split; [exact He1 | ]. apply constructorsNamed_push; assumption.
  - apply Forall_alter; [assumption | ].
    intros ns Hns [Hns1 Hns2]. rewrite Hns in Hc. simpl in Hc.
    split; [exact Hns1 | ].
    apply constructorsNamed_unfold in Hns2 as [Hm Hsub].
    apply constructorsNamed_unfold. simpl. split.
    + apply Forall_alter; [exact Hm | ].
      intros e He Hnamed_e. exact Hnamed_e.
    + apply Forall_alter; [exact Hsub | ].
      intros e He He'. rewrite He in Hc. injection Hc as ->.
      apply constructorsNamed_push; assumption.
Qed.

Lemma classified_close st :
  classified st -> classified (closeMethod (closeClass (closeNamespace st))).
Proof.
  intros Hv.
  assert (H1 : classified (closeNamespace st)).
  { unfold closeNamespace. destruct (_ && _); [ | assumption].
    destruct Hv as [Hall _]. split; [exact Hall | simpl; discriminate]. }
  assert (H2 : classified (closeClass (closeNamespace st))).
  { revert H1. generalize (closeNamespace st). intros s [Hall Hc].
    unfold closeClass. destruct (_ && _); [ | split; assumption].
    split; [exact Hall | simpl; discriminate]. }
  revert H2. generalize (closeClass (closeNamespace st)). intros s [Hall Hc].
  unfold closeMethod. destruct (_ && _); split; assumption.
Qed.

Lemma classified_pushToClass c cls x st :
  classified st -> currentClass st = Some c ->
  deref c (elements st) = Some cls -> member (name cls) x ->
  classified (pushToClass c x st).
Proof.
  intros [Hall Hclass] Hcur Hc Hx. split; simpl.
  - eapply classified_push_member; eauto.
  - intros c' cls' Hc'. rewrite Hcur in Hc'. injection Hc' as <-.
    rewrite (deref_update_eq c _ _ cls Hc). intros [= <-].
    rewrite type_push_child. eauto.
Qed.

Lemma scanLine_classified lines st line st' :
  classified st -> scanLine lines st line = Returns st' -> classified st'.
Proof.
  intros Hv. unfold scanLine. destruct (isComment (trim line)).
  { intros [= <-]. exact Hv. }
  set (st0 := with_braceCount _ (with_lineNum _ st)).
  assert (Hv0 : classified st0) by exact Hv.
  pose proof (classified_close st0 Hv0) as Hv1.
  revert Hv1. generalize (closeMethod (closeClass (closeNamespace st0))).
  intros st1 Hinv H. pose proof Hinv as [Hall _].
  apply bind_inv in H as ([e | ] & He & H).
  { injection H as <-.
    destruct (bool_decide (currentNamespace st1 = None)); [ | discriminate].
    destruct (bool_decide (currentClass st1 = None)) eqn:Hcur; [ | discriminate].
    apply bool_decide_eq_true in Hcur. simpl in He.
    apply parseSimple_declared in He. split; simpl.
    - apply Forall_app_2; [assumption | ]. constructor; [ | constructor].
      split; [ | eapply declared_constructorsNamed; eauto].
      rewrite (declared_type _ _ He). discriminate.
    - rewrite Hcur. discriminate. }
  clear He. apply bind_inv in H as ([e | ] & He & H).
  { destruct (bool_decide (currentClass st1 = None)) eqn:Hcur; [ | discriminate].
    apply bool_decide_eq_true in Hcur. apply parseSimple_declared in He.
    assert (Hroots : Forall (fun e => type e <> Constructor /\ constructorsNamed e)
                       (elements (pushToScope e st1))).
    { apply classified_push_root; try assumption.
      - rewrite (declared_type _ _ He). discriminate.
      - eapply declared_constructorsNamed; eauto. }
    pose proof (declared_type _ _ He) as Hte.
    unfold openClass in H. destruct (currentNamespace st1) as [i | ] eqn:Hns.
    - apply bind_inv in H as (ns & Hi & H). injection H as <-.
      split; [exact Hroots | ]. simpl. intros c cls [= <-].
      unfold pushToScope. rewrite Hns. simpl.
      destruct (elements st1 !! i) as [ns' | ] eqn:Hns'; [ | discriminate].
      injection Hi as ->. rewrite list_lookup_alter_eq, Hns'. simpl.
      rewrite lookup_app_r by reflexivity. rewrite Nat.sub_diag. simpl.
      intros [= <-]. exact Hte.
    - injection H as <-. split; [exact Hroots | ]. simpl. intros c cls [= <-].
      unfold pushToScope. rewrite Hns. simpl.
      rewrite lookup_app_r by reflexivity. rewrite Nat.sub_diag. simpl.
      intros [= <-]. exact Hte. }
  clear He. destruct (currentClass st1) as [c | ] eqn:Hcur.
  - unfold inClass in H. apply bind_inv in H as (cls & Hc & H).
    assert (Hd : deref c (elements st1) = Some cls).
    { destruct (deref c (elements st1)); [ | discriminate].
      injection Hc as ->. reflexivity. }
    destruct (inMethod st1).
    + apply bind_inv in H as ([m | ] & Hm & H); injection H as <-.
      * apply (classified_pushToClass c cls);
          [exact Hinv | exact Hcur | exact Hd | ].
        eapply parseMethod_is_member; eauto.
      * exact Hinv.
    + apply bind_inv in H as ([[m opens] | ] & Hm & H).
      * apply parseMember_is_member in Hm.
        destruct opens; injection H as <-;
          (apply (classified_pushToClass c cls);
           [exact Hinv | exact Hcur | exact Hd | exact Hm]).
      * injection H as <-. exact Hinv.
  - unfold outsideClass in H. apply bind_inv in H as ([e | ] & He & H).
    + injection H as <-. apply parseSimple_declared in He. split.
      * apply classified_push_root; try assumption.
        -- rewrite (declared_type _ _ He). discriminate.
        -- eapply declared_constructorsNamed; eauto.
      * unfold pushToScope. destruct (currentNamespace st1); simpl;
          rewrite Hcur; discriminate.
    + clear He. apply bind_inv in H as ([e | ] & He & H); injection H as <-.
      * apply parseSimple_declared in He. split.
        -- apply classified_push_root; try assumption.
           ++ rewrite (declared_type _ _ He). discriminate.
           ++ eapply declared_constructorsNamed; eauto.
        -- unfold pushToScope. destruct (currentNamespace st1); simpl;
             rewrite Hcur; discriminate.
      * exact Hinv.
Qed.

Lemma scan_classified lines todo st st' :
  classified st -> scan lines todo st = Returns st' -> classified st'.
Proof.
  revert st. induction todo as [ | line todo IH]; intros st Hv; simpl.
  - intros [= <-]. exact Hv.
  - intros H. apply bind_inv in H as (st1 & H1 & H).
    eapply IH; [ | exact H]. eapply scanLine_classified; eauto.
Qed.

(** In the result of a scan every constructor is the child of a class
    and bears its name. *)
Lemma parse_constructorsNamed lines elements :
  parse lines = Returns elements ->
  Forall (fun e => type e <> Constructor /\ constructorsNamed e) elements.
Proof.
  unfold parse. intros H. apply bind_inv in H as (st & Hst & [= <-]).
  apply (scan_classified lines lines initial st); [ | exact Hst].
  split; [constructor | simpl; discriminate].
Qed.

(** ** VueParser: a file without region tags *)

Lemma scan_without_region_tags lines lineNum :
  forallb (fun l => negb (hasRegionTag l)) lines = true ->
  exists lineNum',
    VueParser.scan lines
      (VueParser.mkState [] lineNum false [] None 0 false false)
    = Returns (VueParser.mkState [] lineNum' false [] None 0 false false).
Proof.
  revert lineNum. induction lines as [ | l lines IH]; intros lineNum; simpl.
  - eauto.
  - intros H. apply andb_true_iff in H as [Hl Hrest].
    apply negb_true_iff in Hl. unfold hasRegionTag in Hl.
    apply orb_false_iff in Hl as [Hl Hstyle].
    apply orb_false_iff in Hl as [Htemplate Hscript].
    unfold VueParser.scanLine. simpl.
    rewrite Htemplate, Hscript, Hstyle. simpl.
    apply IH. assumption.
Qed.


Lemma scanLine_collecting st line st' :
  collecting st -> VueParser.scanLine st line = Returns st' -> collecting st'.
Proof.
  intros [Hcontent Helements]. unfold VueParser.scanLine.
  destruct (VueParser.isTag "template" (trim line)).
  { intros [= <-]. split; assumption. }
  destruct (VueParser.inTemplate st && includes (trim line) "</template>").
  { intros [= <-]. split; assumption. }
  destruct (VueParser.inTemplate st).
  { intros [= <-]. split; assumption. }
  destruct (includes (trim line) "<script").
  { intros [= <-]. split; simpl; [discriminate | ].
    intros H. apply app_eq_nil in H as [_ H]. discriminate. }
  destruct (VueParser.inScriptTag st && includes (trim line) "</script>").
  { intros H. apply bind_inv in H as (els & _ & [= <-]).
    split; simpl; reflexivity. }
  destruct (VueParser.isTag "style" (trim line)).
  { intros [= <-]. split; simpl.
    - intros Hin. rewrite Hin. auto.
    - intros H. apply app_eq_nil in H as [_ H]. discriminate. }
  destruct (VueParser.inStyle st && includes (trim line) "</style>");
    intros [= <-]; (split; simpl; [intros Hin; rewrite Hin; auto | assumption]).
Qed.

Lemma scan_collecting todo st st' :
  collecting st -> VueParser.scan todo st = Returns st' -> collecting st'.
Proof.
  revert st. induction todo as [ | line todo IH]; intros st Hc; simpl.
  - intros [= <-]. exact Hc.
  - intros H. apply bind_inv in H as (st1 & H1 & H).
    eapply IH; [ | exact H]. eapply scanLine_collecting; eauto.
Qed.

(** The fallback of [VueParser.parse] to the script scanner is dead code:
    what [parse] returns is always the array [elements]. *)
Lemma parse_never_falls_back lines :
  VueParser.parse lines
  = (st ← VueParser.scan lines VueParser.initial;
     mret (VueParser.elements st)).
Proof.
  unfold VueParser.parse.
  destruct (VueParser.scan lines VueParser.initial) as [st | err] eqn:E;
    [ | reflexivity].
  rewrite !bind_returns.
  assert (Hc : collecting st).
  { eapply scan_collecting; [ | exact E]. split; reflexivity. }
  destruct Hc as [Hcontent Helements].
  destruct (VueParser.elements st) as [ | e els] eqn:Hels; [ | reflexivity].
  rewrite Hcontent by auto. reflexivity.
Qed.

(** ** JavaScriptParser: the line an element is reported on *)

Lemma parseSimple_line rs t text lineNum lines e :
  JavaScriptParser.parseSimple rs t text lineNum lines = Returns (Some e) ->
  line e = lineNum.
Proof.
  unfold JavaScriptParser.parseSimple.
  destruct (firstMatch rs text); [ | discriminate].
  intros H. apply bind_inv in H as (g & _ & H).
  apply bind_inv in H as (e' & He' & [= <-]).
  apply createElement_inv in He' as [c ->]. reflexivity.
Qed.

Lemma parseDeclaration_line trimmedLine lineNum lines e :
  JavaScriptParser.parseDeclaration trimmedLine lineNum lines = Returns (Some e) ->
  line e = lineNum.
Proof.
  unfold JavaScriptParser.parseDeclaration. intros H.
  apply bind_inv in H as ([c | ] & Hc & H).
  { injection H as <-. eapply parseSimple_line; eauto. }
  apply bind_inv in H as ([f | ] & Hf & H).
  { injection H as <-. eapply parseSimple_line; eauto. }
  eapply parseSimple_line; eauto.
Qed.

(** A turn of the script scanner's loop pushes at most one element: the
    export, reported on the position of the line plus the offset, or a
    declaration of the primary mode, reported on the position of the
    line, without the offset. *)
Lemma scanLine_reported_line lines startLineOffset st l st' :
  JavaScriptParser.scanLine lines startLineOffset st l = Returns st' ->
  JavaScriptParser.lineNum st' = JavaScriptParser.lineNum st + 1
  /\ (JavaScriptParser.elements st' = JavaScriptParser.elements st
      \/ (exists properties,
             JavaScriptParser.elements st'
             = (JavaScriptParser.elements st
                ++ [JavaScriptParser.exportDefaultElement
                      (JavaScriptParser.lineNum st' + startLineOffset)
                      properties])%list)
      \/ (exists e,
             JavaScriptParser.elements st'
             = (JavaScriptParser.elements st ++ [e])%list
             /\ line e = JavaScriptParser.lineNum st')).
Proof.
  unfold JavaScriptParser.scanLine.
  destruct (JavaScriptParser.isComment (trim l)).
  { intros [= <-]. split; [reflexivity | left; reflexivity]. }
  destruct (includes (trim l) "export default" && includes (trim l) "{").
  { intros H. apply bind_inv in H as (properties & _ & [= <-]).
    split; [reflexivity | right; left]. exists properties. reflexivity. }
  destruct (JavaScriptParser.inExportDefault st).
  { intros [= <-]. split; [reflexivity | left; reflexivity]. }
  intros H. apply bind_inv in H as ([e | ] & He & [= <-]).
  - split; [reflexivity | right; right]. exists e. split; [reflexivity | ].
    eapply parseDeclaration_line; eauto.
  - split; [reflexivity | left; reflexivity].
Qed.

(** * The claims of the specification *)

(** ** C1: constructors in the brace-depth scanner *)

(** C1 does not hold as stated: in the class [Bar] the line
    [public void Bar() {}] yields a method, although its name is the name
    of the enclosing class. *)
Lemma C1_method_named_like_its_class :
  exists cls m,
    CSharpParser.parse Examples.methodNamedLikeClass = Returns [cls]
    /\ type cls = Class
    /\ children cls = [m]
    /\ name m = name cls
    /\ type m = Method.
Proof. do 2 eexists. split; [vm_compute; reflexivity | repeat split]. Qed.

(** C1, as amended.  In the brace-depth scanner for C#-like input an
    element is classified as constructor only if its callable name is
    textually the name of the enclosing class: in every tree that a scan
    returns, an element of kind constructor is the child of a class and
    bears its name, and this holds for what the constructor pattern
    yields and for what the method pattern yields.  While no method frame
    is open the constructor pattern is tried first: a line on which it
    succeeds is pushed to the class as that constructor, and opens a
    method frame, whatever the method pattern would say.  And scanning
    [namespace Foo { class Bar { public Bar() {} public void Baz(int x) {} } }],
    one declaration per line, yields the namespace [Foo] with the class
    [Bar], whose children are the constructor [Bar] and the method [Baz]
    with parameters [int x]. *)
Theorem C1_constructor_classification :
  (forall lines elements,
      CSharpParser.parse lines = Returns elements ->
      Forall (fun e => type e <> Constructor /\ constructorsNamed e) elements)
  /\ (forall line lineNum lines className e,
         CSharpParser.parseConstructor line lineNum lines className
         = Returns (Some e) ->
         type e = Constructor /\ name e = className)
  /\ (forall line lineNum lines className e,
         CSharpParser.parseMethod line lineNum lines className
         = Returns (Some e) ->
         type e = Constructor -> name e = className)
  /\ (forall c trimmedLine lines st cls e,
         CSharpParser.inMethod st = false ->
         deref c (CSharpParser.elements st) = Some cls ->
         CSharpParser.parseConstructor trimmedLine (CSharpParser.lineNum st)
           lines (name cls) = Returns (Some e) ->
         CSharpParser.inClass c trimmedLine lines st
         = Returns (CSharpParser.pushToClass c e
                      (CSharpParser.with_method true (CSharpParser.braceCount st)
                         st)))
  /\ CSharpParser.parse Examples.namespaceFoo = Returns Examples.namespaceFooTree.
Proof.
  split; [ | split; [ | split; [ | split]]].
  - apply parse_constructorsNamed.
  - intros line lineNum lines className e H.
    apply parseConstructor_member in H as [Hd Hn].
    split; [apply declared_type; assumption | assumption].
  - intros line lineNum lines className e H Hctor.
    apply parseMethod_member in H as [[_ Hn] | Hd]; [assumption | ].
    apply declared_type in Hd. congruence.
  - intros c trimmedLine lines st cls e Hin Hc Hp.
    unfold CSharpParser.inClass, CSharpParser.parseMember.
    rewrite Hc, Hin. simpl. rewrite Hp. reflexivity.
  - vm_compute. reflexivity.
Qed.

(** The implications of C1 at the scan of the namespace [Foo] and at the
    lines [public Bar() {}] and [public Bar Bar() {}] of a class [Bar]. *)
Lemma C1_constructor_classification_witness :
  Forall (fun e => type e <> Constructor /\ constructorsNamed e)
    Examples.namespaceFooTree
  /\ (type (Examples.plain "Bar" Constructor Public 3 [] None (Some EmptyString))
      = Constructor
      /\ name (Examples.plain "Bar" Constructor Public 3 [] None
                 (Some EmptyString))
         = "Bar")
  /\ name (Examples.plain "Bar" Constructor Public 1 [] None (Some EmptyString))
     = "Bar"
  /\ CSharpParser.inClass (Root 0) "public Bar() {}" Examples.namespaceFoo
       (CSharpParser.mkState [Examples.plain "Bar" Class Default 2 [] None None]
          3 2 None (-1) (Some (Root 0)) 1 false (-1))
     = Returns
         (CSharpParser.mkState
            [Examples.plain "Bar" Class Default 2
               [Examples.plain "Bar" Constructor Public 3 [] None
                  (Some EmptyString)]
               None None]
            3 2 None (-1) (Some (Root 0)) 1 true 2).
Proof.
  destruct C1_constructor_classification
    as (Htree & Hctor & Hmethod & Hfirst & _).
  split; [ | split; [ | split]].
  - apply (Htree Examples.namespaceFoo). vm_compute. reflexivity.
  - apply (Hctor "public Bar() {}" 3 Examples.namespaceFoo "Bar").
    vm_compute. reflexivity.
  - apply (Hmethod "public Bar Bar() {}" 1 ["public Bar Bar() {}"] "Bar").
    + vm_compute. reflexivity.
    + reflexivity.
  - apply (Hfirst (Root 0) "public Bar() {}" Examples.namespaceFoo
             (CSharpParser.mkState
                [Examples.plain "Bar" Class Default 2 [] None None]
                3 2 None (-1) (Some (Root 0)) 1 false (-1))
             (Examples.plain "Bar" Class Default 2 [] None None)
             (Examples.plain "Bar" Constructor Public 3 [] None
                (Some EmptyString))).
    + reflexivity.
    + reflexivity.
    + vm_compute. reflexivity.
Defined.

(** ** C2: the synthesized children *)

(** C2 does not hold as stated: a documented function gets its summary
    and no child at all. *)
Lemma C2_documented_function_has_no_pseudo_children :
  exists e,
    JavaScriptParser.parse Examples.documentedFunction 0 = Returns [e]
    /\ type e = Function
    /\ comment e = Some "Adds"
    /\ children e = [].
Proof. eexists. split; [vm_compute; reflexivity | repeat split]. Qed.

(** C2, as amended.  [createElement] always returns, and the children of
    the element it returns are, for the kinds constructor and method, up
    to three nodes in this order: the description node if and only if the
    element has a non-empty comment, the parameters node if and only if
    the documentation yielded at least one parameter description, with
    one child per documented parameter, and the returns node if and only
    if the documentation yielded a non-empty return description; for
    every other kind, [Function] included, there are no children. *)
Theorem C2_pseudo_children_of_methods_and_constructors
    (n : string) (t : CodeElementType.t) (l : Z) (lineText : string)
    (lines : list string) (returnType parameters : option string)
    (lineIndex : option Z) :
  exists e,
    createElement n t l lineText lines returnType parameters lineIndex
    = Returns e
    /\ let documented :=
         extractXmlCommentInfo lines (default (l - 1) lineIndex) in
       returns e = info_returns documented
       /\ children e =
          (if CodeElementType.eqb t Method || CodeElementType.eqb t Constructor
           then
             (if truthy_opt (comment e)
              then [descriptionNode l (default EmptyString (comment e))]
              else [])
             ++ (match info_params documented with
                 | Some (p :: ps) => [paramsNode l (p :: ps)]
                 | _ => []
                 end)
             ++ (if truthy_opt (returns e)
                 then [returnsNode l (default EmptyString (returns e))]
                 else [])
           else [])%list
       /\ forall ps, map name (children (paramsNode l ps)) = map fst ps.
Proof.
  destruct (createElement_returns n t l lineText lines returnType
              parameters lineIndex) as [c ->].
  eexists. split; [reflexivity | ]. simpl. split; [reflexivity | ]. split.
  - destruct (_ || _); [ | reflexivity]. unfold pseudoChildren.
    f_equal; [ | f_equal].
    + destruct c as [c | ]; [ | reflexivity]. simpl.
      destruct (truthy c); reflexivity.
    + destruct (info_params _) as [[ | p ps] | ]; reflexivity.
    + destruct (info_returns _) as [r | ]; [ | reflexivity]. simpl.
      destruct (truthy r); reflexivity.
  - intros ps. rewrite map_map. reflexivity.
Qed.

(** ** C3: the brace-depth scanner never raises *)

(** C3.  For every sequence of lines [CSharpParser.parse] returns.  What
    it returns for an input that is cut after [n] lines is the array
    [elements] as the scan of the whole input has it after its [n]-th
    line: the elements discovered so far, with the children pushed so
    far, and nothing is done to the frames that are still open.  So the
    class of
    [class Bar {], [public int Count;], [public void Baz(int x) {]
    is returned with its field and its method. *)
Theorem C3_parse_never_raises (lines : list string) :
  (exists elements, CSharpParser.parse lines = Returns elements)
  /\ (forall n : nat,
         CSharpParser.parse (take n lines)
         = (st ← CSharpParser.scan lines (take n lines) CSharpParser.initial;
            mret (CSharpParser.elements st)))
  /\ CSharpParser.parse Examples.unclosedClass
     = Returns Examples.unclosedClassTree.
Proof.
  split; [apply parse_returns | split].
  - intros n. unfold CSharpParser.parse. rewrite scan_take. reflexivity.
  - vm_compute. reflexivity.
Qed.

(** ** C4: the options object of a default export *)

(** C4 does not hold as stated: when the whole text
    [export default { methods: { foo() {} } }] is one line, the braces of
    that line balance, the properties are not scanned and the export
    element has no children. *)
Lemma C4_one_line_export_has_no_children :
  exists e,
    JavaScriptParser.parse Examples.exportDefaultOneLine 0 = Returns [e]
    /\ name e = "export default"
    /\ children e = [].
Proof. eexists. split; [vm_compute; reflexivity | split; reflexivity]. Qed.

(** C4, as amended.  Scanning [export default {], [methods: {],
    [foo() {}], [}], [}] (one declaration per line) yields one root
    element named [export default], whose only child is named [methods],
    whose only child is the method [foo]. *)
Theorem C4_export_default_methods :
  exists export methods foo,
    JavaScriptParser.parse Examples.exportDefaultLines 0 = Returns [export]
    /\ name export = "export default"
    /\ children export = [methods]
    /\ name methods = "methods"
    /\ children methods = [foo]
    /\ name foo = "foo"
    /\ type foo = Method
    /\ JavaScriptParser.parse Examples.exportDefaultLines 0
       = Returns Examples.exportDefaultLinesTree.
Proof.
  do 3 eexists. split; [vm_compute; reflexivity | ].
  repeat split.
Qed.

(** ** C5: line numbers of a sub-fragment *)

(** C5 fails on the code.  A turn of the script scanner's loop reports
    the export on the position of its line plus the offset, but a class,
    function or interface of the primary mode on the position of its line
    alone: the offset is not used there.  And [VueParser.parse] passes the
    number of the first script line as the offset, one too many.  So in
    the file [<script>], [export default {], [}], [</script>] the export
    is declared on line 2 and reported on line 3, and in the file
    [<script>], (empty line), [function foo() {}], [</script>] the
    function is declared on line 3 and reported on line 2. *)
Theorem C5_reported_lines_in_a_script_block :
  (forall lines startLineOffset st l st',
      JavaScriptParser.scanLine lines startLineOffset st l = Returns st' ->
      JavaScriptParser.lineNum st' = JavaScriptParser.lineNum st + 1
      /\ (JavaScriptParser.elements st' = JavaScriptParser.elements st
          \/ (exists properties,
                 JavaScriptParser.elements st'
                 = (JavaScriptParser.elements st
                    ++ [JavaScriptParser.exportDefaultElement
                          (JavaScriptParser.lineNum st' + startLineOffset)
                          properties])%list)
          \/ (exists e,
                 JavaScriptParser.elements st'
                 = (JavaScriptParser.elements st ++ [e])%list
                 /\ line e = JavaScriptParser.lineNum st')))
  /\ (exists script export,
         VueParser.parse Examples.vueComponent = Returns [script]
         /\ children script = [export]
         /\ Examples.vueComponent !! 1%nat = Some "export default {"
         /\ name export = "export default"
         /\ line export = 3)
  /\ (exists script foo,
         VueParser.parse Examples.vueFunction = Returns [script]
         /\ children script = [foo]
         /\ Examples.vueFunction !! 2%nat = Some "function foo() {}"
         /\ name foo = "foo"
         /\ line foo = 2).
Proof.
  split; [apply scanLine_reported_line | ].
  split; do 2 eexists; (split; [vm_compute; reflexivity | repeat split]).
Qed.

(** C5 at the line [function bar() {}] of a fragment scanned with the
    offset 10: the line counter goes from 0 to 1. *)
Lemma C5_reported_lines_in_a_script_block_witness :
  JavaScriptParser.lineNum
    (JavaScriptParser.mkState
       [Examples.plain "bar" Function Default 1 [] None None] 1 false 0 0)
  = JavaScriptParser.lineNum JavaScriptParser.initial + 1.
Proof.
  apply (proj1 C5_reported_lines_in_a_script_block
           ["function bar() {}"] 10 JavaScriptParser.initial
           "function bar() {}").
  vm_compute. reflexivity.
Defined.

(** ** C6: markup nesting *)

(** C6 does not hold as stated: when the markup
    [<div id="x"><span>...</span></div>] is one line, the tag-stack
    scanner sees the first tag of the line only; the [div] named [x] has
    no child.  ([HtmlParser], the scanner registered for markup files,
    keeps no stack: it returns one flat element named [div].) *)
Lemma C6_one_line_div_has_no_child :
  exists div,
    VueParser.parseTemplateContent Examples.divOneLine 1 = Returns [div]
    /\ name div = "x"
    /\ children div = []
    /\ HtmlParser.parse Examples.divOneLine = Returns Examples.divFlatTree.
Proof.
  eexists. split; [vm_compute; reflexivity | ].
  split; [reflexivity | split; [reflexivity | vm_compute; reflexivity]].
Qed.

(** C6, as amended.  Scanning [<div id="x">], [<span>...</span>],
    [</div>] (one tag per line) with the tag-stack scanner yields one
    [div] element, named [x] after its id attribute, whose single child
    is a [span] element. *)
Theorem C6_div_with_span :
  exists div span,
    VueParser.parseTemplateContent Examples.divLines 1 = Returns [div]
    /\ tagName div = Some "div"
    /\ name div = "x"
    /\ children div = [span]
    /\ tagName span = Some "span"
    /\ children span = [].
Proof.
  do 2 eexists. split; [vm_compute; reflexivity | repeat split].
Qed.

(** ** C7: a container file without region tags *)

(** C7 fails on the code.  What [VueParser.parse] returns is always the
    array [elements] of its scan, never the result of the script scanner
    on the whole input: the lines of a script are only collected once a
    script tag was seen, and then [elements] is not empty.  So for a file
    in which no line opens a template, script or style region it returns
    the empty list. *)
Theorem C7_no_region_tags_gives_nothing (lines : list string) :
  VueParser.parse lines
  = (st ← VueParser.scan lines VueParser.initial;
     mret (VueParser.elements st))
  /\ (forallb (fun l => negb (hasRegionTag l)) lines = true ->
      VueParser.parse lines = Returns []).
Proof.
  split; [apply parse_never_falls_back | ].
  intros H. unfold VueParser.parse, VueParser.initial.
  destruct (scan_without_region_tags lines 0 H) as [n ->]. reflexivity.
Qed.

(** C7 at the file [function foo() {}]: the container scanner returns
    nothing, the script scanner would return the function. *)
Lemma C7_no_region_tags_gives_nothing_witness :
  VueParser.parse Examples.noRegionTags = Returns []
  /\ VueParser.parseScriptContent Examples.noRegionTags 0
     = Returns Examples.noRegionTagsTree.
Proof.
  split.
  - apply (proj2 (C7_no_region_tags_gives_nothing Examples.noRegionTags)).
    vm_compute. reflexivity.
  - vm_compute. reflexivity.
Defined.

(** ** C8: documentation of a method *)

(** C8 fails on the code in one point.  For the lines
    [/// <summary>Add two numbers</summary>],
    [/// <param name="a">first</param>],
    [public int Add(int a,int b){}] in a class frame the documentation
    pass yields the summary and the pair [("a", "first")], and the element
    has the comment [Add two numbers]; but its field [params] is not set:
    [createElement] never sets it, the parameter descriptions only appear
    as the children of the parameters node.  [returns] is what the
    documentation pass yields. *)
Theorem C8_documented_add :
  extractXmlCommentInfo Examples.documentedAdd 3
  = mkXmlCommentInfo (Some "Add two numbers") (Some [("a", "first")]) None
  /\ (exists cls add,
         CSharpParser.parse Examples.documentedAdd = Returns [cls]
         /\ children cls = [add]
         /\ name add = "Add"
         /\ comment add = Some "Add two numbers"
         /\ params add = None
         /\ children add = [descriptionNode 4 "Add two numbers";
                            paramsNode 4 [("a", "first")]])
  /\ (forall n t l lineText lines returnType parameters lineIndex,
         exists e,
           createElement n t l lineText lines returnType parameters lineIndex
           = Returns e
           /\ params e = None
           /\ returns e
              = info_returns
                  (extractXmlCommentInfo lines (default (l - 1) lineIndex))).
Proof.
  split; [vm_compute; reflexivity | split].
  - do 2 eexists. split; [vm_compute; reflexivity | repeat split].
  - intros n t l lineText lines returnType parameters lineIndex.
    destruct (createElement_returns n t l lineText lines returnType
                parameters lineIndex) as [c ->].
    eexists. split; [reflexivity | split; reflexivity].
Qed.

(** ** C9: the dispatcher *)

(** C9.  When the normalized extension of a path (from its last dot on,
    in lower case) has no factory in the registry, [createParser] returns
    [null], it does not throw; and after [registerParser(k, f)], whatever
    the registry held for [k] before, [createParser] on a path with the
    extension [k] returns an instance of [f]. *)
Theorem C9_dispatch (registry : gmap string ParserFactory.ParserClass)
    (filePath : string) (k : string) (f : ParserFactory.ParserClass)
    (filePath' : string) :
  (registry !! ParserFactory.extension filePath = None ->
   ParserFactory.createParser registry filePath = None)
  /\ (ParserFactory.extension filePath' = toLowerCase k ->
      ParserFactory.createParser (ParserFactory.registerParser k f registry)
        filePath'
      = Some (ParserFactory.New f)).
Proof.
  split.
  - intros H. unfold ParserFactory.createParser. rewrite H. reflexivity.
  - intros H. unfold ParserFactory.createParser, ParserFactory.registerParser.
    rewrite H. rewrite lookup_insert_eq. reflexivity.
Qed.

(** C9 at the initial registry: [README.md] has no parser, and a class
    registered for [.CS] replaces the one of [.cs]. *)
Lemma C9_dispatch_witness :
  ParserFactory.createParser ParserFactory.parsers "README.md" = None
  /\ ParserFactory.createParser
       (ParserFactory.registerParser ".CS" (ParserFactory.Custom "RoslynParser")
          ParserFactory.parsers)
       "src/Program.cs"
     = Some (ParserFactory.New (ParserFactory.Custom "RoslynParser")).
Proof.
  split.
  - apply (proj1 (C9_dispatch ParserFactory.parsers "README.md" ".CS"
                    (ParserFactory.Custom "RoslynParser") "src/Program.cs")).
    vm_compute. reflexivity.
  - apply (proj2 (C9_dispatch ParserFactory.parsers "README.md" ".CS"
                    (ParserFactory.Custom "RoslynParser") "src/Program.cs")).
    vm_compute. reflexivity.
Defined.

(** ** C10: the shape of the synthesized children *)

(** The children that [createElement] pushes, one by one: the parameters
    node is the one named [方法参数:]; it stands over one leaf per
    documented parameter, in their order; the two other nodes are
    leaves. *)
Lemma pseudoChildren_nodes l summary ps returns :
  Forall (fun c =>
            pseudo l c
            /\ if String.eqb (name c) "方法参数:"
               then exists documented,
                      ps = Some documented
                      /\ documented <> []
                      /\ Forall2 (fun p g =>
                                    name g = fst p
                                    /\ comment g
                                       = Some (strip_leading "/" (snd p))
                                    /\ pseudo l g
                                    /\ children g = [])
                           documented (children c)
               else children c = [])
    (pseudoChildren l summary ps returns).
Proof.
  unfold pseudoChildren. repeat apply Forall_app_2.
  - destruct summary as [c | ]; [ | constructor].
    destruct (truthy c); [ | constructor].
    constructor; [ | constructor]. split; [repeat split | reflexivity].
  - destruct ps as [documented | ]; [ | constructor].
    destruct (Nat.ltb 0 (length documented)) eqn:Hlen; [ | constructor].
    constructor; [ | constructor]. split; [repeat split | ].
    change (String.eqb (name (paramsNode l documented)) "方法参数:") with true.
    cbv iota. exists documented. split; [reflexivity | ]. split.
    + intros ->. discriminate.
    + simpl. clear Hlen.
      induction documented as [ | p documented IH]; simpl; constructor.
      * repeat split.
      * exact IH.
  - destruct returns as [r | ]; [ | constructor].
    destruct (truthy r); [ | constructor].
    constructor; [ | constructor]. split; [repeat split | reflexivity].
Qed.

(** The parameters node is among the children as soon as a parameter is
    documented. *)
Lemma pseudoChildren_parameters l summary p ps returns :
  Exists (fun c => name c = "方法参数:")
    (pseudoChildren l summary (Some (p :: ps)) returns).
Proof.
  unfold pseudoChildren. apply Exists_app. right. apply Exists_app. left.
  simpl. constructor. reflexivity.
Qed.

(** C10.  Every child that [createElement] gives to the element it
    returns carries the line of that element, the access modifier
    [Default] and the kind [Variable_].  The child named [方法参数:], the
    parameters node, stands over exactly the nodes of the documented
    parameters: there is at least one documented parameter, and the
    children of the node are, one per parameter and in their order, a
    node with the name of the parameter and its description, the line of
    the element, [Default], [Variable_] and no children.  Every other
    child, the description node and the returns node, has no children.
    The parameters node is there whenever a method or a constructor has
    a documented parameter, and an element of another kind has no
    children at all. *)
Theorem C10_pseudo_elements
    (n : string) (t : CodeElementType.t) (l : Z) (lineText : string)
    (lines : list string) (returnType parameters : option string)
    (lineIndex : option Z) :
  exists e,
    createElement n t l lineText lines returnType parameters lineIndex
    = Returns e
    /\ Forall (fun c =>
                 pseudo (line e) c
                 /\ if String.eqb (name c) "方法参数:"
                    then exists documented,
                           info_params
                             (extractXmlCommentInfo lines
                                (default (l - 1) lineIndex))
                           = Some documented
                           /\ documented <> []
                           /\ Forall2 (fun p g =>
                                         name g = fst p
                                         /\ comment g
                                            = Some (strip_leading "/" (snd p))
                                         /\ pseudo (line e) g
                                         /\ children g = [])
                                documented (children c)
                    else children c = [])
         (children e)
    /\ (if CodeElementType.eqb t Method || CodeElementType.eqb t Constructor
        then match info_params
                     (extractXmlCommentInfo lines (default (l - 1) lineIndex))
             with
             | Some (_ :: _) =>
                 Exists (fun c => name c = "方法参数:") (children e)
             | _ => True
             end
        else children e = []).
Proof.
  destruct (createElement_returns n t l lineText lines returnType
              parameters lineIndex) as [c ->].
  eexists. split; [reflexivity | ]. simpl.
  destruct (_ || _).
  - split; [apply pseudoChildren_nodes | ].
    destruct (info_params _) as [[ | p ps] | ]; try exact I.
    apply pseudoChildren_parameters.
  - split; [constructor | reflexivity].
Qed.

(** * Lemmas for the further properties *)

(** ** Loops with [break] *)

Lemma forLoop_returns {St : Type} (P : St -> Prop) (Q : Z -> Prop)
    (body : Z -> St -> js (St * bool)) todo st :
  (forall i st, Q i -> P st -> exists r, body i st = Returns r /\ P (fst r)) ->
  Forall Q todo -> P st ->
  exists st', JavaScriptParser.forLoop body todo st = Returns st' /\ P st'.
Proof.
  intros Hbody Hall. revert st.
  induction Hall as [ | i todo Hi _ IH]; intros st Hst; simpl; [eauto | ].
  destruct (Hbody i st Hi Hst) as ([st' b] & -> & Hst'). simpl.
  destruct b; [eauto | apply IH; assumption].
Qed.

Lemma contentRange_in_range lines startLine endLine :
  1 <= startLine ->
  Forall (fun i => 0 <= i < lengthZ lines)
    (JavaScriptParser.contentRange lines startLine endLine).
Proof.
  intros H. unfold JavaScriptParser.contentRange.
  eapply Forall_impl; [apply for_up_range | ]. simpl. lia.
Qed.

Section ScriptScannerReturns.
Import JavaScriptParser.

Lemma exec_group_returns i r s m :
  binds i r = true -> exec r s = Some m -> exists g, group m i = Returns g.
Proof.
  intros Hb Hm. destruct (exec_binds i r s m Hb Hm) as [g Hg].
  exists g. unfold group. rewrite Hg. reflexivity.
Qed.

Lemma methodsLine_returns lines startLineOffset i st :
  0 <= i < lengthZ lines ->
  exists r, methodsLine lines startLineOffset i st = Returns r.
Proof.
  intros Hi. unfold methodsLine.
  destruct (lookupZ_in_range lines i Hi) as [l ->].
  unfold defined. rewrite bind_returns.
  destruct (isBlankOrComment (trim l)); [eauto | ].
  destruct (_ && _); [eauto | ].
  destruct (negb _); [eauto | ].
  destruct (inMethodBody st); [eauto | ].
  destruct (firstMatch _ (trim l)) as [m | ] eqn:E.
  - group_ok 1%nat g.
    assert (Hp : exists p,
      match exec re_params (trim l) with
      | Some paramMatch => group paramMatch 1
      | None => mret EmptyString
      end = Returns p).
    { destruct (exec re_params (trim l)) as [pm | ] eqn:Ep; [ | eexists; reflexivity].
      eapply exec_group_returns; [ | exact Ep]. reflexivity. }
    destruct Hp as [p ->]. rewrite bind_returns.
    destruct (createElement_returns g Method (i + 1 + startLineOffset) l lines
                None (Some p) (Some i)) as [c ->].
    rewrite bind_returns. eauto.
  - destruct (String.eqb _ _); eauto.
Qed.

Lemma bagLine_returns key patterns type lines startLineOffset i st :
  forallb (binds 1) patterns = true ->
  0 <= i < lengthZ lines ->
  exists r, bagLine key patterns type lines startLineOffset i st = Returns r.
Proof.
  intros Hb Hi. unfold bagLine.
  destruct (lookupZ_in_range lines i Hi) as [l ->].
  unfold defined. rewrite bind_returns.
  destruct (isBlankOrComment (trim l)); [eauto | ].
  destruct (_ && _); [eauto | ].
  destruct (negb _); [eauto | ].
  destruct (firstMatch patterns (trim l)) as [m | ] eqn:E; [ | eauto].
  destruct (group_returns 1 patterns (trim l) m Hb E) as [g ->].
  rewrite bind_returns.
  destruct (createElement_returns g type (i + 1 + startLineOffset) l lines
              None None (Some i)) as [c ->].
  rewrite bind_returns. eauto.
Qed.

Lemma dataLine_returns lines startLineOffset i st :
  0 <= i < lengthZ lines ->
  exists r, dataLine lines startLineOffset i st = Returns r.
Proof.
  intros Hi. unfold dataLine.
  destruct (lookupZ_in_range lines i Hi) as [l ->].
  unfold defined. rewrite bind_returns.
  destruct (isBlankOrComment (trim l)); [eauto | ].
  destruct (_ && _); [eauto | ].
  destruct (negb _); [eauto | ].
  destruct (_ && _); [eauto | ].
  destruct (negb _); [eauto | ].
  destruct (exec re_entry (trim l)) as [m | ] eqn:E; [ | eauto].
  destruct (exec_group_returns 1 re_entry (trim l) m eq_refl E) as [g ->].
  rewrite bind_returns.
  destruct (createElement_returns g Variable_ (i + 1 + startLineOffset) l lines
              None None (Some i)) as [c ->].
  rewrite bind_returns. eauto.
Qed.

(** a loop whose body returns at every index returns *)
Lemma forLoop_total {St : Type} (Q : Z -> Prop)
    (body : Z -> St -> js (St * bool)) todo st :
  (forall i st, Q i -> exists r, body i st = Returns r) ->
  Forall Q todo ->
  exists st', forLoop body todo st = Returns st'.
Proof.
  intros Hbody Hall.
  destruct (forLoop_returns (fun _ => True) Q body todo st) as (st' & H & _);
    [ | assumption | exact I | eauto].
  intros i s Hi _. destruct (Hbody i s Hi) as [r Hr]. eauto.
Qed.

Lemma parseMethodsContent_returns lines startLine endLine startLineOffset :
  1 <= startLine ->
  exists cs,
    parseMethodsContent lines startLine endLine startLineOffset = Returns cs.
Proof.
  intros Hs. unfold parseMethodsContent.
  destruct (forLoop_total _ (methodsLine lines startLineOffset) _
              (mkMethodsState [] 0 false false 0)
              (fun i st => methodsLine_returns lines startLineOffset i st)
              (contentRange_in_range lines startLine endLine Hs)) as [st ->].
  rewrite bind_returns. eauto.
Qed.

Lemma parseBagContent_returns key patterns type lines startLine endLine
    startLineOffset :
  forallb (binds 1) patterns = true -> 1 <= startLine ->
  exists cs,
    parseBagContent key patterns type lines startLine endLine startLineOffset
    = Returns cs.
Proof.
  intros Hb Hs. unfold parseBagContent.
  destruct (forLoop_total _ (bagLine key patterns type lines startLineOffset) _
              (mkBagState [] 0 false)
              (fun i st => bagLine_returns key patterns type lines
                             startLineOffset i st Hb)
              (contentRange_in_range lines startLine endLine Hs)) as [st ->].
  rewrite bind_returns. eauto.
Qed.

Lemma parseDataContent_returns lines startLine endLine startLineOffset :
  1 <= startLine ->
  exists cs, parseDataContent lines startLine endLine startLineOffset = Returns cs.
Proof.
  intros Hs. unfold parseDataContent.
  destruct (forLoop_total _ (dataLine lines startLineOffset) _
              (mkDataState [] 0 false false)
              (fun i st => dataLine_returns lines startLineOffset i st)
              (contentRange_in_range lines startLine endLine Hs)) as [st ->].
  rewrite bind_returns. eauto.
Qed.

Lemma parseContent_returns k lines startLine endLine startLineOffset content :
  1 <= startLine ->
  parseContent k lines startLine endLine startLineOffset = Some content ->
  exists cs, content = Returns cs.
Proof.
  intros Hs. destruct k; simpl; intros [= <-].
  - apply parseDataContent_returns; assumption.
  - apply parseMethodsContent_returns; assumption.
  - apply parseBagContent_returns; [reflexivity | assumption].
  - apply parseBagContent_returns; [reflexivity | assumption].
  - apply parseBagContent_returns; [reflexivity | assumption].
Qed.

Lemma closeProperty_returns lines startLineOffset i braceCount cp
    lineBraceCount st :
  1 <= op_startLine cp ->
  exists st',
    closeProperty lines startLineOffset i braceCount cp lineBraceCount st
    = Returns st' /\ opened st'.
Proof.
  intros Hcp. unfold closeProperty. simpl.
  destruct (_ <=? 0).
  - destruct (findByName (op_name cp) (properties st)) as [place | ].
    + destruct (parseContent (op_type cp) lines (op_startLine cp) (i + 1)
                  startLineOffset) as [content | ] eqn:E.
      * destruct (parseContent_returns _ _ _ _ _ _ Hcp E) as [cs ->].
        rewrite bind_returns. eexists; split; [reflexivity | ].
        intros cp' [=].
      * eexists; split; [reflexivity | ]. intros cp' [=].
    + eexists; split; [reflexivity | ]. intros cp' [=].
  - eexists; split; [reflexivity | ]. intros cp' [= <-]. exact Hcp.
Qed.

Lemma exportLine_returns lines startLineOffset i st :
  0 <= i < lengthZ lines -> opened st ->
  exists r, exportLine lines startLineOffset i st = Returns r /\ opened (fst r).
Proof.
  intros Hi Hop. unfold exportLine.
  destruct (lookupZ_in_range lines i Hi) as [l ->].
  unfold defined. rewrite bind_returns.
  destruct (isBlankOrComment (trim l)); [eauto | ].
  destruct (_ && _); [eexists; split; [reflexivity | exact Hop] | ].
  destruct (negb _); [eauto | ].
  destruct (currentProperty st) as [cp | ] eqn:Hcp.
  - destruct (closeProperty_returns lines startLineOffset i
                (e_braceCount st + netBraces (trim l)) cp (netBraces (trim l)) st
                (Hop cp Hcp)) as (st' & -> & Hst').
    rewrite bind_returns. eauto.
  - destruct (matchingProperty (trim l)) as [[[propName r] kind] | ].
    + destruct (createElement_returns propName Property (i + 1 + startLineOffset)
                  l lines None None (Some i)) as [c ->].
      rewrite bind_returns. eexists; split; [reflexivity | ]. simpl.
      intros cp. destruct (tracked kind); [ | discriminate].
      intros [= <-]. simpl. lia.
    + eexists; split; [reflexivity | ]. intros cp [=].
Qed.

Lemma parseExportDefaultProperties_returns lines startLine startLineOffset :
  1 <= startLine ->
  exists ps,
    parseExportDefaultProperties lines startLine startLineOffset = Returns ps.
Proof.
  intros Hs. unfold parseExportDefaultProperties.
  destruct (forLoop_returns opened (fun i => 0 <= i < lengthZ lines)
              (exportLine lines startLineOffset)
              (for_up (startLine - 1) (lengthZ lines - 1))
              (mkExportState [] 0 false None)) as (st & -> & _).
  - intros i st. apply exportLine_returns.
  - eapply Forall_impl; [apply for_up_range | ]. simpl. lia.
  - intros cp [=].
  - rewrite bind_returns. eauto.
Qed.

Lemma js_parseSimple_returns rs type line lineNum lines :
  forallb (binds 1) rs = true ->
  exists o, parseSimple rs type line lineNum lines = Returns o.
Proof.
  intros Hb. unfold parseSimple.
  destruct (firstMatch rs line) as [m | ] eqn:E; [ | eauto].
  destruct (group_returns 1 rs line m Hb E) as [g ->]. rewrite bind_returns.
  destruct (createElement_returns g type lineNum line lines None None None)
    as [c ->].
  rewrite bind_returns. eauto.
Qed.

Lemma parseDeclaration_returns trimmedLine lineNum lines :
  exists o, parseDeclaration trimmedLine lineNum lines = Returns o.
Proof.
  unfold parseDeclaration, parseClass, parseFunction, parseInterface.
  destruct (js_parseSimple_returns [re_class] Class trimmedLine lineNum lines
              eq_refl) as [[e | ] ->]; rewrite bind_returns; [eauto | ].
  destruct (js_parseSimple_returns [re_function1; re_function2; re_function3]
              Function trimmedLine lineNum lines eq_refl) as [[e | ] ->];
    rewrite bind_returns; [eauto | ].
  apply js_parseSimple_returns. reflexivity.
Qed.

Lemma js_scanLine_returns lines startLineOffset st line :
  0 <= lineNum st ->
  exists st',
    scanLine lines startLineOffset st line = Returns st'
    /\ lineNum st' = lineNum st + 1.
Proof.
  intros Hn. unfold scanLine.
  destruct (isComment (trim line)); [eauto | ].
  destruct (_ && _).
  - assert (H : exists ps,
      (if 0 <? netBraces (trim line)
       then parseExportDefaultProperties lines (lineNum st + 1) startLineOffset
       else mret []) = Returns ps).
    { destruct (0 <? _); [ | eexists; reflexivity].
      apply parseExportDefaultProperties_returns. lia. }
    destruct H as [ps ->]. rewrite bind_returns. eauto.
  - destruct (inExportDefault st); [eauto | ].
    destruct (parseDeclaration_returns (trim line) (lineNum st + 1) lines)
      as [[e | ] ->]; rewrite bind_returns; eauto.
Qed.

Lemma js_scan_returns lines startLineOffset todo st :
  0 <= lineNum st ->
  exists st', scan lines startLineOffset todo st = Returns st'.
Proof.
  revert st. induction todo as [ | line todo IH]; intros st Hn; simpl; [eauto | ].
  destruct (js_scanLine_returns lines startLineOffset st line Hn)
    as (st' & -> & Hn').
  rewrite bind_returns. apply IH. lia.
Qed.

Lemma js_parse_returns lines startLineOffset :
  exists elements, parse lines startLineOffset = Returns elements.
Proof.
  unfold parse.
  destruct (js_scan_returns lines startLineOffset lines initial) as [st ->];
    [simpl; lia | ].
  rewrite bind_returns. eauto.
Qed.

End ScriptScannerReturns.

(** ** VueParser: [parse] never throws *)

Lemma closeScript_returns st :
  placed st -> exists els, VueParser.closeScript st = Returns els.
Proof.
  intros Hp. unfold VueParser.closeScript.
  destruct (VueParser.scriptElement st) as [place | ] eqn:E; [ | eauto].
  destruct (Nat.ltb 0 _); [ | eauto].
  destruct (Hp place E) as [script ->].
  unfold defined. rewrite bind_returns. unfold VueParser.parseScriptContent.
  destruct (js_parse_returns (VueParser.scriptContent st)
              (line script + 1)) as [es ->].
  rewrite bind_returns. destruct (Nat.ltb 0 _); eauto.
Qed.

Lemma vue_scanLine_returns st line :
  placed st ->
  exists st', VueParser.scanLine st line = Returns st' /\ placed st'.
Proof.
  intros Hp. unfold VueParser.scanLine.
  destruct (VueParser.isTag "template" (trim line)); [eauto | ].
  destruct (_ && _); [eauto | ].
  destruct (VueParser.inTemplate st); [eauto | ].
  destruct (includes (trim line) "<script").
  { eexists; split; [reflexivity | ]. intros p [= <-]. simpl.
    rewrite lookup_app_r by reflexivity. rewrite Nat.sub_diag. simpl. eauto. }
  destruct (_ && _).
  { destruct (closeScript_returns st Hp) as [els ->]. rewrite bind_returns.
    eexists; split; [reflexivity | ]. intros p [=]. }
  destruct (VueParser.isTag "style" (trim line)).
  { eexists; split; [reflexivity | ]. intros p Hsome. simpl in *.
    destruct (Hp p Hsome) as [e He].
    exists e. apply lookup_app_l_Some. exact He. }
  destruct (_ && _); eexists; (split; [reflexivity | exact Hp]).
Qed.

Lemma vue_scan_returns todo st :
  placed st -> exists st', VueParser.scan todo st = Returns st'.
Proof.
  revert st. induction todo as [ | line todo IH]; intros st Hp; simpl; [eauto | ].
  destruct (vue_scanLine_returns st line Hp) as (st' & -> & Hp').
  rewrite bind_returns. apply IH. assumption.
Qed.

Lemma vue_parse_returns lines :
  exists elements, VueParser.parse lines = Returns elements.
Proof.
  unfold VueParser.parse.
  destruct (vue_scan_returns lines VueParser.initial) as [st ->];
    [intros p [=] | ].
  rewrite bind_returns. destruct (_ && _); [ | eauto].
  apply js_parse_returns.
Qed.

(** ** HtmlParser: [parse] never throws *)

Lemma parseScriptTag_returns line lineNum lines :
  exists o, HtmlParser.parseScriptTag line lineNum lines = Returns o.
Proof.
  unfold HtmlParser.parseScriptTag.
  destruct (exec HtmlParser.re_script line) as [scriptMatch | ]; [ | eauto].
  assert (H : exists n,
    match exec HtmlParser.re_id line, exec HtmlParser.re_src line with
    | Some m, _ => group m 1
    | None, Some m => group m 1
    | None, None => mret "script"
    end = Returns n).
  { destruct (exec HtmlParser.re_id line) as [m | ] eqn:E1.
    - eapply exec_group_returns; [ | exact E1]. reflexivity.
    - destruct (exec HtmlParser.re_src line) as [m | ] eqn:E2.
      + eapply exec_group_returns; [ | exact E2]. reflexivity.
      + eexists; reflexivity. }
  destruct H as [n ->]. rewrite bind_returns.
  destruct (createElement_returns n Module lineNum line lines None None None)
    as [c ->].
  rewrite bind_returns. eauto.
Qed.

Lemma parseMainElement_returns line lineNum lines :
  exists o, HtmlParser.parseMainElement line lineNum lines = Returns o.
Proof.
  unfold HtmlParser.parseMainElement.
  destruct (exec HtmlParser.re_main line) as [m | ] eqn:E; [ | eauto].
  destruct (exec_binds 1 HtmlParser.re_main line m eq_refl E) as [g Hg].
  assert (H : exists n,
    HtmlParser.orElse (groups m 2%nat)
      (HtmlParser.orElse (groups m 3%nat) (groups m 1%nat)) = Some n).
  { unfold HtmlParser.orElse.
    destruct (groups m 2%nat) as [g2 | ]; simpl.
    - destruct (truthy g2); [eauto | ].
      destruct (groups m 3%nat) as [g3 | ]; simpl.
      + destruct (truthy g3); eauto.
      + eauto.
    - destruct (groups m 3%nat) as [g3 | ]; simpl.
      + destruct (truthy g3); eauto.
      + eauto. }
  destruct H as [n ->]. unfold defined. rewrite bind_returns.
  destruct (createElement_returns n Module lineNum line lines None None None)
    as [c ->].
  rewrite bind_returns. eauto.
Qed.

(** ** CSharpParser: the shape of the trees *)

Section BraceDepthShape.
Import CSharpParser.

Lemma pseudoChildren_pseudoShape l comment ps returns :
  Forall pseudoShape (pseudoChildren l comment ps returns).
Proof.
  eapply Forall_impl; [apply pseudoChildren_shape | ]. simpl.
  intros c [(_ & _ & Ht) [Hleaf | (d & _ & _ & Hsub)]]; split; try exact Ht.
  - rewrite Hleaf. constructor.
  - eapply Forall_impl; [exact Hsub | ]. simpl.
    intros g [(_ & _ & Hg) Hl]. split; assumption.
Qed.

Lemma declared_children t e :
  declared t e ->
  type e = t
  /\ (if CodeElementType.eqb t Method || CodeElementType.eqb t Constructor
      then Forall pseudoShape (children e) else leaf e).
Proof.
  intros (n & l & lt & ls & rt & ps & idx & c & ->).
  split; [reflexivity | ]. unfold created, leaf. simpl.
  destruct (_ || _); [apply pseudoChildren_pseudoShape | reflexivity].
Qed.

Lemma declared_memberShape t e :
  declared t e ->
  t = Constructor \/ t = Method \/ t = Property \/ t = Field ->
  memberShape e.
Proof.
  intros Hd Ht. apply declared_children in Hd as [Hte Hc].
  unfold memberShape. rewrite Hte.
  destruct Ht as [-> | [-> | [-> | ->]]]; simpl in Hc; auto.
Qed.

Lemma declared_typeShape t e :
  declared t e -> t = Class \/ t = Interface \/ t = Enum -> typeShape e.
Proof.
  intros Hd Ht. apply declared_children in Hd as [Hte Hc].
  unfold typeShape. rewrite Hte.
  destruct Ht as [-> | [-> | ->]]; simpl in Hc; auto.
  left. split; [reflexivity | ]. rewrite Hc. constructor.
Qed.

Lemma parseMethod_memberShape line lineNum lines className e :
  parseMethod line lineNum lines className = Returns (Some e) -> memberShape e.
Proof.
  intros H. apply parseMethod_member in H as [[Hd _] | Hd];
    eapply declared_memberShape; eauto.
Qed.

Lemma parseMember_memberShape line lineNum lines className e opens :
  parseMember line lineNum lines className = Returns (Some (e, opens)) ->
  memberShape e.
Proof.
  unfold parseMember. intros H.
  apply bind_inv in H as ([c | ] & Hc & H).
  { injection H as <- <-. apply parseConstructor_member in Hc as [Hd _].
    eapply declared_memberShape; eauto. }
  apply bind_inv in H as ([m | ] & Hm & H).
  { injection H as <- <-. eapply parseMethod_memberShape; eauto. }
  apply bind_inv in H as ([p | ] & Hp & H).
  { injection H as <- <-. apply parseProperty_declared in Hp.
    eapply declared_memberShape; eauto. }
  apply bind_inv in H as ([f | ] & Hf & H); [ | discriminate].
  injection H as <- <-. apply parseField_declared in Hf.
  eapply declared_memberShape; eauto 6.
Qed.

(** The three closing tests only forget references. *)
Lemma shaped_close st :
  shaped st -> shaped (closeMethod (closeClass (closeNamespace st))).
Proof.
  intros Hv.
  assert (H1 : shaped (closeNamespace st)).
  { unfold closeNamespace. destruct (_ && _); [ | assumption].
    destruct Hv as (Hall & _ & _).
    split; [exact Hall | split; simpl; discriminate]. }
  assert (H2 : shaped (closeClass (closeNamespace st))).
  { revert H1. generalize (closeNamespace st). intros s (Hall & Hn & Hc).
    unfold closeClass. destruct (_ && _); [ | repeat split; assumption].
    split; [exact Hall | split; [exact Hn | simpl; discriminate]]. }
  revert H2. generalize (closeClass (closeNamespace st)). intros s (Hall & Hn & Hc).
  unfold closeMethod. destruct (_ && _); repeat split; assumption.
Qed.

(** A type declaration goes to the open namespace or to the roots. *)
Lemma shaped_pushToScope x st :
  shaped st -> currentClass st = None -> typeShape x ->
  shaped (pushToScope x st).
Proof.
  intros (Hall & Hn & _) Hcur Hx. unfold pushToScope.
  destruct (currentNamespace st) as [i | ] eqn:Hi.
  - destruct (Hn i eq_refl) as (ns & Hns & Htns).
    split; [ | split]; simpl.
    + apply Forall_alter; [exact Hall | ].
      intros e He Hroot. rewrite Hns in He. injection He as <-.
      right. split; [exact Htns | ]. simpl.
      destruct Hroot as [[[Hcls _] | [[Hi' | He'] _]] | [_ Hsub]]; try congruence.
      apply Forall_app_2; [exact Hsub | ]. constructor; [exact Hx | constructor].
    + rewrite Hi. intros k [= <-]. rewrite list_lookup_alter_eq, Hns. simpl. eauto.
    + rewrite Hcur. discriminate.
  - split; [ | split]; simpl.
    + apply Forall_app_2; [exact Hall | ].
      constructor; [left; exact Hx | constructor].
    + rewrite Hi. discriminate.
    + rewrite Hcur. discriminate.
Qed.

(** A member goes to the open class. *)
Lemma shaped_pushToClass c x st :
  shaped st -> currentClass st = Some c -> memberShape x ->
  shaped (pushToClass c x st).
Proof.
  intros (Hall & Hn & Hc) Hcur Hx. specialize (Hc c Hcur).
  assert (Hclass : forall cls, type cls = Class -> typeShape cls ->
                               typeShape (push_child x cls)).
  { intros cls Ht [[_ Hm] | [[Hi | He] _]]; try congruence.
    left. split; [exact Ht | ]. simpl.
    apply Forall_app_2; [exact Hm | ]. constructor; [exact Hx | constructor]. }
  destruct c as [i | i j].
  - destruct Hc as (cls & Hcls & Ht).
    split; [ | split]; simpl.
    + apply Forall_alter; [exact Hall | ].
      intros e He Hroot. rewrite Hcls in He. injection He as <-.
      left. apply Hclass; [exact Ht | ].
      destruct Hroot as [Hts | [Hns _]]; [exact Hts | congruence].
    + intros k Hk. destruct (Hn k Hk) as (ns & Hns & Htns).
      destruct (decide (i = k)) as [-> | Hne].
      * rewrite list_lookup_alter_eq, Hns. simpl. eauto.
      * rewrite list_lookup_alter_ne by assumption. eauto.
    + rewrite Hcur. intros c' [= <-].
      rewrite list_lookup_alter_eq, Hcls. simpl. eauto.
  - destruct Hc as (ns & cls & Hns & Htns & Hcls & Ht).
    split; [ | split]; simpl.
    + apply Forall_alter; [exact Hall | ].
      intros e He Hroot. rewrite Hns in He. injection He as <-.
      right. split; [exact Htns | ]. simpl.
      destruct Hroot as [[[Hcls' _] | [[Hi' | He'] _]] | [_ Hsub]]; try congruence.
      apply Forall_alter; [exact Hsub | ].
      intros e He Hts. rewrite Hcls in He. injection He as <-.
      apply Hclass; assumption.
    + intros k Hk. destruct (Hn k Hk) as (ns' & Hns' & Htns').
      destruct (decide (i = k)) as [-> | Hne].
      * rewrite list_lookup_alter_eq, Hns'. simpl. eauto.
      * rewrite list_lookup_alter_ne by assumption. eauto.
    + rewrite Hcur. intros c' [= <-].
      rewrite list_lookup_alter_eq, Hns. simpl.
      eexists _, _. split; [reflexivity | ]. split; [exact Htns | ]. simpl.
      rewrite list_lookup_alter_eq, Hcls. simpl. eauto.
Qed.

Lemma shaped_openClass e floor st st' :
  shaped st -> currentClass st = None -> declared Class e ->
  openClass e floor st = Returns st' -> shaped st'.
Proof.
  intros Hv Hcur He H.
  pose proof (shaped_pushToScope e st Hv Hcur
                (declared_typeShape Class e He (or_introl eq_refl)))
    as (Hall & Hn & _).
  pose proof (declared_type _ _ He) as Hte.
  destruct Hv as (_ & Hn0 & _).
  unfold openClass in H. destruct (currentNamespace st) as [i | ] eqn:Hns.
  - apply bind_inv in H as (ns & Hi & H). injection H as <-.
    destruct (Hn0 i eq_refl) as (ns' & Hns' & Htns). rewrite Hns' in Hi.
    injection Hi as ->.
    split; [exact Hall | split; [exact Hn | ]]. simpl. intros c [= <-].
    unfold pushToScope. rewrite Hns. simpl.
    rewrite list_lookup_alter_eq, Hns'. simpl.
    eexists _, _. split; [reflexivity | ]. split; [exact Htns | ]. simpl.
    rewrite lookup_app_r by reflexivity. rewrite Nat.sub_diag. simpl. eauto.
  - injection H as <-.
    split; [exact Hall | split; [exact Hn | ]]. simpl. intros c [= <-].
    unfold pushToScope. rewrite Hns. simpl.
    rewrite lookup_app_r by reflexivity. rewrite Nat.sub_diag. simpl. eauto.
Qed.

Lemma scanLine_shaped lines st line st' :
  shaped st -> scanLine lines st line = Returns st' -> shaped st'.
Proof.
  intros Hv. unfold scanLine. destruct (isComment (trim line)).
  { intros [= <-]. exact Hv. }
  set (st0 := with_braceCount _ (with_lineNum _ st)).
  assert (Hv0 : shaped st0) by exact Hv.
  pose proof (shaped_close st0 Hv0) as Hv1.
  revert Hv1. generalize (closeMethod (closeClass (closeNamespace st0))).
  intros st1 Hinv H. pose proof Hinv as (Hall & Hn & Hc).
  apply bind_inv in H as ([e | ] & He & H).
  { injection H as <-.
    destruct (bool_decide (currentNamespace st1 = None)); [ | discriminate].
    destruct (bool_decide (currentClass st1 = None)) eqn:Hcur; [ | discriminate].
    apply bool_decide_eq_true in Hcur. simpl in He.
    apply parseSimple_declared in He.
    apply declared_children in He as [Hte Hleaf]. simpl in Hleaf.
    split; [ | split]; simpl.
    - apply Forall_app_2; [assumption | ]. constructor; [ | constructor].
      right. split; [exact Hte | ]. rewrite Hleaf. constructor.
    - intros i [= <-]. rewrite lookup_app_r by reflexivity.
      rewrite Nat.sub_diag. simpl. eauto.
    - rewrite Hcur. discriminate. }
  clear He. apply bind_inv in H as ([e | ] & He & H).
  { destruct (bool_decide (currentClass st1 = None)) eqn:Hcur; [ | discriminate].
    apply bool_decide_eq_true in Hcur. apply parseSimple_declared in He.
    eapply shaped_openClass; eauto. }
  clear He. destruct (currentClass st1) as [c | ] eqn:Hcur.
  - unfold inClass in H. apply bind_inv in H as (cls & _ & H).
    destruct (inMethod st1).
    + apply bind_inv in H as ([m | ] & Hm & H); injection H as <-.
      * apply (shaped_pushToClass c m); [exact Hinv | exact Hcur | ].
        eapply parseMethod_memberShape; eauto.
      * exact Hinv.
    + apply bind_inv in H as ([[m opens] | ] & Hm & H).
      * apply parseMember_memberShape in Hm.
        destruct opens; injection H as <-;
          (apply (shaped_pushToClass c m); [exact Hinv | exact Hcur | exact Hm]).
      * injection H as <-. exact Hinv.
  - unfold outsideClass in H. apply bind_inv in H as ([e | ] & He & H).
    + injection H as <-. apply parseSimple_declared in He.
      apply shaped_pushToScope; [exact Hinv | exact Hcur | ].
      eapply declared_typeShape; eauto.
    + clear He. apply bind_inv in H as ([e | ] & He & H); injection H as <-.
      * apply parseSimple_declared in He.
        apply shaped_pushToScope; [exact Hinv | exact Hcur | ].
        eapply declared_typeShape; eauto.
      * exact Hinv.
Qed.

Lemma scan_shaped lines todo st st' :
  shaped st -> scan lines todo st = Returns st' -> shaped st'.
Proof.
  revert st. induction todo as [ | line todo IH]; intros st Hv; simpl.
  - intros [= <-]. exact Hv.
  - intros H. apply bind_inv in H as (st1 & H1 & H).
    eapply IH; [ | exact H]. eapply scanLine_shaped; eauto.
Qed.

End BraceDepthShape.

(** ** Lines and order *)

Lemma everywhere_unfold P e :
  everywhere P e <-> P e /\ Forall (everywhere P) (children e).
Proof.
  destruct e as [n t a l cs c rt ps r pr tg]. simpl.
  assert (H : (fix all (cs : list CodeElement) : Prop :=
                 match cs with
                 | [] => True
                 | c :: cs' => everywhere P c /\ all cs'
                 end) cs <-> Forall (everywhere P) cs).
  { induction cs as [ | x cs IH]; simpl.
    - split; [constructor | trivial].
    - rewrite IH. split.
      + intros [Hx Hcs]. constructor; assumption.
      + intros Hall. inversion Hall; subst. split; assumption. }
  rewrite H. reflexivity.
Qed.

Lemma everywhere_impl (P Q : CodeElement -> Prop) e :
  (forall x, P x -> Q x) -> everywhere P e -> everywhere Q e.
Proof.
  intros HPQ. revert e.
  fix IH 1. intros [n t a l cs c rt ps r pr tg] [He Hcs]. split; [auto | ].
  clear He. induction cs as [ | x cs IHcs]; [exact I | ].
  destruct Hcs as [Hx Hcs]. split; [apply IH; exact Hx | apply IHcs; exact Hcs].
Qed.

Lemma everywhere_push P x e :
  (P e -> P (push_child x e)) ->
  everywhere P e -> everywhere P x -> everywhere P (push_child x e).
Proof.
  intros HP He Hx. apply everywhere_unfold in He as [He Hcs].
  apply everywhere_unfold. split; [auto | ]. simpl.
  apply Forall_app_2; [exact Hcs | constructor; [exact Hx | constructor]].
Qed.

Lemma everywhere_created (P : CodeElement -> Prop) n t l lineText lines
    returnType parameters lineIndex comment :
  (forall e, line e = l -> P e) ->
  everywhere P
    (created n t l lineText lines returnType parameters lineIndex comment).
Proof.
  intros HP. apply everywhere_unfold. split; [apply HP; reflexivity | ].
  unfold created. simpl. destruct (_ || _); [ | constructor].
  eapply Forall_impl; [apply pseudoChildren_shape | ]. simpl.
  intros c [(Hl & _ & _) Hc]. apply everywhere_unfold.
  split; [apply HP; exact Hl | ].
  destruct Hc as [-> | (d & _ & _ & Hsub)]; [constructor | ].
  eapply Forall_impl; [exact Hsub | ]. simpl.
  intros g [(Hg & _ & _) Hleaf]. apply everywhere_unfold.
  split; [apply HP; exact Hg | rewrite Hleaf; constructor].
Qed.

Lemma declared_everywhere (P : CodeElement -> Prop) t e :
  declared t e -> (forall x, line x = line e -> P x) -> everywhere P e.
Proof.
  intros (n & l & lt & ls & rt & ps & idx & c & ->) HP.
  apply everywhere_created. exact HP.
Qed.

Lemma inOrder_snoc es x :
  inOrder es -> Forall (fun e => line e < line x) es -> inOrder (es ++ [x]).
Proof.
  intros Hes Hall i j a b Hij Ha Hb.
  destruct (decide (j < length es)%nat) as [Hj | Hj].
  - rewrite lookup_app_l in Ha by lia. rewrite lookup_app_l in Hb by lia.
    exact (Hes i j a b Hij Ha Hb).
  - pose proof (lookup_lt_Some _ _ _ Hb) as Hlen.
    rewrite length_app in Hlen. simpl in Hlen.
    assert (j = length es) as -> by lia.
    rewrite lookup_app_r in Hb by lia. rewrite Nat.sub_diag in Hb.
    injection Hb as <-.
    rewrite lookup_app_l in Ha by lia.
    exact (Forall_lookup_1 _ _ _ _ Hall Ha).
Qed.

Lemma inOrder_alter f i es :
  (forall e, line (f e) = line e) -> inOrder es -> inOrder (alter f i es).
Proof.
  intros Hf Hes k j a b Hkj Ha Hb.
  assert (Hl : forall k a, alter f i es !! k = Some a ->
                 exists a', es !! k = Some a' /\ line a' = line a).
  { intros k' a' H. destruct (decide (i = k')) as [-> | Hne].
    - rewrite list_lookup_alter_eq in H.
      destruct (es !! k') as [x | ]; [ | discriminate]. injection H as <-.
      eauto.
    - rewrite list_lookup_alter_ne in H by assumption. eauto. }
  destruct (Hl k a Ha) as (a' & Ha' & <-).
  destruct (Hl j b Hb) as (b' & Hb' & <-).
  exact (Hes k j a' b' Hkj Ha' Hb').
Qed.

Lemma createElement_createdOn n t l lineText lines returnType parameters
    lineIndex e :
  createElement n t l lineText lines returnType parameters lineIndex = Returns e ->
  createdOn l e.
Proof. intros H. apply createElement_inv in H as [c ->]. repeat eexists. Qed.

Lemma createdOn_everywhere (P : CodeElement -> Prop) l e :
  createdOn l e -> (forall x, line x = l -> P x) -> everywhere P e.
Proof.
  intros (n & t & lt & ls & rt & ps & idx & c & ->) HP.
  apply everywhere_created. exact HP.
Qed.

Lemma createdOn_line l e : createdOn l e -> line e = l.
Proof. intros (n & t & lt & ls & rt & ps & idx & c & ->). reflexivity. Qed.

Section BraceDepthLines.
Import CSharpParser.

Lemma cs_parseSimple_createdOn r t line lineNum lines e :
  parseSimple r t line lineNum lines = Returns (Some e) -> createdOn lineNum e.
Proof.
  unfold parseSimple. destruct (exec r line); [ | discriminate].
  intros H. apply bind_inv in H as (g & _ & H).
  apply bind_inv in H as (e' & He' & [= <-]).
  eapply createElement_createdOn; eauto.
Qed.

Lemma parseConstructor_createdOn line lineNum lines className e :
  parseConstructor line lineNum lines className = Returns (Some e) ->
  createdOn lineNum e.
Proof.
  unfold parseConstructor.
  destruct (looksLikeProperty line); [discriminate | ].
  destruct (firstMatch _ line) as [m | ]; [ | discriminate].
  intros H. apply bind_inv in H as (g & _ & H).
  destruct (String.eqb g className); [ | discriminate].
  apply bind_inv in H as (e' & He' & [= <-]).
  eapply createElement_createdOn; eauto.
Qed.

Lemma parseMethod_createdOn line lineNum lines className e :
  parseMethod line lineNum lines className = Returns (Some e) ->
  createdOn lineNum e.
Proof.
  unfold parseMethod.
  destruct (looksLikeProperty line); [discriminate | ].
  destruct (firstMatch _ line) as [m | ]; [ | discriminate].
  intros H. apply bind_inv in H as (g1 & _ & H).
  apply bind_inv in H as (g2 & _ & H).
  destruct (_ && _);
    apply bind_inv in H as (e' & He' & [= <-]);
    eapply createElement_createdOn; eauto.
Qed.

Lemma parseProperty_createdOn line lineNum lines e :
  parseProperty line lineNum lines = Returns (Some e) -> createdOn lineNum e.
Proof.
  unfold parseProperty. destruct (firstMatch _ line) as [m | ]; [ | discriminate].
  intros H. apply bind_inv in H as (g & _ & H).
  apply bind_inv in H as (e' & He' & [= <-]).
  eapply createElement_createdOn; eauto.
Qed.

Lemma parseField_createdOn line lineNum lines e :
  parseField line lineNum lines = Returns (Some e) -> createdOn lineNum e.
Proof.
  unfold parseField. destruct (_ || _); [discriminate | ].
  destruct (negb _); [discriminate | ].
  destruct (firstMatch _ line) as [m | ]; [ | discriminate].
  intros H. apply bind_inv in H as (g & _ & H).
  apply bind_inv in H as (e' & He' & [= <-]).
  eapply createElement_createdOn; eauto.
Qed.

Lemma parseMember_createdOn line lineNum lines className e opens :
  parseMember line lineNum lines className = Returns (Some (e, opens)) ->
  createdOn lineNum e.
Proof.
  unfold parseMember. intros H.
  apply bind_inv in H as ([c | ] & Hc & H).
  { injection H as <- <-. eapply parseConstructor_createdOn; eauto. }
  apply bind_inv in H as ([m | ] & Hm & H).
  { injection H as <- <-. eapply parseMethod_createdOn; eauto. }
  apply bind_inv in H as ([p | ] & Hp & H).
  { injection H as <- <-. eapply parseProperty_createdOn; eauto. }
  apply bind_inv in H as ([f | ] & Hf & H); [ | discriminate].
  injection H as <- <-. eapply parseField_createdOn; eauto.
Qed.

(** A turn of the loop of the brace-depth scanner leaves the elements as
    they are, or appends one element to the roots, or pushes one element
    to the children of an element; the new element was created for the
    line that was read. *)
Lemma cs_scanLine_step lines st line st' :
  scanLine lines st line = Returns st' ->
  elements st' = elements st
  \/ exists e,
       createdOn (lineNum st + 1) e
       /\ (elements st' = (elements st ++ [e])%list
           \/ exists r, elements st' = update r (push_child e) (elements st)).
Proof.
  unfold scanLine. destruct (isComment (trim line)).
  { intros [= <-]. left. reflexivity. }
  set (st0 := with_braceCount _ (with_lineNum _ st)).
  assert (Hclose : forall s,
            elements (closeMethod (closeClass (closeNamespace s))) = elements s
            /\ lineNum (closeMethod (closeClass (closeNamespace s))) = lineNum s).
  { intros s. unfold closeMethod, closeClass, closeNamespace.
    repeat match goal with |- context [if ?b then _ else _] => destruct b end;
      split; reflexivity. }
  destruct (Hclose st0) as [Hels Hln]. revert Hels Hln.
  generalize (closeMethod (closeClass (closeNamespace st0))).
  intros st1 Hels Hln. simpl in Hels, Hln. intros H.
  assert (Hscope : forall e,
            createdOn (lineNum st1) e ->
            elements (pushToScope e st1) = elements st
            \/ exists x,
                 createdOn (lineNum st + 1) x
                 /\ (elements (pushToScope e st1) = (elements st ++ [x])%list
                     \/ exists r, elements (pushToScope e st1)
                                  = update r (push_child x) (elements st))).
  { intros e He. right. exists e. rewrite Hln in He. split; [exact He | ].
    unfold pushToScope. destruct (currentNamespace st1) as [i | ]; simpl;
      rewrite Hels; [right; exists (Root i) | left]; reflexivity. }
  assert (Hclass : forall c e s,
            createdOn (lineNum st1) e -> elements s = elements st1 ->
            elements (pushToClass c e s) = elements st
            \/ exists x,
                 createdOn (lineNum st + 1) x
                 /\ (elements (pushToClass c e s) = (elements st ++ [x])%list
                     \/ exists r, elements (pushToClass c e s)
                                  = update r (push_child x) (elements st))).
  { intros c e s He Hs. right. exists e. rewrite Hln in He. split; [exact He | ].
    right. exists c. simpl. rewrite Hs, Hels. reflexivity. }
  apply bind_inv in H as ([e | ] & He & H).
  { injection H as <-. right. exists e. simpl. rewrite Hels. split; [ | auto].
    rewrite <- Hln.
    destruct (_ && _); [ | discriminate].
    eapply cs_parseSimple_createdOn; eauto. }
  clear He. apply bind_inv in H as ([e | ] & He & H).
  { destruct (bool_decide (currentClass st1 = None)); [ | discriminate].
    apply cs_parseSimple_createdOn in He.
    unfold openClass in H. destruct (currentNamespace st1) eqn:Hns.
    - apply bind_inv in H as (ns & _ & H). injection H as <-. simpl.
      apply Hscope. exact He.
    - injection H as <-. simpl. apply Hscope. exact He. }
  clear He. destruct (currentClass st1) as [c | ].
  - unfold inClass in H. apply bind_inv in H as (cls & _ & H).
    destruct (inMethod st1).
    + apply bind_inv in H as ([e | ] & He & H); injection H as <-.
      * apply Hclass; [ | reflexivity]. eapply parseMethod_createdOn; eauto.
      * left. exact Hels.
    + apply bind_inv in H as ([[e opens] | ] & He & H).
      * apply parseMember_createdOn in He.
        destruct opens; injection H as <-; apply Hclass; auto.
      * injection H as <-. left. exact Hels.
  - unfold outsideClass in H. apply bind_inv in H as ([e | ] & He & H).
    + injection H as <-. apply Hscope. eapply cs_parseSimple_createdOn; eauto.
    + clear He. apply bind_inv in H as ([e | ] & He & H); injection H as <-.
      * apply Hscope. eapply cs_parseSimple_createdOn; eauto.
      * left. exact Hels.
Qed.

(** [alter] on a list whose members pass from [P] to [Q], the altered
    one through [f]. *)
Lemma Forall_alter_mono {A : Type} (P Q : A -> Prop) (f : A -> A) i xs :
  Forall P xs -> (forall x, P x -> Q x) -> (forall x, P x -> Q (f x)) ->
  Forall Q (alter f i xs).
Proof.
  intros Hall HPQ Hf. revert i.
  induction Hall as [ | x xs Hx Hxs IH]; intros i; [constructor | ].
  destruct i as [ | i]; simpl.
  - constructor; [apply Hf; exact Hx | ].
    eapply Forall_impl; [exact Hxs | exact HPQ].
  - constructor; [apply HPQ; exact Hx | apply IH].
Qed.

Lemma nonDecreasing_same l es :
  Forall (fun e => line e = l) es -> nonDecreasing es.
Proof.
  intros Hall i j a b _ Ha Hb.
  rewrite (Forall_lookup_1 _ _ _ _ Hall Ha), (Forall_lookup_1 _ _ _ _ Hall Hb).
  lia.
Qed.

Lemma nonDecreasing_snoc es x :
  nonDecreasing es -> Forall (fun e => line e <= line x) es ->
  nonDecreasing (es ++ [x]).
Proof.
  intros Hes Hall i j a b Hij Ha Hb.
  destruct (decide (j < length es)%nat) as [Hj | Hj].
  - rewrite lookup_app_l in Ha by lia. rewrite lookup_app_l in Hb by lia.
    exact (Hes i j a b Hij Ha Hb).
  - pose proof (lookup_lt_Some _ _ _ Hb) as Hlen.
    rewrite length_app in Hlen. simpl in Hlen.
    assert (j = length es) as -> by lia.
    rewrite lookup_app_r in Hb by lia. rewrite Nat.sub_diag in Hb.
    injection Hb as <-.
    destruct (decide (i < length es)%nat) as [Hi | Hi].
    + rewrite lookup_app_l in Ha by lia.
      exact (Forall_lookup_1 _ _ _ _ Hall Ha).
    + assert (i = length es) as -> by lia.
      rewrite lookup_app_r in Ha by lia. rewrite Nat.sub_diag in Ha.
      injection Ha as <-. lia.
Qed.

Lemma nonDecreasing_alter f i es :
  (forall e, line (f e) = line e) -> nonDecreasing es ->
  nonDecreasing (alter f i es).
Proof.
  intros Hf Hes k j a b Hkj Ha Hb.
  assert (Hl : forall k a, alter f i es !! k = Some a ->
                 exists a', es !! k = Some a' /\ line a' = line a).
  { intros k' a' H. destruct (decide (i = k')) as [-> | Hne].
    - rewrite list_lookup_alter_eq in H.
      destruct (es !! k') as [x | ]; [ | discriminate]. injection H as <-.
      eauto.
    - rewrite list_lookup_alter_ne in H by assumption. eauto. }
  destruct (Hl k a Ha) as (a' & Ha' & <-).
  destruct (Hl j b Hb) as (b' & Hb' & <-).
  exact (Hes k j a' b' Hkj Ha' Hb').
Qed.

Lemma positioned_mono hi hi' e : hi <= hi' -> positioned hi e -> positioned hi' e.
Proof. intros Hle (Hl & Hc & Ho). repeat split; try assumption; lia. Qed.

(** A created element and its synthesized children are on one line. *)
Lemma createdOn_positioned hi l e :
  1 <= l <= hi -> createdOn l e -> everywhere (positioned hi) e.
Proof.
  intros Hl (n & t & lt & ls & rt & ps & idx & c & ->).
  assert (Hsame : forall x cs,
            line x = l -> Forall (fun c => line c = l) cs ->
            Forall (everywhere (positioned hi)) cs ->
            everywhere (positioned hi) (set_children x cs)).
  { intros x cs Hx Hcs Hsub. apply everywhere_unfold. simpl.
    split; [ | exact Hsub]. split; [simpl; lia | ]. simpl. split.
    - eapply Forall_impl; [exact Hcs | ]. simpl. intros y ->. lia.
    - eapply nonDecreasing_same; eauto. }
  assert (Hleaf : forall x, line x = l -> children x = [] ->
                            everywhere (positioned hi) x).
  { intros x Hx Hnil. apply everywhere_unfold. rewrite Hnil.
    split; [ | constructor]. split; [lia | ]. rewrite Hnil.
    split; [constructor | ]. intros i j a b _ Ha. discriminate. }
  pose proof (pseudoChildren_shape l c
                (info_params (extractXmlCommentInfo ls (default (l - 1) idx)))
                (info_returns (extractXmlCommentInfo ls (default (l - 1) idx))))
    as Hshape.
  unfold created.
  destruct (_ || _).
  - match goal with |- everywhere _ (mkCodeElement ?a1 ?a2 ?a3 ?a4 ?cs ?a6 ?a7 ?a8 ?a9 ?a10 ?a11) =>
      change (everywhere (positioned hi)
                (set_children (mkCodeElement a1 a2 a3 a4 [] a6 a7 a8 a9 a10 a11) cs))
    end.
    apply Hsame; [reflexivity | | ].
    + eapply Forall_impl; [exact Hshape | ]. simpl. intros x [(Hx & _) _]. exact Hx.
    + eapply Forall_impl; [exact Hshape | ]. simpl.
      intros x [(Hx & _) [Hnil | (d & _ & _ & Hsub)]]; [auto | ].
      destruct x as [xn xt xa xl xcs xc xrt xps xr xpr xtg]. simpl in *.
      change (everywhere (positioned hi)
                (set_children (mkCodeElement xn xt xa xl [] xc xrt xps xr xpr xtg) xcs)).
      apply Hsame; [exact Hx | | ].
      * eapply Forall_impl; [exact Hsub | ]. simpl. intros g [(Hg & _) _]. exact Hg.
      * eapply Forall_impl; [exact Hsub | ]. simpl. intros g [(Hg & _) Hnil]. auto.
  - apply Hleaf; reflexivity.
Qed.

(** A new element on the line after [hi] under an element of a forest
    positioned up to [hi]. *)
Lemma positioned_push hi x e :
  everywhere (positioned hi) x -> everywhere (positioned (hi + 1)) e ->
  line e = hi + 1 ->
  everywhere (positioned (hi + 1)) (push_child e x).
Proof.
  intros Hx He Hl. apply everywhere_unfold in Hx as [(Hlx & Hcx & Hox) Hsub].
  assert (Hbelow : Forall (fun c => line c <= line e) (children x)).
  { eapply Forall_impl; [exact Hsub | ]. simpl. intros c Hc.
    apply everywhere_unfold in Hc as [(Hc & _) _]. lia. }
  apply everywhere_unfold. simpl. split; [split; [ | split] | ].
  - simpl. lia.
  - apply Forall_app_2; [exact Hcx | constructor; [simpl; lia | constructor]].
  - apply nonDecreasing_snoc; assumption.
  - apply Forall_app_2.
    + eapply Forall_impl; [exact Hsub | ]. intros c.
      apply everywhere_impl. intros y. apply positioned_mono. lia.
    + constructor; [exact He | constructor].
Qed.

Lemma numberedTo_step hi es es' :
  0 <= hi -> numberedTo hi es ->
  es' = es
  \/ (exists e,
        createdOn (hi + 1) e
        /\ (es' = (es ++ [e])%list
            \/ exists r, es' = update r (push_child e) es)) ->
  numberedTo (hi + 1) es'.
Proof.
  intros Hhi [Hall Hord] Hstep.
  assert (Hmono : forall x, everywhere (positioned hi) x ->
                            everywhere (positioned (hi + 1)) x).
  { intros x. apply everywhere_impl. intros y. apply positioned_mono. lia. }
  destruct Hstep as [-> | (e & He & [-> | [r ->]])].
  - split; [ | exact Hord]. eapply Forall_impl; eauto.
  - assert (Hnew : everywhere (positioned (hi + 1)) e).
    { eapply createdOn_positioned; [ | exact He]. lia. }
    split.
    + apply Forall_app_2; [eapply Forall_impl; eauto | ].
      constructor; [exact Hnew | constructor].
    + apply inOrder_snoc; [exact Hord | ].
      rewrite (createdOn_line _ _ He).
      eapply Forall_impl; [exact Hall | ]. intros x Hx.
      apply everywhere_unfold in Hx as [(Hx & _) _]. lia.
  - assert (Hnew : everywhere (positioned (hi + 1)) e).
    { eapply createdOn_positioned; [ | exact He]. lia. }
    pose proof (createdOn_line _ _ He) as Hle.
    destruct r as [i | i j]; simpl; split.
    + apply Forall_alter_mono with (P := everywhere (positioned hi));
        [exact Hall | exact Hmono | ].
      intros x Hx. apply positioned_push; assumption.
    + apply inOrder_alter; [reflexivity | exact Hord].
    + apply Forall_alter_mono with (P := everywhere (positioned hi));
        [exact Hall | exact Hmono | ].
      intros x Hx. apply everywhere_unfold in Hx as [(Hlx & Hcx & Hox) Hcs].
      apply everywhere_unfold. simpl. split; [split; [simpl; lia | split] | ].
      * simpl. apply Forall_alter; [exact Hcx | ]. intros y _ Hy. exact Hy.
      * apply nonDecreasing_alter; [reflexivity | exact Hox].
      * apply Forall_alter_mono with (P := everywhere (positioned hi));
          [exact Hcs | exact Hmono | ].
        intros y Hy. apply positioned_push; assumption.
    + apply inOrder_alter; [reflexivity | exact Hord].
Qed.

Lemma cs_scan_numbered lines todo st st' :
  0 <= lineNum st -> numberedTo (lineNum st) (elements st) ->
  scan lines todo st = Returns st' ->
  numberedTo (lineNum st + lengthZ todo) (elements st').
Proof.
  revert st. induction todo as [ | l todo IH]; intros st Hn Hinv; simpl.
  - intros [= <-]. unfold lengthZ. simpl. rewrite Z.add_0_r. exact Hinv.
  - intros H. apply bind_inv in H as (st1 & H1 & H).
    pose proof (scanLine_lineNum _ _ _ _ H1) as Hln.
    pose proof (numberedTo_step _ _ _ Hn Hinv (cs_scanLine_step _ _ _ _ H1))
      as Hinv1.
    rewrite <- Hln in Hinv1.
    specialize (IH st1 ltac:(lia) Hinv1 H).
    replace (lineNum st + lengthZ (l :: todo))
      with (lineNum st1 + lengthZ todo); [exact IH | ].
    unfold lengthZ. simpl length. lia.
Qed.

End BraceDepthLines.

(** ** The flat scanners: HtmlParser and JavaParser *)

Lemma flat_nil kinds : flat kinds 0 [].
Proof. split; [constructor | ]. intros i j a b _ Ha. discriminate. Qed.

Lemma flat_skip kinds hi es : flat kinds hi es -> flat kinds (hi + 1) es.
Proof.
  intros [Hall Hord]. split; [ | exact Hord].
  eapply Forall_impl; [exact Hall | ]. simpl. intros e (Ht & Hc & Hl).
  repeat split; try assumption; lia.
Qed.

Lemma flat_snoc kinds hi es e :
  0 <= hi -> flat kinds hi es ->
  type e ∈ kinds -> children e = [] -> line e = hi + 1 ->
  flat kinds (hi + 1) (es ++ [e]).
Proof.
  intros Hhi Hflat Ht Hc Hl. destruct (flat_skip _ _ _ Hflat) as [Hall Hord].
  split.
  - apply Forall_app_2; [exact Hall | ]. constructor; [ | constructor].
    repeat split; try assumption; lia.
  - apply inOrder_snoc; [exact Hord | ].
    destruct Hflat as [Hall0 _].
    eapply Forall_impl; [exact Hall0 | ]. simpl. intros x (_ & _ & Hx). lia.
Qed.

(** An element of a kind without synthesized children. *)
Lemma created_flat n t l lineText lines returnType parameters lineIndex comment :
  t <> Method -> t <> Constructor ->
  children (created n t l lineText lines returnType parameters lineIndex comment)
  = [].
Proof. intros Hm Hc. unfold created. destruct t; simpl; congruence. Qed.

Section MarkupList.
Import HtmlParser.

Lemma parseScriptTag_created text lineNum lines e :
  parseScriptTag text lineNum lines = Returns (Some e) ->
  type e = Module /\ children e = [] /\ line e = lineNum.
Proof.
  unfold parseScriptTag. destruct (exec re_script text); [ | discriminate].
  intros H. apply bind_inv in H as (n & _ & H).
  apply bind_inv in H as (e' & He' & [= <-]).
  apply createElement_inv in He' as [c ->]. repeat split.
Qed.

Lemma parseMainElement_created text lineNum lines e :
  parseMainElement text lineNum lines = Returns (Some e) ->
  type e = Module /\ children e = [] /\ line e = lineNum.
Proof.
  unfold parseMainElement. destruct (exec re_main text); [ | discriminate].
  intros H. apply bind_inv in H as (n & _ & H).
  apply bind_inv in H as (e' & He' & [= <-]).
  apply createElement_inv in He' as [c ->]. repeat split.
Qed.

Lemma html_scanLine_flat lines st line :
  0 <= snd st -> flat [Module] (snd st) (fst st) ->
  exists st',
    scanLine lines st line = Returns st'
    /\ snd st' = snd st + 1 /\ flat [Module] (snd st') (fst st').
Proof.
  intros Hn Hflat. unfold scanLine.
  destruct (_ || _).
  { eexists; split; [reflexivity | ]. split; [reflexivity | ].
    apply flat_skip. exact Hflat. }
  destruct (parseScriptTag_returns (trim line) (snd st + 1) lines)
    as [[e | ] He]; rewrite He, bind_returns.
  { apply parseScriptTag_created in He as (Ht & Hc & Hl).
    eexists; split; [reflexivity | ]. split; [reflexivity | ]. simpl.
    apply flat_snoc; try assumption. rewrite Ht. set_solver. }
  destruct (parseMainElement_returns (trim line) (snd st + 1) lines)
    as [[e | ] He']; rewrite He', bind_returns.
  { apply parseMainElement_created in He' as (Ht & Hc & Hl).
    eexists; split; [reflexivity | ]. split; [reflexivity | ]. simpl.
    apply flat_snoc; try assumption. rewrite Ht. set_solver. }
  eexists; split; [reflexivity | ]. split; [reflexivity | ].
  apply flat_skip. exact Hflat.
Qed.

Lemma html_scan_flat lines todo st :
  0 <= snd st -> flat [Module] (snd st) (fst st) ->
  exists st',
    scan lines todo st = Returns st'
    /\ flat [Module] (snd st + lengthZ todo) (fst st').
Proof.
  revert st. induction todo as [ | l todo IH]; intros st Hn Hflat; simpl.
  - eexists; split; [reflexivity | ]. unfold lengthZ. simpl.
    rewrite Z.add_0_r. exact Hflat.
  - destruct (html_scanLine_flat lines st l Hn Hflat) as (st1 & -> & Hln & H1).
    rewrite bind_returns.
    destruct (IH st1 ltac:(lia) H1) as (st' & -> & H').
    eexists; split; [reflexivity | ].
    replace (snd st + lengthZ (l :: todo)) with (snd st1 + lengthZ todo);
      [exact H' | ].
    unfold lengthZ. simpl length. lia.
Qed.

End MarkupList.

Section JavaList.
Import JavaParser.

Lemma java_parseSimple_returns r type line lineNum lines :
  binds 1 r = true ->
  exists o, parseSimple r type line lineNum lines = Returns o.
Proof.
  intros Hb. unfold parseSimple. destruct (exec r line) as [m | ] eqn:E; [ | eauto].
  destruct (exec_group_returns 1 r line m Hb E) as [g ->].
  rewrite bind_returns.
  destruct (createElement_returns g type lineNum line lines None None None)
    as [c ->].
  rewrite bind_returns. eauto.
Qed.

Lemma java_parseSimple_created r t text lineNum lines e :
  t <> Method -> t <> Constructor ->
  parseSimple r t text lineNum lines = Returns (Some e) ->
  type e = t /\ children e = [] /\ line e = lineNum.
Proof.
  intros Hm Hc. unfold parseSimple. destruct (exec r text); [ | discriminate].
  intros H. apply bind_inv in H as (n & _ & H).
  apply bind_inv in H as (e' & He' & [= <-]).
  apply createElement_inv in He' as [c ->].
  split; [reflexivity | ]. split; [ | reflexivity].
  apply created_flat; assumption.
Qed.

Lemma java_parseDeclaration_returns trimmedLine lineNum lines :
  exists o,
    parseDeclaration trimmedLine lineNum lines = Returns o
    /\ forall e, o = Some e ->
         type e ∈ [Class; Interface; Namespace; Enum]
         /\ children e = [] /\ line e = lineNum.
Proof.
  unfold parseDeclaration, parseClass, parseInterface, parsePackage, parseEnum.
  destruct (java_parseSimple_returns re_class Class trimmedLine lineNum lines
              eq_refl) as [[e | ] He]; rewrite He, bind_returns.
  { eexists; split; [reflexivity | ]. intros x [= <-].
    apply java_parseSimple_created in He as (-> & ? & ?); try discriminate.
    repeat split; try assumption. set_solver. }
  clear He.
  destruct (java_parseSimple_returns re_interface Interface trimmedLine lineNum
              lines eq_refl) as [[e | ] He]; rewrite He, bind_returns.
  { eexists; split; [reflexivity | ]. intros x [= <-].
    apply java_parseSimple_created in He as (-> & ? & ?); try discriminate.
    repeat split; try assumption. set_solver. }
  clear He.
  destruct (java_parseSimple_returns re_package Namespace trimmedLine lineNum
              lines eq_refl) as [[e | ] He]; rewrite He, bind_returns.
  { eexists; split; [reflexivity | ]. intros x [= <-].
    apply java_parseSimple_created in He as (-> & ? & ?); try discriminate.
    repeat split; try assumption. set_solver. }
  clear He.
  destruct (java_parseSimple_returns re_enum Enum trimmedLine lineNum
              lines eq_refl) as [o He].
  exists o. split; [exact He | ]. intros x ->.
  apply java_parseSimple_created in He as (-> & ? & ?); try discriminate.
  repeat split; try assumption. set_solver.
Qed.

Lemma java_scanLine_flat lines st line :
  0 <= snd st -> flat [Class; Interface; Namespace; Enum] (snd st) (fst st) ->
  exists st',
    scanLine lines st line = Returns st'
    /\ snd st' = snd st + 1
    /\ flat [Class; Interface; Namespace; Enum] (snd st') (fst st').
Proof.
  intros Hn Hflat. unfold scanLine.
  destruct (isComment (trim line)).
  { eexists; split; [reflexivity | ]. split; [reflexivity | ].
    apply flat_skip. exact Hflat. }
  destruct (java_parseDeclaration_returns (trim line) (snd st + 1) lines)
    as ([e | ] & -> & He); rewrite bind_returns.
  - destruct (He e eq_refl) as (Ht & Hc & Hl).
    eexists; split; [reflexivity | ]. split; [reflexivity | ]. simpl.
    apply flat_snoc; assumption.
  - eexists; split; [reflexivity | ]. split; [reflexivity | ].
    apply flat_skip. exact Hflat.
Qed.

Lemma java_scan_flat lines todo st :
  0 <= snd st -> flat [Class; Interface; Namespace; Enum] (snd st) (fst st) ->
  exists st',
    scan lines todo st = Returns st'
    /\ flat [Class; Interface; Namespace; Enum] (snd st + lengthZ todo) (fst st').
Proof.
  revert st. induction todo as [ | l todo IH]; intros st Hn Hflat; simpl.
  - eexists; split; [reflexivity | ]. unfold lengthZ. simpl.
    rewrite Z.add_0_r. exact Hflat.
  - destruct (java_scanLine_flat lines st l Hn Hflat) as (st1 & -> & Hln & H1).
    rewrite bind_returns.
    destruct (IH st1 ltac:(lia) H1) as (st' & -> & H').
    eexists; split; [reflexivity | ].
    replace (snd st + lengthZ (l :: todo)) with (snd st1 + lengthZ todo);
      [exact H' | ].
    unfold lengthZ. simpl length. lia.
Qed.

End JavaList.

(** ** JavaScriptParser: the roots *)

Section ScriptRoots.
Import JavaScriptParser.

Lemma js_parseSimple_created rs t text lineNum lines e :
  parseSimple rs t text lineNum lines = Returns (Some e) ->
  type e = t /\ line e = lineNum.
Proof.
  unfold parseSimple. destruct (firstMatch rs text); [ | discriminate].
  intros H. apply bind_inv in H as (g & _ & H).
  apply bind_inv in H as (e' & He' & [= <-]).
  apply createElement_inv in He' as [c ->]. split; reflexivity.
Qed.

Lemma js_parseDeclaration_created trimmedLine lineNum lines e :
  parseDeclaration trimmedLine lineNum lines = Returns (Some e) ->
  type e ∈ [Class; Function; Interface] /\ line e = lineNum.
Proof.
  unfold parseDeclaration. intros H.
  apply bind_inv in H as ([c | ] & Hc & H).
  { injection H as <-. apply js_parseSimple_created in Hc as [-> Hl].
    split; [set_solver | exact Hl]. }
  apply bind_inv in H as ([f | ] & Hf & H).
  { injection H as <-. apply js_parseSimple_created in Hf as [-> Hl].
    split; [set_solver | exact Hl]. }
  apply js_parseSimple_created in H as [-> Hl]. split; [set_solver | exact Hl].
Qed.

(** A turn of the loop pushes at most one root: a class, a function or
    an interface; its line is the number of the line, to which the
    offset is added for the element of an export. *)
Lemma js_scanLine_root lines startLineOffset st l st' :
  scanLine lines startLineOffset st l = Returns st' ->
  lineNum st' = lineNum st + 1
  /\ (elements st' = elements st
      \/ exists e,
           elements st' = (elements st ++ [e])%list
           /\ type e ∈ [Class; Function; Interface]
           /\ (line e = lineNum st' \/ line e = lineNum st' + startLineOffset)).
Proof.
  unfold scanLine.
  destruct (isComment (trim l)).
  { intros [= <-]. split; [reflexivity | left; reflexivity]. }
  destruct (includes (trim l) "export default" && includes (trim l) "{").
  { intros H. apply bind_inv in H as (properties & _ & [= <-]).
    split; [reflexivity | right]. eexists. split; [reflexivity | ].
    split; [set_solver | right; reflexivity]. }
  destruct (inExportDefault st).
  { intros [= <-]. split; [reflexivity | left; reflexivity]. }
  intros H. apply bind_inv in H as ([e | ] & He & [= <-]).
  - split; [reflexivity | right]. exists e. split; [reflexivity | ].
    apply js_parseDeclaration_created in He as [Ht Hl]. auto.
  - split; [reflexivity | left; reflexivity].
Qed.

(** the roots are on the lines 1 to [hi], in order *)
Lemma js_scan_order lines todo st st' :
  0 <= lineNum st ->
  Forall (fun e => 1 <= line e <= lineNum st) (elements st) ->
  inOrder (elements st) ->
  scan lines 0 todo st = Returns st' ->
  Forall (fun e => 1 <= line e <= lineNum st + lengthZ todo) (elements st')
  /\ inOrder (elements st').
Proof.
  revert st. induction todo as [ | l todo IH]; intros st Hn Hall Hord; simpl.
  - intros [= <-]. unfold lengthZ. simpl. rewrite Z.add_0_r. auto.
  - intros H. apply bind_inv in H as (st1 & H1 & H).
    apply js_scanLine_root in H1 as [Hln Hstep].
    replace (lineNum st + lengthZ (l :: todo)) with (lineNum st1 + lengthZ todo)
      by (unfold lengthZ; simpl length; lia).
    apply IH; [lia | | | exact H].
    + destruct Hstep as [-> | (e & -> & _ & Hl)].
      * eapply Forall_impl; [exact Hall | ]. simpl. lia.
      * apply Forall_app_2.
        -- eapply Forall_impl; [exact Hall | ]. simpl. lia.
        -- constructor; [lia | constructor].
    + destruct Hstep as [-> | (e & -> & _ & Hl)]; [exact Hord | ].
      apply inOrder_snoc; [exact Hord | ].
      eapply Forall_impl; [exact Hall | ]. simpl. lia.
Qed.

End ScriptRoots.

(** ** VueParser: the regions *)

Section Regions.
Import VueParser.

Lemma region_mono hi hi' e : hi <= hi' -> region hi e -> region hi' e.
Proof.
  intros Hle (n & l & cs & -> & Hn & Hl & Hcs).
  exists n, l, cs. repeat split; try assumption; lia.
Qed.

Lemma region_line hi e : region hi e -> 1 <= line e <= hi.
Proof. intros (n & l & cs & -> & _ & Hl & _). exact Hl. Qed.

Lemma regions_append n st :
  regions st -> n ∈ ["script"; "style"; "style scoped"] ->
  Forall (region (lineNum st + 1))
    (elements st ++ [regionElement n (lineNum st + 1)])
  /\ inOrder (elements st ++ [regionElement n (lineNum st + 1)]).
Proof.
  intros (Hn & Hall & Hord & _) Hname. split.
  - apply Forall_app_2.
    + eapply Forall_impl; [exact Hall | ]. intros e. apply region_mono. lia.
    + constructor; [ | constructor].
      exists n, (lineNum st + 1), []. repeat split; try assumption; try lia.
      left. reflexivity.
  - apply inOrder_snoc; [exact Hord | ].
    eapply Forall_impl; [exact Hall | ]. simpl. intros e He.
    apply region_line in He. lia.
Qed.

Lemma vue_scanLine_regions st text :
  regions st ->
  exists st',
    scanLine st text = Returns st'
    /\ lineNum st' = lineNum st + 1 /\ regions st'.
Proof.
  intros Hinv. pose proof Hinv as (Hn & Hall & Hord & Hscript).
  assert (Hskip : forall st',
            lineNum st' = lineNum st + 1 -> elements st' = elements st ->
            scriptElement st' = scriptElement st -> regions st').
  { intros st' Hl He Hs. unfold regions. rewrite Hl, He, Hs.
    split; [lia | ]. split; [ | split; [exact Hord | ]].
    - eapply Forall_impl; [exact Hall | ]. intros e. apply region_mono. lia.
    - intros p Hp. destruct (Hscript p Hp) as (l & Hl' & Hrange).
      exists l. split; [exact Hl' | lia]. }
  unfold scanLine.
  destruct (isTag "template" (trim text)).
  { eexists; split; [reflexivity | ]. split; [reflexivity | ].
    apply Hskip; reflexivity. }
  destruct (_ && _).
  { eexists; split; [reflexivity | ]. split; [reflexivity | ].
    apply Hskip; reflexivity. }
  destruct (inTemplate st).
  { eexists; split; [reflexivity | ]. split; [reflexivity | ].
    apply Hskip; reflexivity. }
  destruct (includes (trim text) "<script").
  { eexists; split; [reflexivity | ]. split; [reflexivity | ].
    destruct (regions_append "script" st Hinv ltac:(set_solver)) as [H1 H2].
    split; [simpl; lia | ]. split; [exact H1 | ]. split; [exact H2 | ].
    simpl. intros p [= <-]. exists (lineNum st + 1).
    rewrite lookup_app_r by reflexivity. rewrite Nat.sub_diag.
    split; [reflexivity | lia]. }
  destruct (_ && _).
  { assert (Hclose : exists els,
              closeScript st = Returns els
              /\ Forall (region (lineNum st + 1)) els /\ inOrder els).
    { unfold closeScript.
      assert (Hsame : Forall (region (lineNum st + 1)) (elements st)).
      { eapply Forall_impl; [exact Hall | ]. intros e. apply region_mono. lia. }
      destruct (scriptElement st) as [place | ] eqn:E; [ | eauto].
      destruct (Nat.ltb 0 _); [ | eauto].
      destruct (Hscript place eq_refl) as (l & Hl & Hrange). rewrite Hl.
      unfold defined. rewrite bind_returns. unfold parseScriptContent. simpl.
      destruct (js_parse_returns (scriptContent st) (l + 1)) as [es Hes].
      rewrite Hes, bind_returns.
      destruct (Nat.ltb 0 _); [ | eauto].
      eexists; split; [reflexivity | ]. split.
      - apply Forall_alter; [exact Hsame | ].
        intros e He _. rewrite Hl in He. injection He as <-.
        exists "script", l, es. split; [reflexivity | ].
        split; [apply list_elem_of_here | ]. split; [lia | ]. right. eauto.
      - apply inOrder_alter; [reflexivity | exact Hord]. }
    destruct Hclose as (els & -> & H1 & H2). rewrite bind_returns.
    eexists; split; [reflexivity | ]. split; [reflexivity | ].
    split; [simpl; lia | ]. split; [exact H1 | ]. split; [exact H2 | ].
    simpl. discriminate. }
  destruct (isTag "style" (trim text)).
  { eexists; split; [reflexivity | ]. split; [reflexivity | ].
    assert (Hname : (if includes (trim text) "scoped" then "style scoped"
                     else "style") ∈ ["script"; "style"; "style scoped"]).
    { destruct (includes _ _); set_solver. }
    destruct (regions_append _ st Hinv Hname) as [H1 H2].
    split; [simpl; lia | ]. split; [exact H1 | ]. split; [exact H2 | ].
    simpl. intros p Hp. destruct (Hscript p Hp) as (l & Hl & Hrange).
    exists l. split; [apply lookup_app_l_Some; exact Hl | lia]. }
  destruct (_ && _);
    (eexists; split; [reflexivity | ]; split; [reflexivity | ];
     apply Hskip; reflexivity).
Qed.

Lemma vue_scan_regions todo st :
  regions st ->
  exists st',
    scan todo st = Returns st'
    /\ lineNum st' = lineNum st + lengthZ todo /\ regions st'.
Proof.
  revert st. induction todo as [ | l todo IH]; intros st Hinv; simpl.
  - eexists; split; [reflexivity | ]. unfold lengthZ. simpl.
    split; [lia | exact Hinv].
  - destruct (vue_scanLine_regions st l Hinv) as (st1 & -> & Hln & H1).
    rewrite bind_returns.
    destruct (IH st1 H1) as (st' & -> & Hln' & H').
    eexists; split; [reflexivity | ]. split; [ | exact H'].
    unfold lengthZ in *. simpl length. lia.
Qed.

End Regions.

(** ** VueParser: the lines of a template *)

Section TemplateLines.
Import VueParser.

Lemma vue_scan_app a b st :
  scan (a ++ b) st = (st' ← scan a st; scan b st').
Proof.
  revert st. induction a as [ | l a IH]; intros st; simpl; [reflexivity | ].
  destruct (scanLine st l) as [st1 | err]; simpl; [apply IH | reflexivity].
Qed.

(** Inside a template the scan only counts the lines. *)
Lemma vue_scan_in_template body st :
  inTemplate st = true -> forallb keepsTemplateOpen body = true ->
  scan body st
  = Returns (mkState (elements st) (lineNum st + lengthZ body) (inScriptTag st)
               (scriptContent st) (scriptElement st) (styleStartLine st) true
               (inStyle st)).
Proof.
  revert st. induction body as [ | l body IH]; intros st Hin Hall; simpl.
  - unfold lengthZ. simpl. rewrite Z.add_0_r. destruct st. simpl in Hin.
    rewrite Hin. reflexivity.
  - apply andb_true_iff in Hall as [Hl Hall].
    assert (Hstep : scanLine st l
                    = Returns (mkState (elements st) (lineNum st + 1)
                                 (inScriptTag st) (scriptContent st)
                                 (scriptElement st) (styleStartLine st) true
                                 (inStyle st))).
    { unfold scanLine. unfold keepsTemplateOpen in Hl.
      destruct (isTag "template" (trim l)); [reflexivity | ].
      simpl in Hl. apply negb_true_iff in Hl. rewrite Hl, Hin. reflexivity. }
    rewrite Hstep, bind_returns, IH by (assumption || reflexivity). simpl.
    do 2 f_equal. unfold lengthZ. simpl length. lia.
Qed.

End TemplateLines.

(** ** Paths into a forest that grows *)

Lemma derefPath_app p els x :
  is_Some (derefPath p els) -> is_Some (derefPath p (els ++ [x])).
Proof.
  destruct p as [ | i [ | j p]]; simpl.
  - trivial.
  - intros [e He]. exists e. apply lookup_app_l_Some. exact He.
  - destruct (els !! i) as [e | ] eqn:He; simpl; [ | intros [? [=]]].
    rewrite (lookup_app_l_Some _ _ _ _ He). simpl. trivial.
Qed.

(** Pushing a child somewhere leaves every path valid. *)
Lemma derefPath_updatePath x q :
  forall p els,
    is_Some (derefPath q els) ->
    is_Some (derefPath q (updatePath p (push_child x) els)).
Proof.
  induction q as [ | i q IH]; intros p els; [trivial | ].
  destruct p as [ | k p]; [trivial | ].
  assert (Hstep : forall F,
            (forall e, is_Some (derefPath q (children e)) ->
                       is_Some (derefPath q (children (F e)))) ->
            is_Some (derefPath (i :: q) els) ->
            is_Some (derefPath (i :: q) (alter F k els))).
  { intros F HF. destruct q as [ | j q'].
    - simpl. intros [e He]. destruct (decide (k = i)) as [-> | Hne].
      + rewrite list_lookup_alter_eq, He. simpl. eauto.
      + rewrite list_lookup_alter_ne by assumption. eauto.
    - simpl. destruct (els !! i) as [e | ] eqn:He; simpl; [ | intros [? [=]]].
      destruct (decide (k = i)) as [-> | Hne].
      + rewrite list_lookup_alter_eq, He. simpl. apply HF.
      + rewrite list_lookup_alter_ne, He by assumption. simpl. trivial. }
  destruct p as [ | k' p'].
  - simpl. apply Hstep. intros e. simpl. apply derefPath_app.
  - change (updatePath (k :: k' :: p') (push_child x) els)
      with (alter (fun e => set_children e
                              (updatePath (k' :: p') (push_child x) (children e)))
              k els).
    apply Hstep. intros e H. exact (IH (k' :: p') (children e) H).
Qed.

(** The path of the new child. *)
Lemma derefPath_pushed x p :
  forall els parent,
    derefPath p els = Some parent ->
    derefPath (p ++ [length (children parent)])
      (updatePath p (push_child x) els) = Some x.
Proof.
  induction p as [ | k p IH]; intros els parent; [discriminate | ].
  destruct p as [ | k' p'].
  - simpl. intros He. rewrite list_lookup_alter_eq, He. simpl.
    rewrite lookup_app_r by reflexivity. rewrite Nat.sub_diag. reflexivity.
  - intros Hp.
    change ((e ← els !! k; derefPath (k' :: p') (children e)) = Some parent)
      in Hp.
    change ((e ← alter (fun e => set_children e
                                   (updatePath (k' :: p') (push_child x)
                                      (children e))) k els !! k;
             derefPath ((k' :: p') ++ [length (children parent)]) (children e))
            = Some x).
    rewrite list_lookup_alter_eq.
    destruct (els !! k) as [e | ]; [ | discriminate].
    exact (IH (children e) parent Hp).
Qed.

(** What holds everywhere in a forest holds after a push. *)
Lemma everywhere_updatePath (P : CodeElement -> Prop) x p :
  (forall e cs, P e -> P (set_children e cs)) -> everywhere P x ->
  forall els,
    Forall (everywhere P) els ->
    Forall (everywhere P) (updatePath p (push_child x) els).
Proof.
  intros HP Hx. induction p as [ | k p IH]; intros els Hall; [exact Hall | ].
  destruct p as [ | k' p'].
  - simpl. apply Forall_alter; [exact Hall | ].
    intros e _ He. apply everywhere_push; [apply HP | exact He | exact Hx].
  - change (updatePath (k :: k' :: p') (push_child x) els)
      with (alter (fun e => set_children e
                              (updatePath (k' :: p') (push_child x) (children e)))
              k els).
    apply Forall_alter; [exact Hall | ].
    intros e _ He. apply everywhere_unfold in He as [He Hcs].
    apply everywhere_unfold. split.
    + apply HP. exact He.
    + exact (IH (children e) Hcs).
Qed.

(** ** VueParser: the markup scan with its tag stack *)

Section TagStack.
Import VueParser.

Lemma attach_returns (P : CodeElement -> Prop) element st :
  (forall e cs, P e -> P (set_children e cs)) ->
  stacked st -> Forall (everywhere P) (t_elements st) -> everywhere P element ->
  exists els path,
    attach element st = Returns (els, path)
    /\ Forall (fun f => is_Some (derefPath (f_element f) els)) (stack st)
    /\ is_Some (derefPath path els)
    /\ Forall (everywhere P) els.
Proof.
  intros HP Hst Hall He. unfold attach.
  destruct (last (stack st)) as [parent | ] eqn:Hlast.
  - apply last_Some in Hlast as [below Hstack].
    assert (Hparent : is_Some (derefPath (f_element parent) (t_elements st))).
    { unfold stacked in Hst. rewrite Hstack in Hst.
      apply Forall_app in Hst as [_ Hst]. inversion Hst; subst. assumption. }
    destruct Hparent as [p Hp]. rewrite Hp. unfold defined.
    rewrite bind_returns. eexists _, _. split; [reflexivity | ].
    split; [ | split].
    + eapply Forall_impl; [exact Hst | ]. simpl. intros f.
      apply derefPath_updatePath.
    + rewrite (derefPath_pushed element _ _ _ Hp). eauto.
    + apply everywhere_updatePath; assumption.
  - eexists _, _. split; [reflexivity | ]. split; [ | split].
    + eapply Forall_impl; [exact Hst | ]. simpl. intros f. apply derefPath_app.
    + simpl. rewrite lookup_app_r by reflexivity. rewrite Nat.sub_diag.
      simpl. eauto.
    + apply Forall_app_2; [exact Hall | constructor; [exact He | constructor]].
Qed.

Lemma closeNearest_returns els tag reversed :
  Forall (fun f => is_Some (derefPath (f_element f) els)) reversed ->
  exists out,
    closeNearest els tag reversed = Returns out
    /\ Forall (fun f => is_Some (derefPath (f_element f) els)) out.
Proof.
  induction 1 as [ | f reversed [e He] Hrest IH]; simpl; [eauto | ].
  rewrite He. unfold defined. rewrite bind_returns.
  destruct (bool_decide _).
  - destruct (_ <=? 0); eexists; (split; [reflexivity | ]); [exact Hrest | ].
    constructor; [simpl; rewrite He; eauto | exact Hrest].
  - destruct IH as (out & -> & Hout). rewrite bind_returns.
    eexists; split; [reflexivity | ].
    constructor; [rewrite He; eauto | exact Hout].
Qed.

Lemma templateLine_returns lines startLine i st :
  0 <= i < lengthZ lines ->
  stacked st ->
  Forall (everywhere (markup startLine (lengthZ lines))) (t_elements st) ->
  exists r,
    templateLine lines startLine i st = Returns r
    /\ stacked (fst r)
    /\ Forall (everywhere (markup startLine (lengthZ lines)))
         (t_elements (fst r)).
Proof.
  intros Hi Hst Hall. unfold templateLine.
  destruct (lookupZ_in_range lines i Hi) as [l ->].
  unfold defined at 1. rewrite bind_returns.
  destruct (_ || _); [eauto | ].
  destruct (exec re_start_tag (trim l)) as [m | ] eqn:E.
  - destruct (exec_group_returns 1 re_start_tag (trim l) m eq_refl E) as [tag ->].
    rewrite bind_returns.
    destruct (bool_decide _); [eauto | ].
    assert (Hname : exists n,
      match exec (re_attribute "id") (trim l),
            exec (re_attribute "class") (trim l) with
      | Some m, _ => group m 1
      | None, Some m => group m 1
      | None, None => mret tag
      end = Returns n).
    { destruct (exec (re_attribute "id") (trim l)) as [mi | ] eqn:E1.
      - eapply exec_group_returns; [ | exact E1]. reflexivity.
      - destruct (exec (re_attribute "class") (trim l)) as [mc | ] eqn:E2.
        + eapply exec_group_returns; [ | exact E2]. reflexivity.
        + eexists; reflexivity. }
    destruct Hname as [n ->]. rewrite bind_returns.
    set (element := mkCodeElement n Module Default (startLine + i) [] None None
                      None None None (Some tag)).
    destruct (attach_returns (markup startLine (lengthZ lines)) element st)
      as (els & path & -> & Hframes & Hpath & Hels); try assumption.
    { intros e cs He. exact He. }
    { apply everywhere_unfold. split; [ | constructor].
      repeat split; simpl; eauto; lia. }
    rewrite bind_returns. simpl.
    destruct (_ && _); (eexists; split; [reflexivity | ]); simpl;
      (split; [ | exact Hels]); unfold stacked; simpl; [ | exact Hframes].
    apply Forall_app_2; [exact Hframes | ].
    constructor; [exact Hpath | constructor].
  - destruct (exec re_end_tag (trim l)) as [m | ] eqn:E'; [ | eauto].
    destruct (Nat.ltb 0 _); [ | eauto].
    destruct (exec_group_returns 1 re_end_tag (trim l) m eq_refl E') as [tag ->].
    rewrite bind_returns.
    destruct (closeNearest_returns (t_elements st) tag (rev (stack st)))
      as (out & -> & Hout).
    { apply Forall_rev. exact Hst. }
    rewrite bind_returns. eexists; split; [reflexivity | ]. simpl.
    split; [ | exact Hall]. unfold stacked. simpl. apply Forall_rev. exact Hout.
Qed.

End TagStack.

(** ** FileStructureParser: the symbols of the language server *)

Section Symbols.
Import FileStructureParser.

Lemma commentLoop_returns lines lineIndex todo :
  Forall (fun i => 0 <= i < lengthZ lines) todo ->
  exists c, commentLoop lines lineIndex todo = Returns c.
Proof.
  induction 1 as [ | i todo Hi _ IH]; simpl; [eauto | ].
  destruct (lookupZ_in_range lines i Hi) as [l ->].
  unfold defined. rewrite bind_returns.
  destruct (startsWith (trim l) "//"); [eauto | ].
  destruct (includes (trim l) "/*").
  - destruct (blockCommentLoop_returns lines i
                (for_up i (Z.min lineIndex (lengthZ lines - 1))) EmptyString)
      as [c ->]; [ | rewrite bind_returns; eauto].
    eapply Forall_impl; [apply for_up_range | ]. simpl. lia.
  - destruct (startsWith (trim l) "///"); [eauto | ].
    destruct (_ && _); eauto.
Qed.

(** The comment above a symbol can be read when the symbol starts on a
    line of the array or right after its end. *)
Lemma fs_extractComment_returns lines (lineIndex : nat) :
  (lineIndex <= length lines)%nat ->
  exists c, extractComment lines (Z.of_nat lineIndex) = Returns c.
Proof.
  intros Hle. apply commentLoop_returns.
  eapply Forall_impl; [apply for_down_range | ]. simpl.
  unfold lengthZ. lia.
Qed.

(** Further down, the first turn of the loop reads a line that is not
    there. *)
Lemma fs_extractComment_throws lines (lineIndex : nat) :
  (length lines < lineIndex)%nat ->
  extractComment lines (Z.of_nat lineIndex) = TypeError.
Proof.
  intros Hlt. unfold extractComment, for_down.
  destruct (Z.to_nat (Z.of_nat lineIndex - 1
                      - Z.max 0 (Z.of_nat lineIndex - 5) + 1)) as [ | k] eqn:Hk;
    [lia | ].
  simpl. rewrite Z.sub_0_r.
  replace (lookupZ lines (Z.of_nat lineIndex - 1)) with (@None string);
    [reflexivity | ].
  unfold lookupZ. destruct (Z.ltb_spec (Z.of_nat lineIndex - 1) 0); [reflexivity | ].
  symmetry. apply lookup_ge_None. lia.
Qed.

Lemma symbolToCodeElement_returns symbol lines fileExt :
  (DocumentSymbol.startLine symbol <= length lines)%nat ->
  exists comment returnType parameters,
    symbolToCodeElement symbol lines fileExt
    = Returns (mkCodeElement (DocumentSymbol.name symbol)
                 (symbolKindToElementType (DocumentSymbol.kind symbol))
                 (accessModifierOf
                    (default EmptyString
                       (lookupZ lines (Z.of_nat (DocumentSymbol.startLine symbol)))))
                 (Z.of_nat (DocumentSymbol.startLine symbol) + 1) [] comment
                 returnType parameters None None None).
Proof.
  intros Hle. unfold symbolToCodeElement.
  destruct (fs_extractComment_returns lines _ Hle) as [c ->].
  rewrite bind_returns. eauto.
Qed.

Lemma symbolToElement_unfold lines fileExt n k l cs :
  symbolToElement lines fileExt (DocumentSymbol.make n k l cs)
  = (element ← symbolToCodeElement (DocumentSymbol.make n k l cs) lines fileExt;
     match cs with
     | [] => mret element
     | _ :: _ =>
         if callable (type element) then mret (set_children element [])
         else
           elements ← mapJs (symbolToElement lines fileExt) cs;
           mret (set_children element elements)
     end).
Proof. destruct cs; reflexivity. Qed.

Lemma symbolToElement_mirrors lines fileExt :
  forall symbol,
    within (length lines) symbol = true ->
    exists e, symbolToElement lines fileExt symbol = Returns e /\ mirrors symbol e.
Proof.
  fix IH 1. intros [n k l cs] Hin. simpl in Hin.
  apply andb_true_iff in Hin as [Hl Hcs]. apply Nat.leb_le in Hl.
  destruct (symbolToCodeElement_returns (DocumentSymbol.make n k l cs) lines
              fileExt Hl) as (c & rt & ps & He).
  simpl in He.
  assert (Hchildren : exists es,
            mapJs (symbolToElement lines fileExt) cs = Returns es
            /\ allMirror cs es).
  { clear He. induction cs as [ | x cs IHcs]; simpl.
    { exists []. split; [reflexivity | exact I]. }
    simpl in Hcs. apply andb_true_iff in Hcs as [Hx Hcs].
    destruct (IH x Hx) as (e & -> & He). rewrite bind_returns.
    destruct (IHcs Hcs) as (es & -> & Hes). rewrite bind_returns.
    eexists; split; [reflexivity | ]. split; assumption. }
  destruct Hchildren as (es & Hes & Hmirror).
  rewrite symbolToElement_unfold. simpl. rewrite He, bind_returns.
  destruct cs as [ | x cs'].
  - eexists; split; [reflexivity | ]. simpl. repeat split.
    destruct (callable _); [reflexivity | exact I].
  - cbn [type].
    destruct (callable (symbolKindToElementType k)) eqn:Hcall.
    + eexists; split; [reflexivity | ]. simpl. rewrite Hcall. repeat split.
    + rewrite Hes, bind_returns.
      eexists; split; [reflexivity | ]. simpl. rewrite Hcall. repeat split.
      destruct es as [ | e es']; [destruct Hmirror | exact Hmirror].
Qed.

End Symbols.

(** ** ParserFactory and its caller *)

Lemma parsers_lookup (ext : string) (c : ParserFactory.ParserClass) :
  ParserFactory.parsers !! ext = Some c ->
  ext ∈ [".cs"; ".java"; ".js"; ".ts"; ".vue"; ".html"; ".htm"]
  /\ c ∈ [ParserFactory.CSharp; ParserFactory.Java; ParserFactory.JavaScript;
          ParserFactory.Vue; ParserFactory.Html].
Proof.
  unfold ParserFactory.parsers. intros H.
  repeat (apply lookup_insert_Some in H as [[<- <-] | [_ H]];
          [split; set_solver | ]).
  rewrite lookup_empty in H. discriminate.
Qed.

Lemma parsers_supported (ext : string) :
  ext ∈ [".cs"; ".java"; ".js"; ".ts"; ".vue"; ".html"; ".htm"] ->
  is_Some (ParserFactory.parsers !! ext).
Proof.
  intros H. repeat (apply elem_of_cons in H as [-> | H]; [vm_compute; eauto | ]).
  apply elem_of_nil in H. destruct H.
Qed.

(** ** Strings *)

Lemma append_cons (a : ascii) (s t : string) :
  String a s ++ t = String a (s ++ t).
Proof. reflexivity. Qed.

Lemma append_nil_l (s : string) : EmptyString ++ s = s.
Proof. reflexivity. Qed.

Lemma append_nil_r (s : string) : s ++ EmptyString = s.
Proof.
  induction s as [ | a s IH]; [reflexivity | ].
  rewrite append_cons, IH. reflexivity.
Qed.

Lemma append_assoc (a b c : string) : (a ++ b) ++ c = a ++ (b ++ c).
Proof.
  induction a as [ | x a IH]; [reflexivity | ].
  rewrite !append_cons, IH. reflexivity.
Qed.

Lemma length_append (a b : string) :
  String.length (a ++ b) = (String.length a + String.length b)%nat.
Proof.
  induction a as [ | x a IH]; [reflexivity | ].
  rewrite append_cons. simpl. rewrite IH. reflexivity.
Qed.

Lemma str_take_append (a b : string) : str_take (String.length a) (a ++ b) = a.
Proof.
  induction a as [ | x a IH]; [destruct b; reflexivity | ].
  rewrite append_cons. simpl. rewrite IH. reflexivity.
Qed.

Lemma str_drop_append (a b : string) : str_drop (String.length a) (a ++ b) = b.
Proof.
  induction a as [ | x a IH]; [reflexivity | ].
  rewrite append_cons. simpl. exact IH.
Qed.

Lemma startsWith_append (a b c : string) :
  startsWith (a ++ b) (a ++ c) = startsWith b c.
Proof.
  induction a as [ | x a IH]; [reflexivity | ].
  rewrite !append_cons. simpl. rewrite Ascii.eqb_refl. exact IH.
Qed.

Lemma startsWith_prefix (a b : string) : startsWith (a ++ b) a = true.
Proof.
  rewrite <- (append_nil_r a) at 2. rewrite startsWith_append.
  destruct b; reflexivity.
Qed.

(** [s.startsWith(p)] means that [s] is [p] and something *)
Lemma startsWith_inv (s p : string) :
  startsWith s p = true -> s = p ++ str_drop (String.length p) s.
Proof.
  revert s. induction p as [ | b p IH]; intros s; [reflexivity | ].
  destruct s as [ | a s]; [discriminate | ]. simpl.
  intros H. apply andb_true_iff in H as [Hab Hs].
  apply Ascii.eqb_eq in Hab as ->. rewrite append_cons. f_equal.
  apply IH. exact Hs.
Qed.

Lemma occurs_append c (a b : string) :
  occurs c (a ++ b) = occurs c a || occurs c b.
Proof.
  induction a as [ | x a IH]; [reflexivity | ].
  rewrite append_cons. simpl. rewrite IH. apply orb_assoc.
Qed.

(** ** Replacing the characters of a class *)

Section ReplaceEach.
Variables (p : ascii -> bool) (f : string -> string).

Lemma replaceEach_append (a b : string) :
  replaceEach p f (a ++ b) = replaceEach p f a ++ replaceEach p f b.
Proof.
  induction a as [ | x a IH]; [reflexivity | ].
  rewrite append_cons. simpl. rewrite IH, append_assoc. reflexivity.
Qed.

Lemma replaceEach_noneOf (s : string) :
  noneOf p s = true -> replaceEach p f s = s.
Proof.
  induction s as [ | a s IH]; simpl; [reflexivity | ].
  intros H. apply andb_true_iff in H as [Ha Hs].
  apply negb_true_iff in Ha. rewrite Ha, IH by assumption. reflexivity.
Qed.

(** The leftmost match of a character class is the first character of
    the class. *)
Lemma search_from_Chr (s : string) :
  forall pos,
    match search_from (Chr p) pos s with
    | None => noneOf p s = true
    | Some m =>
        exists pre a rest,
          s = pre ++ String a rest
          /\ noneOf p pre = true /\ p a = true
          /\ index m = (pos + String.length pre)%nat
          /\ matched m = String a EmptyString
    end.
Proof.
  induction s as [ | a s IH]; intros pos; simpl; [reflexivity | ].
  unfold match_at. simpl. destruct (p a) eqn:Ha.
  - exists EmptyString, a, s. simpl.
    replace (S pos - pos)%nat with 1%nat by lia.
    repeat split; [exact Ha | lia].
  - specialize (IH (S pos)). destruct (search_from (Chr p) (S pos) s) as [m | ].
    + destruct IH as (pre & b & rest & -> & Hpre & Hb & Hi & Hm).
      exists (String a pre), b, rest. simpl. rewrite Ha.
      repeat split; try assumption. lia.
    + exact IH.
Qed.

Lemma replaceAllWith_from_Chr (fuel : nat) :
  forall s pos,
    (String.length s < fuel)%nat ->
    replaceAllWith_from fuel (Chr p) f pos s = replaceEach p f s.
Proof.
  induction fuel as [ | fuel IH]; intros s pos Hlen; [lia | ].
  simpl. pose proof (search_from_Chr s pos) as Hs.
  destruct (search_from (Chr p) pos s) as [m | ].
  - destruct Hs as (pre & a & rest & -> & Hpre & Ha & Hi & Hm).
    rewrite Hi, Hm. simpl.
    replace (pos + String.length pre - pos)%nat with (String.length pre) by lia.
    rewrite str_take_append.
    replace (String.length pre + 1)%nat with (String.length (pre ++ String a EmptyString))
      by (rewrite length_append; reflexivity).
    replace (pre ++ String a rest) with ((pre ++ String a EmptyString) ++ rest)
      by (rewrite append_assoc; reflexivity).
    rewrite str_drop_append, IH.
    + rewrite !replaceEach_append, (replaceEach_noneOf pre Hpre). simpl.
      rewrite Ha, append_nil_r, append_assoc. reflexivity.
    + rewrite !length_append in Hlen. simpl in Hlen. lia.
  - symmetry. apply replaceEach_noneOf. exact Hs.
Qed.

Lemma replaceAllWith_Chr (s : string) :
  replaceAllWith (Chr p) f s = replaceEach p f s.
Proof. apply replaceAllWith_from_Chr. lia. Qed.

End ReplaceEach.

(** ** CodeStructViewProvider: [escapeHtml] *)

Section EscapeHtml.
Import CodeStructViewProvider.

Lemma escapeHtml_replaceEach (text : string) :
  escapeHtml text = replaceEach (any_of ("&<>" ++ quotes)) entity text.
Proof. apply replaceAllWith_Chr. Qed.

Lemma escapeHtml_cons (a : ascii) (text : string) :
  escapeHtml (String a text) = escaped a ++ escapeHtml text.
Proof. rewrite !escapeHtml_replaceEach. reflexivity. Qed.

(** One character becomes itself or one of the five entities. *)
Lemma escaped_cases (a : ascii) :
  (any_of ("&<>" ++ quotes) a = false /\ escaped a = String a EmptyString)
  \/ (a = "&"%char /\ escaped a = "&amp;")
  \/ (a = "<"%char /\ escaped a = "&lt;")
  \/ (a = ">"%char /\ escaped a = "&gt;")
  \/ (a = "034"%char /\ escaped a = "&quot;")
  \/ (a = "'"%char /\ escaped a = "&#039;").
Proof.
  destruct a as [[] [] [] [] [] [] [] []];
    first [ left; split; reflexivity
          | right; left; split; reflexivity
          | right; right; left; split; reflexivity
          | right; right; right; left; split; reflexivity
          | right; right; right; right; left; split; reflexivity
          | right; right; right; right; right; split; reflexivity ].
Qed.

Lemma escaped_safe (c a : ascii) :
  c ∈ ["<"%char; ">"%char; "034"%char; "'"%char] -> occurs c (escaped a) = false.
Proof.
  intros Hc.
  destruct (escaped_cases a) as [[Hplain ->] | Hentity].
  - simpl. rewrite orb_false_r. apply Ascii.eqb_neq. intros ->.
    repeat (apply elem_of_cons in Hc as [-> | Hc]; [discriminate | ]).
    apply elem_of_nil in Hc. exact Hc.
  - repeat (apply elem_of_cons in Hc as [-> | Hc];
            [destruct Hentity as [[_ ->] | [[_ ->] | [[_ ->] | [[_ ->] | [_ ->]]]]];
             reflexivity | ]).
    apply elem_of_nil in Hc. destruct Hc.
Qed.

(** The texts of two characters do not begin alike. *)
Lemma escaped_prefix_free (a b : ascii) (x y : string) :
  escaped a ++ x = escaped b ++ y -> a = b /\ x = y.
Proof.
  destruct (escaped_cases a) as [[Ha ->] | Ha];
    destruct (escaped_cases b) as [[Hb ->] | Hb].
  - intros H. cbv [String.append] in H. injection H as -> ->. auto.
  - destruct Hb as [[-> ->] | [[-> ->] | [[-> ->] | [[-> ->] | [-> ->]]]]];
      intros H; cbv [String.append] in H; injection H as -> _; discriminate.
  - destruct Ha as [[-> ->] | [[-> ->] | [[-> ->] | [[-> ->] | [-> ->]]]]];
      intros H; cbv [String.append] in H; injection H as <- _; discriminate.
  - destruct Ha as [[-> ->] | [[-> ->] | [[-> ->] | [[-> ->] | [-> ->]]]]];
      destruct Hb as [[-> ->] | [[-> ->] | [[-> ->] | [[-> ->] | [-> ->]]]]];
      intros H; cbv [String.append] in H; try discriminate;
      injection H as ->; auto.
Qed.

Lemma escaped_not_empty (a : ascii) (x : string) : escaped a ++ x <> EmptyString.
Proof.
  destruct (escaped_cases a)
    as [[_ ->] | [[_ ->] | [[_ ->] | [[_ ->] | [[_ ->] | [_ ->]]]]]];
    cbv [String.append]; discriminate.
Qed.

End EscapeHtml.

(** ** TagRuleConfig *)

Section TagRules.
Import TagRuleConfig.

Lemma charAt_append (a b : string) :
  charAt (a ++ b) (String.length a)
  = match b with String d _ => Some d | EmptyString => None end.
Proof. unfold charAt. rewrite str_drop_append. reflexivity. Qed.

(** A rule matches a comment that is its tag, or its tag and then a
    space, a colon or a tab. *)
Lemma matches_inv (cleanedComment : string) (rule : TagRule) :
  matches cleanedComment rule = true ->
  exists rest,
    cleanedComment = toLowerCase (tag rule) ++ rest
    /\ (rest = EmptyString
        \/ exists d rest',
             rest = String d rest'
             /\ d ∈ [" "%char; ":"%char; "009"%char]).
Proof.
  unfold matches. intros H. apply andb_true_iff in H as [Hstart Hnext].
  apply startsWith_inv in Hstart.
  exists (str_drop (String.length (toLowerCase (tag rule))) cleanedComment).
  split; [exact Hstart | ].
  rewrite Hstart, charAt_append in Hnext.
  destruct (str_drop _ cleanedComment) as [ | d rest']; [left; reflexivity | ].
  right. exists d, rest'. split; [reflexivity | ].
  apply orb_true_iff in Hnext as [Hnext | Htab].
  - apply orb_true_iff in Hnext as [Hspace | Hcolon].
    + apply Ascii.eqb_eq in Hspace as ->. set_solver.
    + apply Ascii.eqb_eq in Hcolon as ->. set_solver.
  - apply Ascii.eqb_eq in Htab as ->. set_solver.
Qed.

Lemma find_first {A : Type} (f : A -> bool) (xs : list A) (x : A) :
  List.find f xs = Some x ->
  exists before after,
    xs = (before ++ x :: after)%list
    /\ f x = true /\ forallb (fun y => negb (f y)) before = true.
Proof.
  induction xs as [ | y xs IH]; simpl; [discriminate | ].
  destruct (f y) eqn:Hy.
  - intros [= <-]. exists [], xs. auto.
  - intros H. destruct (IH H) as (before & after & -> & Hx & Hb).
    exists (y :: before), after. simpl. rewrite Hy. auto.
Qed.

Lemma matches_intro (rule : TagRule) (rest : string) :
  (rest = EmptyString
   \/ exists d rest',
        rest = String d rest' /\ d ∈ [" "%char; ":"%char; "009"%char]) ->
  matches (toLowerCase (tag rule) ++ rest) rule = true.
Proof.
  intros Hrest. unfold matches.
  rewrite startsWith_prefix, charAt_append. simpl.
  destruct Hrest as [-> | (d & rest' & -> & Hd)]; [reflexivity | ].
  repeat (apply elem_of_cons in Hd as [-> | Hd]; [reflexivity | ]).
  apply elem_of_nil in Hd. destruct Hd.
Qed.

Lemma find_intro {A : Type} (f : A -> bool) (before after : list A) (x : A) :
  forallb (fun y => negb (f y)) before = true ->
  f x = true ->
  List.find f (before ++ x :: after)%list = Some x.
Proof.
  intros Hb Hx. induction before as [ | y before IH]; simpl.
  - rewrite Hx. reflexivity.
  - simpl in Hb. apply andb_true_iff in Hb as [Hy Hb].
    apply negb_true_iff in Hy. rewrite Hy. exact (IH Hb).
Qed.

(** A rule can be checked as long as it is not [null]. *)
Lemma validateRule_returns (rule : json) :
  isNull rule = false -> exists o, validateRule rule = Returns o.
Proof.
  intros Hnull. unfold validateRule.
  destruct (negb (isObject rule)); [eauto | ].
  assert (Hget : forall key, exists v, get rule key = Returns v).
  { intros key. destruct rule; try discriminate; simpl; eauto. }
  destruct (Hget "tag") as [v ->]. rewrite bind_returns.
  destruct (asString v); [ | eauto].
  destruct (Hget "color") as [v' ->]. rewrite bind_returns.
  destruct (asString v'); [ | eauto].
  destruct (negb _); [eauto | ].
  destruct (Hget "strikethrough") as [got1 ->]. rewrite bind_returns.
  destruct (asBoolean got1); [ | eauto].
  destruct (Hget "underline") as [got2 ->]. rewrite bind_returns.
  destruct (asBoolean got2); [ | eauto].
  destruct (Hget "bold") as [got3 ->]. rewrite bind_returns.
  destruct (asBoolean got3); [ | eauto].
  destruct (Hget "italic") as [got4 ->]. rewrite bind_returns.
  destruct (asBoolean got4); eauto.
Qed.

Lemma validateRule_color (rule : json) (r : TagRule) :
  validateRule rule = Returns (Some r) -> test re_color (color r) = true.
Proof.
  unfold validateRule. destruct (negb (isObject rule)); [discriminate | ].
  intros H. apply bind_inv in H as (v & _ & H).
  destruct (asString v); [ | discriminate].
  apply bind_inv in H as (v' & _ & H).
  destruct (asString v') as [c | ]; [ | discriminate].
  destruct (test re_color c) eqn:Hc; [ | discriminate]. simpl in H.
  apply bind_inv in H as (got1 & _ & H). destruct (asBoolean got1); [ | discriminate].
  apply bind_inv in H as (got2 & _ & H). destruct (asBoolean got2); [ | discriminate].
  apply bind_inv in H as (got3 & _ & H). destruct (asBoolean got3); [ | discriminate].
  apply bind_inv in H as (got4 & _ & H). destruct (asBoolean got4); [ | discriminate].
  injection H as <-. exact Hc.
Qed.

(** the rules of one entry *)
Lemma loadRules_one (rule : json) :
  loadRules (JArray [rule])
  = match validateRule rule with
    | Returns (Some r) => [r]
    | _ => []
    end.
Proof.
  unfold loadRules. simpl. destruct (validateRule rule) as [[r | ] | err];
    reflexivity.
Qed.

Lemma validRules_without_null (rules : list json) :
  existsb isNull rules = false ->
  validRules rules
  = Returns (concat (map (fun rule => loadRules (JArray [rule])) rules)).
Proof.
  induction rules as [ | rule rules IH]; [reflexivity | ].
  intros H. apply orb_false_iff in H as [Hrule Hrules].
  cbn [validRules map concat]. rewrite loadRules_one.
  destruct (validateRule_returns rule Hrule) as [o ->].
  rewrite bind_returns, (IH Hrules), bind_returns.
  destruct o; reflexivity.
Qed.

Lemma validRules_with_null (rules : list json) :
  existsb isNull rules = true -> exists err, validRules rules = Throws err.
Proof.
  induction rules as [ | rule rules IH]; [discriminate | ].
  intros H. cbn [validRules].
  destruct (isNull rule) eqn:Hrule.
  - destruct rule; try discriminate. simpl. eauto.
  - simpl in H. rewrite Hrule in H. simpl in H.
    destruct (validateRule_returns rule Hrule) as [o ->].
    rewrite bind_returns. destruct (IH H) as [err ->]. simpl. eauto.
Qed.

Lemma validRules_color (rules : list json) (rs : list TagRule) :
  validRules rules = Returns rs ->
  Forall (fun r => test re_color (color r) = true) rs.
Proof.
  revert rs. induction rules as [ | rule rules IH]; intros rs.
  - intros [= <-]. constructor.
  - cbn [validRules]. intros H.
    apply bind_inv in H as (o & Ho & H).
    apply bind_inv in H as (rs' & Hrs' & [= <-]).
    specialize (IH rs' Hrs').
    destruct o as [r | ]; [ | exact IH].
    constructor; [ | exact IH]. eapply validateRule_color; eauto.
Qed.

End TagRules.

(** ** CodeStructViewProvider: label and tooltip *)

Section LabelAndTooltip.
Import CodeStructViewProvider.

Lemma label_of_callable (e : CodeElement) :
  isCallable e = true ->
  formatCodeElementLabel e
  = match parameters e with
    | Some ps => signature e ++ "(" ++ ps ++ ")"
    | None => signature e
    end.
Proof. intros Hcall. unfold formatCodeElementLabel. rewrite Hcall. reflexivity. Qed.

(** The tooltip of a callable is its signature, with the parameter text
    if there is any, and then nothing or sections that begin on a new
    line. *)
Lemma tooltip_of_callable (e : CodeElement) :
  isCallable e = true ->
  exists shown,
    buildTooltip e
    = (if BaseParser.truthy_opt (parameters e)
       then signature e ++ "(" ++ default EmptyString (parameters e) ++ ")"
       else signature e) ++ shown
    /\ (shown = EmptyString \/ exists x, shown = String "010"%char x).
Proof.
  intros Hcall. unfold buildTooltip. rewrite Hcall. cbv zeta.
  fold (signature e).
  set (base := if BaseParser.truthy_opt (parameters e) then _ else _).
  destruct (BaseParser.truthy_opt (comment e)),
           (params e) as [[ | pr prs] | ],
           (BaseParser.truthy_opt (returns e));
    first [ exists EmptyString;
            split; [symmetry; apply append_nil_r | left; reflexivity]
          | eexists; split;
            [rewrite ?append_assoc; reflexivity | right; eexists; reflexivity] ].
Qed.

End LabelAndTooltip.

(** ** JavaScriptParser: the shape of the trees *)

(** What every turn keeps holds when the loop is left. *)
Lemma forLoop_inv {St : Type} (P : St -> Prop) (Q : Z -> Prop)
    (body : Z -> St -> js (St * bool)) todo st st' :
  (forall i st r, Q i -> P st -> body i st = Returns r -> P (fst r)) ->
  Forall Q todo ->
  P st -> JavaScriptParser.forLoop body todo st = Returns st' -> P st'.
Proof.
  intros Hbody Hall. revert st.
  induction Hall as [ | i todo Hi _ IH]; intros st Hst; simpl.
  - intros [= <-]. exact Hst.
  - intros H. apply bind_inv in H as ([st1 b] & H1 & H).
    pose proof (Hbody i st _ Hi Hst H1) as Hst1. simpl in *.
    destruct b; [injection H as <-; exact Hst1 | eapply IH; eauto].
Qed.

Lemma Forall_True {A : Type} (xs : list A) : Forall (fun _ => True) xs.
Proof. induction xs; constructor; trivial. Qed.

Lemma created_entryShape t n l lineText lines returnType parameters lineIndex e :
  t <> Constructor ->
  createElement n t l lineText lines returnType parameters lineIndex = Returns e ->
  entryShape t e /\ name e = n.
Proof.
  intros Ht H. apply createElement_inv in H as [c ->].
  split; [ | reflexivity]. split; [reflexivity | ].
  unfold created. simpl.
  destruct t; simpl; try reflexivity; try congruence.
  apply pseudoChildren_pseudoShape.
Qed.

Section ScriptShape.
Import JavaScriptParser.

Lemma methodsLine_shape lines startLineOffset i st r :
  Forall (entryShape Method) (methods st) ->
  methodsLine lines startLineOffset i st = Returns r ->
  Forall (entryShape Method) (methods (fst r)).
Proof.
  intros Hall. unfold methodsLine. intros H.
  apply bind_inv in H as (l & _ & H).
  destruct (isBlankOrComment (trim l)); [injection H as <-; exact Hall | ].
  destruct (_ && _); [injection H as <-; exact Hall | ].
  destruct (negb _); [injection H as <-; exact Hall | ].
  destruct (inMethodBody st); [injection H as <-; exact Hall | ].
  destruct (firstMatch _ (trim l)).
  - apply bind_inv in H as (n & _ & H).
    apply bind_inv in H as (ps & _ & H).
    apply bind_inv in H as (e & He & [= <-]). simpl.
    apply created_entryShape in He as [He _]; [ | discriminate].
    apply Forall_app_2; [exact Hall | constructor; [exact He | constructor]].
  - destruct (String.eqb _ _); injection H as <-; exact Hall.
Qed.

Lemma bagLine_shape key patterns t lines startLineOffset i st r :
  t <> Constructor ->
  Forall (entryShape t) (entries st) ->
  bagLine key patterns t lines startLineOffset i st = Returns r ->
  Forall (entryShape t) (entries (fst r)).
Proof.
  intros Ht Hall. unfold bagLine. intros H.
  apply bind_inv in H as (l & _ & H).
  destruct (isBlankOrComment (trim l)); [injection H as <-; exact Hall | ].
  destruct (_ && _); [injection H as <-; exact Hall | ].
  destruct (negb _); [injection H as <-; exact Hall | ].
  destruct (firstMatch _ (trim l)); [ | injection H as <-; exact Hall].
  apply bind_inv in H as (n & _ & H).
  apply bind_inv in H as (e & He & [= <-]). simpl.
  apply created_entryShape in He as [He _]; [ | exact Ht].
  apply Forall_app_2; [exact Hall | constructor; [exact He | constructor]].
Qed.

Lemma dataLine_shape lines startLineOffset i st r :
  Forall (entryShape Variable_) (data st) ->
  dataLine lines startLineOffset i st = Returns r ->
  Forall (entryShape Variable_) (data (fst r)).
Proof.
  intros Hall. unfold dataLine. intros H.
  apply bind_inv in H as (l & _ & H).
  destruct (isBlankOrComment (trim l)); [injection H as <-; exact Hall | ].
  destruct (_ && _); [injection H as <-; exact Hall | ].
  destruct (negb _); [injection H as <-; exact Hall | ].
  destruct (_ && _); [injection H as <-; exact Hall | ].
  destruct (negb _); [injection H as <-; exact Hall | ].
  destruct (exec re_entry (trim l)); [ | injection H as <-; exact Hall].
  apply bind_inv in H as (n & _ & H).
  apply bind_inv in H as (e & He & [= <-]). simpl.
  apply created_entryShape in He as [He _]; [ | discriminate].
  apply Forall_app_2; [exact Hall | constructor; [exact He | constructor]].
Qed.

Lemma parseBagContent_shape key patterns t lines startLine endLine
    startLineOffset cs :
  t <> Constructor ->
  parseBagContent key patterns t lines startLine endLine startLineOffset
  = Returns cs ->
  Forall (entryShape t) cs.
Proof.
  intros Ht. unfold parseBagContent. intros H.
  apply bind_inv in H as (st & Hst & [= <-]).
  eapply (forLoop_inv (fun st => Forall (entryShape t) (entries st))
            (fun _ => True));
    [ | apply Forall_True | | exact Hst]; [ | constructor].
  intros i s r _. apply bagLine_shape. exact Ht.
Qed.

(** The entries of a tracked option are of the kind of the option. *)
Lemma parseContent_shape n r k lines startLine endLine startLineOffset
    content cs :
  (n, r, k) ∈ vuePropertyPatterns ->
  parseContent k lines startLine endLine startLineOffset = Some content ->
  content = Returns cs ->
  exists t, entryKind n = Some t /\ Forall (entryShape t) cs.
Proof.
  intros Hin Hcontent ->.
  assert (Hname : tracked k = true -> entryKind n = match k with
                    | methods_ | watch => Some Method
                    | computed | props => Some Property
                    | data_ => Some Variable_
                    | _ => None
                    end).
  { unfold vuePropertyPatterns in Hin.
    repeat (apply elem_of_cons in Hin as [[= -> -> ->] | Hin];
            [intros Hk; try discriminate Hk; reflexivity | ]).
    apply elem_of_nil in Hin. destruct Hin. }
  destruct k; simpl in Hcontent; try discriminate;
    injection Hcontent as Hcontent; rewrite (Hname eq_refl);
    eexists; (split; [reflexivity | ]).
  - unfold parseDataContent in Hcontent.
    apply bind_inv in Hcontent as (st & Hst & [= <-]).
    eapply (forLoop_inv (fun st => Forall (entryShape Variable_) (data st))
              (fun _ => True));
      [ | apply Forall_True | | exact Hst]; [ | constructor].
    intros i s r' _. apply dataLine_shape.
  - unfold parseMethodsContent in Hcontent.
    apply bind_inv in Hcontent as (st & Hst & [= <-]).
    eapply (forLoop_inv (fun st => Forall (entryShape Method) (methods st))
              (fun _ => True));
      [ | apply Forall_True | | exact Hst]; [ | constructor].
    intros i s r' _. apply methodsLine_shape.
  - eapply parseBagContent_shape; [ | exact Hcontent]. discriminate.
  - eapply parseBagContent_shape; [ | exact Hcontent]. discriminate.
  - eapply parseBagContent_shape; [ | exact Hcontent]. discriminate.
Qed.

Lemma findByName_lookup n els place :
  findByName n els = Some place ->
  exists e, els !! place = Some e /\ name e = n.
Proof.
  revert place. induction els as [ | e els IH]; intros place; simpl;
    [discriminate | ].
  destruct (String.eqb_spec (name e) n) as [Hn | Hn].
  - intros [= <-]. exists e. auto.
  - destruct (findByName n els) as [k | ]; [ | discriminate].
    intros [= <-]. destruct (IH k eq_refl) as (x & Hx & Hname). exists x. auto.
Qed.

Lemma closeProperty_shape lines startLineOffset i braceCount cp
    lineBraceCount st st' :
  exporting st -> currentProperty st = Some cp ->
  closeProperty lines startLineOffset i braceCount cp lineBraceCount st
  = Returns st' ->
  exporting st'.
Proof.
  intros [Hall Hopen] Hcp. destruct (Hopen cp Hcp) as (Hstart & r & Hin).
  unfold closeProperty. cbn [op_braceCount op_name op_startLine op_type].
  destruct (_ <=? 0).
  - destruct (findByName (op_name cp) (properties st)) as [place | ] eqn:Hfind.
    + destruct (parseContent (op_type cp) lines (op_startLine cp) (i + 1)
                  startLineOffset) as [content | ] eqn:Hcontent.
      * intros H. apply bind_inv in H as (cs & Hcs & [= <-]).
        destruct (parseContent_shape _ _ _ _ _ _ _ _ cs Hin Hcontent Hcs)
          as (t & Hkind & Hshape).
        apply findByName_lookup in Hfind as (e & He & Hname).
        split; [ | simpl; discriminate]. simpl.
        apply Forall_alter; [exact Hall | ].
        intros x Hx (Ht & Hn & _). rewrite He in Hx. injection Hx as <-.
        split; [exact Ht | ]. split; [exact Hn | ]. simpl.
        rewrite Hname, Hkind. exact Hshape.
      * intros [= <-]. split; [exact Hall | simpl; discriminate].
    + intros [= <-]. split; [exact Hall | simpl; discriminate].
  - intros [= <-]. split; [exact Hall | ]. simpl. intros cp' [= <-]. simpl.
    split; [exact Hstart | eauto].
Qed.

Lemma matchingProperty_in trimmedLine n r k :
  matchingProperty trimmedLine = Some (n, r, k) -> (n, r, k) ∈ vuePropertyPatterns.
Proof.
  unfold matchingProperty. intros H. apply find_some in H as [H _].
  apply list_elem_of_In. exact H.
Qed.

Lemma exportLine_shape lines startLineOffset i st r :
  0 <= i -> exporting st ->
  exportLine lines startLineOffset i st = Returns r -> exporting (fst r).
Proof.
  intros Hi Hinv. pose proof Hinv as [Hall Hopen]. unfold exportLine. intros H.
  apply bind_inv in H as (l & _ & H).
  destruct (isBlankOrComment (trim l)); [injection H as <-; exact Hinv | ].
  destruct (_ && _); [injection H as <-; exact Hinv | ].
  destruct (negb _); [injection H as <-; exact Hinv | ].
  destruct (currentProperty st) as [cp | ] eqn:Hcp.
  - apply bind_inv in H as (st' & Hst' & [= <-]). simpl.
    eapply closeProperty_shape; eauto.
  - destruct (matchingProperty (trim l)) as [[[n rx] k] | ] eqn:Hm.
    + apply matchingProperty_in in Hm.
      apply bind_inv in H as (e & He & [= <-]). simpl.
      apply created_entryShape in He as [[Ht Hleaf] Hname]; [ | discriminate].
      simpl in Hleaf. split; simpl.
      * apply Forall_app_2; [exact Hall | ]. constructor; [ | constructor].
        split; [exact Ht | ]. split.
        -- rewrite Hname. eauto.
        -- unfold leaf in Hleaf.
           destruct (entryKind (name e)); [ | exact Hleaf].
           rewrite Hleaf. apply Forall_nil_2.
      * destruct (tracked k); [ | discriminate].
        intros cp [= <-]. simpl. split; [lia | eauto].
    + injection H as <-. split; [exact Hall | simpl; discriminate].
Qed.

Lemma parseExportDefaultProperties_shape lines startLine startLineOffset ps :
  1 <= startLine ->
  parseExportDefaultProperties lines startLine startLineOffset = Returns ps ->
  Forall optionShape ps.
Proof.
  intros Hs. unfold parseExportDefaultProperties. intros H.
  apply bind_inv in H as (st & Hst & [= <-]).
  eapply (forLoop_inv exporting (fun i => 0 <= i)); [ | | | exact Hst].
  - intros i s r. apply exportLine_shape.
  - eapply Forall_impl; [apply for_up_range | ]. simpl. lia.
  - split; [constructor | simpl; discriminate].
Qed.

Lemma js_parseSimple_shape rs t text lineNum lines e :
  t <> Method -> t <> Constructor ->
  parseSimple rs t text lineNum lines = Returns (Some e) ->
  type e = t /\ leaf e.
Proof.
  intros Hm Hc. unfold parseSimple. destruct (firstMatch rs text); [ | discriminate].
  intros H. apply bind_inv in H as (g & _ & H).
  apply bind_inv in H as (e' & He' & [= <-]).
  apply createElement_inv in He' as [c ->].
  split; [reflexivity | apply created_flat; assumption].
Qed.

Lemma js_parseDeclaration_shape trimmedLine lineNum lines e :
  parseDeclaration trimmedLine lineNum lines = Returns (Some e) -> scriptShape e.
Proof.
  unfold parseDeclaration. intros H. right.
  apply bind_inv in H as ([c | ] & Hc & H).
  { injection H as <-. apply js_parseSimple_shape in Hc as [-> Hl];
      [auto | discriminate | discriminate]. }
  apply bind_inv in H as ([f | ] & Hf & H).
  { injection H as <-. apply js_parseSimple_shape in Hf as [-> Hl];
      [auto | discriminate | discriminate]. }
  apply js_parseSimple_shape in H as [-> Hl]; [auto | discriminate | discriminate].
Qed.

Lemma js_scanLine_shape lines startLineOffset st l st' :
  0 <= lineNum st -> Forall scriptShape (elements st) ->
  scanLine lines startLineOffset st l = Returns st' ->
  Forall scriptShape (elements st').
Proof.
  intros Hn Hall. unfold scanLine.
  destruct (isComment (trim l)); [intros [= <-]; exact Hall | ].
  destruct (_ && _).
  { intros H. apply bind_inv in H as (ps & Hps & [= <-]). simpl.
    apply Forall_app_2; [exact Hall | ]. constructor; [ | constructor].
    left. split; [reflexivity | ]. split; [reflexivity | ]. simpl.
    destruct (0 <? _).
    - eapply parseExportDefaultProperties_shape; [ | exact Hps]. lia.
    - injection Hps as <-. constructor. }
  destruct (inExportDefault st); [intros [= <-]; exact Hall | ].
  intros H. apply bind_inv in H as ([e | ] & He & [= <-]); [ | exact Hall].
  simpl. apply Forall_app_2; [exact Hall | ].
  constructor; [ | constructor]. eapply js_parseDeclaration_shape; eauto.
Qed.

End ScriptShape.

(** ** The loops that strip the markers of a comment *)

Lemma trimStart_tight (s : string) : beginsTight (trimStart s).
Proof.
  induction s as [ | a s IH]; simpl; [exact I | ].
  destruct (is_space a) eqn:Ha; [exact IH | exact Ha].
Qed.

Lemma trimEnd_tight (s : string) : beginsTight s -> beginsTight (trimEnd s).
Proof.
  destruct s as [ | a s]; simpl; [intros _; exact I | ].
  intros Ha. destruct (trimEnd s); [rewrite Ha | ]; exact Ha.
Qed.

(** What [trim] returns does not begin with white space. *)
Lemma trim_tight (s : string) : beginsTight (trim s).
Proof. apply trimEnd_tight, trimStart_tight. Qed.

Lemma tight_startsWith_space (s : string) :
  beginsTight s -> startsWith s " " = false.
Proof.
  destruct s as [ | a s]; [reflexivity | ]. simpl. intros Ha.
  destruct (Ascii.eqb_spec a " "%char) as [-> | _]; [discriminate | reflexivity].
Qed.

(** A loop that strips a marker leaves the text as it is or trims it. *)
Lemma strip_leading_loop_tight (fuel : nat) (c s : string) :
  beginsTight s -> beginsTight (BaseParser.strip_leading_loop fuel c s).
Proof.
  revert s. induction fuel as [ | fuel IH]; intros s Hs; simpl; [exact Hs | ].
  destruct (startsWith s c); [ | exact Hs]. apply IH, trim_tight.
Qed.

Lemma strip_leading_tight (c s : string) :
  beginsTight s -> beginsTight (BaseParser.strip_leading c s).
Proof. apply strip_leading_loop_tight. Qed.

(** The loop for spaces has nothing to do on such a text. *)
Lemma strip_leading_space (s : string) :
  beginsTight s -> BaseParser.strip_leading " " s = s.
Proof.
  intros Hs. unfold BaseParser.strip_leading.
  destruct (String.length s); simpl; [reflexivity | ].
  rewrite (tight_startsWith_space s Hs). reflexivity.
Qed.

Lemma trimEnd_cons (a : ascii) (s : string) :
  is_space a = false -> trimEnd (String a s) = String a (trimEnd s).
Proof.
  intros Ha. simpl. destruct (trimEnd s); [rewrite Ha | ]; reflexivity.
Qed.

Lemma trim_cons (a : ascii) (s : string) :
  is_space a = false -> trim (String a s) = String a (trimEnd s).
Proof.
  intros Ha. unfold trim. cbn [trimStart]. rewrite Ha. apply trimEnd_cons, Ha.
Qed.

(** A loop has nothing to do on a text that does not begin with its
    marker. *)
Lemma strip_leading_other (c s : string) :
  startsWith s c = false -> BaseParser.strip_leading c s = s.
Proof.
  intros H. unfold BaseParser.strip_leading.
  destruct (String.length s); simpl; [reflexivity | ].
  rewrite H. reflexivity.
Qed.

(** * Further properties of the code *)

(** Each of them is stated about the definitions above and proved from
    the lemmas of the preceding part. *)

(** ** CSharpParser *)

Section BraceDepthTrees.
Import CSharpParser.

(** X1.  The brace-depth scanner returns a forest of a fixed shape, for
    every input: a root is a class, an interface, an enum or a namespace;
    below a namespace there are only classes, interfaces and enums; below
    a class only constructors, methods, properties and fields; interfaces,
    enums, properties and fields have no children, and below a constructor
    or method there are only the synthesized nodes of kind [Variable_].
    No class is ever below a class, and no namespace below a
    namespace. *)
Theorem X1_csharp_tree_shape (lines : list string) :
  exists elements,
    CSharpParser.parse lines = Returns elements /\ Forall rootShape elements.
Proof.
  destruct (parse_returns lines) as [elements H]. exists elements.
  split; [exact H | ].
  unfold parse in H. apply bind_inv in H as (st & Hst & [= <-]).
  apply (scan_shaped lines lines initial st); [ | exact Hst].
  split; [constructor | split; simpl; discriminate].
Qed.

(** X2.  Every element that the brace-depth scanner returns, at any
    depth, bears the number of one of the lines of its input, counted from
    1; the children of an element are on its line or on later ones, in
    the order of their lines, and the roots are on lines that increase
    strictly. *)
Theorem X2_csharp_lines (lines : list string) :
  exists elements,
    CSharpParser.parse lines = Returns elements
    /\ Forall (everywhere (positioned (lengthZ lines))) elements
    /\ inOrder elements.
Proof.
  destruct (parse_returns lines) as [elements H]. exists elements.
  split; [exact H | ].
  unfold parse in H. apply bind_inv in H as (st & Hst & [= <-]).
  apply (cs_scan_numbered lines lines initial st); [simpl; lia | | exact Hst].
  split; [constructor | ]. intros i j a b _ Ha. discriminate.
Qed.

End BraceDepthTrees.

(** ** JavaScriptParser *)

Section ScriptTrees.
Import JavaScriptParser.

(** X3.  The script scanner never throws, whatever the lines and the
    offset, and returns a forest of a fixed shape: a root is the element
    of an export, of kind [Class] and named [export default], or a class,
    a function or an interface without children; below an export there
    are only properties that bear one of the names of
    [vuePropertyPatterns]; below [methods] and [watch] there are methods
    over synthesized nodes, below [computed] and [props] properties
    without children, below [data] variables without children, and
    nothing below the other options. *)
Theorem X3_script_tree_shape (lines : list string) (startLineOffset : Z) :
  exists elements,
    JavaScriptParser.parse lines startLineOffset = Returns elements
    /\ Forall scriptShape elements.
Proof.
  destruct (js_parse_returns lines startLineOffset) as [elements H].
  exists elements. split; [exact H | ].
  unfold parse in H. apply bind_inv in H as (st & Hst & [= <-]).
  assert (Hgen : forall todo (st0 : state),
            0 <= lineNum st0 -> Forall scriptShape (elements st0) ->
            scan lines startLineOffset todo st0 = Returns st ->
            Forall scriptShape (elements st)).
  { induction todo as [ | l todo IH]; intros st0 Hn Hall; simpl.
    - intros [= <-]. exact Hall.
    - intros H. apply bind_inv in H as (st1 & H1 & H).
      apply (IH st1); [ | | exact H].
      + apply js_scanLine_root in H1 as [Hln _]. lia.
      + eapply js_scanLine_shape; eauto. }
  apply (Hgen lines initial); [simpl; lia | constructor | exact Hst].
Qed.

(** X4.  Without an offset, every root of the script scanner bears the
    number of a line of the input, counted from 1, and the roots are on
    lines that increase strictly. *)
Theorem X4_script_roots_in_order (lines : list string) :
  exists elements,
    JavaScriptParser.parse lines 0 = Returns elements
    /\ Forall (fun e => 1 <= line e <= lengthZ lines) elements
    /\ inOrder elements.
Proof.
  destruct (js_parse_returns lines 0) as [elements H].
  exists elements. split; [exact H | ].
  unfold parse in H. apply bind_inv in H as (st & Hst & [= <-]).
  apply (js_scan_order lines lines initial st); [simpl; lia | constructor | | exact Hst].
  intros i j a b _ Ha. discriminate.
Qed.

End ScriptTrees.

(** ** VueParser *)

Section Components.
Import VueParser.

(** X5.  The container scanner never throws.  Every element of its
    result is the element of a [script] or [style] tag, named [script],
    [style] or [style scoped], on one of the lines of the input; the
    elements are on lines that increase strictly; a style element has no
    children, and the children of a script element, if it has any, are
    what the script scanner returns for some lines with the number of the
    line of the tag plus one as the offset. *)
Theorem X5_vue_regions (lines : list string) :
  exists elements,
    VueParser.parse lines = Returns elements
    /\ Forall (region (lengthZ lines)) elements
    /\ inOrder elements.
Proof.
  rewrite parse_never_falls_back.
  destruct (vue_scan_regions lines initial) as (st & -> & Hln & Hinv).
  { split; [simpl; lia | ]. split; [constructor | ]. split.
    - intros i j a b _ Ha. discriminate.
    - discriminate. }
  rewrite bind_returns. exists (elements st). split; [reflexivity | ].
  destruct Hinv as (_ & Hall & Hord & _). simpl in Hln.
  rewrite Hln in Hall. auto.
Qed.

(** X6.  The text between a template tag and the line that closes the
    template has no part in the result: two files that differ only there,
    in as many lines that keep the template open, have the same
    structure. *)
Theorem X6_vue_template_lines_are_ignored
    (before : list string) (tag : string) (body body' after : list string) :
  VueParser.isTag "template" (trim tag) = true ->
  length body = length body' ->
  forallb keepsTemplateOpen body = true ->
  forallb keepsTemplateOpen body' = true ->
  VueParser.parse (before ++ tag :: body ++ after)
  = VueParser.parse (before ++ tag :: body' ++ after).
Proof.
  intros Htag Hlen Hbody Hbody'. unfold parse.
  assert (Hscan : scan (before ++ tag :: body ++ after) initial
                  = scan (before ++ tag :: body' ++ after) initial).
  { rewrite !vue_scan_app.
    destruct (scan before initial) as [st | err]; [ | reflexivity].
    rewrite !bind_returns. simpl.
    assert (Hstep : scanLine st tag
                    = Returns (mkState (elements st) (lineNum st + 1)
                                 (inScriptTag st) (scriptContent st)
                                 (scriptElement st) (styleStartLine st) true
                                 (inStyle st))).
    { unfold scanLine. rewrite Htag. reflexivity. }
    rewrite Hstep, !bind_returns, !vue_scan_app.
    rewrite !vue_scan_in_template by (assumption || reflexivity).
    unfold lengthZ. rewrite Hlen. reflexivity. }
  rewrite Hscan. reflexivity.
Qed.

(** X6 on a file with a script region, a template of two lines and a
    style region: the tags inside the template do not count. *)
Lemma X6_vue_template_lines_are_ignored_witness :
  VueParser.parse
    (["<script>"; "</script>"]
       ++ "<template>" :: ["<div>"; "<style>"]
       ++ ["</template>"; "<style scoped>"])
  = VueParser.parse
      (["<script>"; "</script>"]
         ++ "<template>" :: ["function f() {}"; EmptyString]
         ++ ["</template>"; "<style scoped>"]).
Proof. apply X6_vue_template_lines_are_ignored; reflexivity. Defined.

(** X7.  The markup scan with the tag stack never throws: at every turn
    the frames of the stack refer to elements of the forest.  All the
    elements of its result, at any depth, are of kind [Module], have the
    access modifier [Default], keep the name of their tag and are on one
    of the lines that were scanned, counted from [startLine]. *)
Theorem X7_template_scan_markup (lines : list string) (startLine : Z) :
  exists elements,
    VueParser.parseTemplateContent lines startLine = Returns elements
    /\ Forall (everywhere (markup startLine (lengthZ lines))) elements.
Proof.
  unfold parseTemplateContent.
  destruct (forLoop_returns
              (fun st => stacked st
                         /\ Forall (everywhere (markup startLine (lengthZ lines)))
                              (t_elements st))
              (fun i => 0 <= i < lengthZ lines)
              (templateLine lines startLine)
              (for_up 0 (lengthZ lines - 1))
              (mkTemplateState [] [])) as (st & -> & _ & Hall).
  - intros i st Hi [Hst Hall]. apply templateLine_returns; assumption.
  - eapply Forall_impl; [apply for_up_range | ]. simpl. lia.
  - split; constructor.
  - rewrite bind_returns. eauto.
Qed.

End Components.

(** ** HtmlParser and JavaParser *)

Section MarkupFlat.
Import HtmlParser.

(** X8.  The markup scanner that is registered for [.html] and [.htm]
    never throws and returns a flat list: elements of kind [Module]
    without children, each on one of the lines of the input, on lines
    that increase strictly (at most one element per line). *)
Theorem X8_html_flat_list (lines : list string) :
  exists elements,
    HtmlParser.parse lines = Returns elements
    /\ flat [Module] (lengthZ lines) elements.
Proof.
  unfold parse.
  destruct (html_scan_flat lines lines ([], 0)) as (st & -> & Hflat);
    [simpl; lia | apply flat_nil | ].
  rewrite bind_returns. eauto.
Qed.

End MarkupFlat.

Section JavaFlat.
Import JavaParser.

(** X9.  The scanner for Java never throws and returns a flat list:
    classes, interfaces, enums and, for the packages, namespaces, all
    without children, each on one of the lines of the input, on lines
    that increase strictly (at most one element per line, and no members
    at all). *)
Theorem X9_java_flat_list (lines : list string) :
  exists elements,
    JavaParser.parse lines = Returns elements
    /\ flat [Class; Interface; Namespace; Enum] (lengthZ lines) elements.
Proof.
  unfold parse.
  destruct (java_scan_flat lines lines ([], 0)) as (st & -> & Hflat);
    [simpl; lia | apply flat_nil | ].
  rewrite bind_returns. eauto.
Qed.

End JavaFlat.

(** ** ParserFactory and its caller *)

(** X10.  The registry the extension starts with supports exactly the
    paths whose text from the last dot on is, in any mix of upper and
    lower case, one of its seven extensions. *)
Theorem X10_builtin_extensions (filePath : string) :
  ParserFactory.isSupported ParserFactory.parsers filePath = true
  <-> ParserFactory.extension filePath
      ∈ [".cs"; ".java"; ".js"; ".ts"; ".vue"; ".html"; ".htm"].
Proof.
  unfold ParserFactory.isSupported. rewrite bool_decide_eq_true. split.
  - intros [c Hc]. apply parsers_lookup in Hc. tauto.
  - apply parsers_supported.
Qed.

(** X11.  With the registry the extension starts with, the [catch] of
    [parseWithCustomParser] is never entered: for a path with a parser
    the result is what the [parse] of that parser returns, and for every
    other path it is empty. *)
Theorem X11_custom_parsing_never_fails
    (custom : string -> list string -> js (list CodeElement))
    (lines : list string) (filePath : string) :
  match ParserFactory.createParser ParserFactory.parsers filePath with
  | Some parser =>
      FileStructureParser.parseWith custom parser lines
      = Returns (FileStructureParser.parseWithCustomParser ParserFactory.parsers
                   custom lines filePath)
  | None =>
      FileStructureParser.parseWithCustomParser ParserFactory.parsers custom
        lines filePath = []
  end.
Proof.
  unfold FileStructureParser.parseWithCustomParser, ParserFactory.createParser.
  destruct (ParserFactory.parsers !! ParserFactory.extension filePath)
    as [c | ] eqn:Hc; [ | reflexivity].
  apply parsers_lookup in Hc as [_ Hc].
  assert (Hret : exists es,
            FileStructureParser.parseWith custom (ParserFactory.New c) lines
            = Returns es).
  { repeat (apply elem_of_cons in Hc as [-> | Hc]); simpl.
    - apply parse_returns.
    - unfold JavaParser.parse.
      destruct (java_scan_flat lines lines ([], 0)) as (st & -> & _);
        [simpl; lia | apply flat_nil | ].
      rewrite bind_returns. eauto.
    - apply js_parse_returns.
    - apply vue_parse_returns.
    - unfold HtmlParser.parse.
      destruct (html_scan_flat lines lines ([], 0)) as (st & -> & _);
        [simpl; lia | apply flat_nil | ].
      rewrite bind_returns. eauto.
    - apply elem_of_nil in Hc. destruct Hc. }
  destruct Hret as [es ->]. reflexivity.
Qed.

(** ** FileStructureParser: the symbols of the language server *)

Section SymbolPath.
Import FileStructureParser.

(** X12.  The elements made from the symbols of the language server
    stand for them one by one, as long as every symbol starts on a line
    of the document or right after its last line: same names, the kind
    that belongs to the kind of the symbol, the line of the symbol counted
    from 1, the children in their order, and nothing below a method, a
    function or a constructor. *)
Theorem X12_symbols_are_mirrored (symbols : list DocumentSymbol.t)
    (lines : list string) (fileExt : string) :
  forallb (within (length lines)) symbols = true ->
  exists elements,
    FileStructureParser.symbolsToCodeElements symbols lines fileExt
    = Returns elements
    /\ allMirror symbols elements.
Proof.
  unfold symbolsToCodeElements.
  induction symbols as [ | s symbols IH]; simpl.
  { exists []. split; [reflexivity | exact I]. }
  intros H. apply andb_true_iff in H as [Hs Hrest].
  destruct (symbolToElement_mirrors lines fileExt s Hs) as (e & -> & He).
  rewrite bind_returns.
  destruct (IH Hrest) as (es & -> & Hes). rewrite bind_returns.
  eexists; split; [reflexivity | ]. split; assumption.
Qed.

(** X12 on a class with a method that has a local variable: the
    variable is left out. *)
Lemma X12_symbols_are_mirrored_witness :
  exists elements,
    FileStructureParser.symbolsToCodeElements
      [DocumentSymbol.make "Foo" SymbolKind.Class 0
         [DocumentSymbol.make "run" SymbolKind.Method 1
            [DocumentSymbol.make "x" SymbolKind.Variable_ 2 []]]]
      ["class Foo {"; "int run() {"; "int x;"] ".cs"
    = Returns elements
    /\ allMirror
         [DocumentSymbol.make "Foo" SymbolKind.Class 0
            [DocumentSymbol.make "run" SymbolKind.Method 1
               [DocumentSymbol.make "x" SymbolKind.Variable_ 2 []]]]
         elements.
Proof. apply X12_symbols_are_mirrored. reflexivity. Defined.

(** X13.  The element of a symbol can be made exactly when the symbol
    starts on a line of the document or right after its last line;
    further down, looking for the comment above it reads a line that is
    not there and throws. *)
Theorem X13_symbol_beyond_the_end_throws (symbol : DocumentSymbol.t)
    (lines : list string) (fileExt : string) :
  (exists e,
     FileStructureParser.symbolToCodeElement symbol lines fileExt = Returns e)
  <-> (DocumentSymbol.startLine symbol <= length lines)%nat.
Proof.
  split.
  - intros [e He].
    destruct (decide (DocumentSymbol.startLine symbol <= length lines)%nat)
      as [Hle | Hgt]; [exact Hle | exfalso].
    unfold FileStructureParser.symbolToCodeElement in He.
    rewrite fs_extractComment_throws in He by lia. discriminate.
  - intros Hle.
    destruct (symbolToCodeElement_returns symbol lines fileExt Hle)
      as (c & rt & ps & ->).
    eauto.
Qed.

(** X14.  A line that begins with two slashes directly above a symbol
    gives its comment: the trimmed line without its first two characters,
    trimmed again.  The branch for documentation lines comes after this
    one and is never taken, so that of a line [/// text] the comment
    [/ text] is kept. *)
Theorem X14_comment_above_a_symbol (lines : list string) (lineIndex : Z)
    (above : string) :
  1 <= lineIndex ->
  lookupZ lines (lineIndex - 1) = Some above ->
  startsWith (trim above) "//" = true ->
  FileStructureParser.extractComment lines lineIndex
  = Returns (Some (trim (substring_from (trim above) 2))).
Proof.
  intros Hi Habove Hstart.
  unfold FileStructureParser.extractComment, for_down.
  destruct (Z.to_nat (lineIndex - 1 - Z.max 0 (lineIndex - 5) + 1))
    as [ | k] eqn:Hk; [lia | ].
  simpl. rewrite Z.sub_0_r, Habove. unfold defined. rewrite bind_returns.
  rewrite Hstart. reflexivity.
Qed.

(** X14 on a documentation line: one slash stays in the comment. *)
Lemma X14_comment_above_a_symbol_witness :
  FileStructureParser.extractComment ["/// Sum"; "int add()"] 1
  = Returns (Some "/ Sum").
Proof.
  apply (X14_comment_above_a_symbol ["/// Sum"; "int add()"] 1 "/// Sum");
    [lia | reflexivity | reflexivity].
Defined.

(** X15.  The access modifier that the symbol path reads off a line, with
    its loop over the four modifiers, is the one that the [BaseParser] of
    the scanners reads off it. *)
Theorem X15_access_modifiers_agree (lineText : string) :
  FileStructureParser.accessModifierOf lineText
  = BaseParser.extractAccessModifier lineText.
Proof.
  unfold accessModifierOf, extractAccessModifier, accessModifiers. simpl.
  destruct (includes lineText "public"); [reflexivity | ].
  destruct (includes lineText "private"); [reflexivity | ].
  destruct (includes lineText "protected"); [reflexivity | ].
  destruct (includes lineText "internal"); reflexivity.
Qed.

End SymbolPath.

(** ** CodeStructViewProvider: escaping, label and tooltip *)

Section Views.
Import CodeStructViewProvider.

(** X16.  What [escapeHtml] returns holds no angle bracket and no quote,
    whatever the text, and escaping a text is escaping its parts: the
    result for [a ++ b] is the result for [a] and then the one for
    [b]. *)
Theorem X16_escapeHtml_safe (text a b : string) :
  Forall (fun c => occurs c (CodeStructViewProvider.escapeHtml text) = false)
    ["<"%char; ">"%char; "034"%char; "'"%char]
  /\ CodeStructViewProvider.escapeHtml (a ++ b)
     = CodeStructViewProvider.escapeHtml a
       ++ CodeStructViewProvider.escapeHtml b.
Proof.
  split.
  - assert (Hsafe : forall c,
              c ∈ ["<"%char; ">"%char; "034"%char; "'"%char] ->
              occurs c (escapeHtml text) = false).
    { intros c Hc. induction text as [ | x text IH]; [reflexivity | ].
      rewrite escapeHtml_cons, occurs_append, IH, escaped_safe by assumption.
      reflexivity. }
    repeat (constructor; [apply Hsafe; set_solver | ]).
    constructor.
  - rewrite !escapeHtml_replaceEach. apply replaceEach_append.
Qed.

(** X17.  [escapeHtml] loses nothing: two texts with the same escaped
    text are the same text. *)
Theorem X17_escapeHtml_injective (s t : string) :
  CodeStructViewProvider.escapeHtml s = CodeStructViewProvider.escapeHtml t
  <-> s = t.
Proof.
  split; [ | intros ->; reflexivity].
  revert t. induction s as [ | a s IH]; intros [ | b t].
  - reflexivity.
  - rewrite escapeHtml_cons. intros H. symmetry in H.
    apply escaped_not_empty in H. destruct H.
  - rewrite escapeHtml_cons. intros H. apply escaped_not_empty in H. destruct H.
  - rewrite !escapeHtml_cons. intros H.
    apply escaped_prefix_free in H as [-> H]. f_equal. apply IH. exact H.
Qed.

(** X18.  Of a method, function or constructor the tooltip begins with
    the label of the tree, unless the parameter text of the element is
    the empty string: the label then ends in a pair of parentheses that
    the tooltip leaves out. *)
Theorem X18_tooltip_begins_with_label (e : CodeElement) :
  CodeStructViewProvider.isCallable e = true ->
  startsWith (CodeStructViewProvider.buildTooltip e)
    (CodeStructViewProvider.formatCodeElementLabel e)
  = negb (bool_decide (parameters e = Some EmptyString)).
Proof.
  intros Hcall. rewrite (label_of_callable e Hcall).
  destruct (tooltip_of_callable e Hcall) as (shown & -> & Hshown).
  destruct (parameters e) as [[ | a ps] | ].
  - rewrite bool_decide_eq_true_2 by reflexivity. simpl.
    rewrite startsWith_append. destruct Hshown as [-> | [x ->]]; reflexivity.
  - rewrite bool_decide_eq_false_2 by discriminate. simpl.
    apply startsWith_prefix.
  - rewrite bool_decide_eq_false_2 by discriminate. simpl.
    apply startsWith_prefix.
Qed.

(** X18 on a method without parameters: the label is
    [public Add: int()], the tooltip [public Add: int]. *)
Lemma X18_tooltip_begins_with_label_witness :
  CodeStructViewProvider.isCallable
    (mkCodeElement "Add" Method Public 4 [] None (Some "int")
       (Some EmptyString) None None None) = true
  /\ startsWith
       (CodeStructViewProvider.buildTooltip
          (mkCodeElement "Add" Method Public 4 [] None (Some "int")
             (Some EmptyString) None None None))
       (CodeStructViewProvider.formatCodeElementLabel
          (mkCodeElement "Add" Method Public 4 [] None (Some "int")
             (Some EmptyString) None None None))
     = false.
Proof.
  split; [reflexivity | ].
  apply (X18_tooltip_begins_with_label
           (mkCodeElement "Add" Method Public 4 [] None (Some "int")
              (Some EmptyString) None None None)).
  reflexivity.
Defined.

End Views.

(** ** TagRuleConfig *)

Section Rules.
Import TagRuleConfig.

(** X19.  [matchTagRule] returns a rule exactly when the comment is a
    non-empty text and the rule is the first of the list whose tag, in
    lower case, begins the comment without its markers, in lower case,
    and is followed there by nothing, a space, a colon or a tab. *)
Theorem X19_tag_rule_of_a_comment (tagRules : list TagRuleConfig.TagRule)
    (comment : option string) (rule : TagRuleConfig.TagRule) :
  TagRuleConfig.matchTagRule tagRules comment = Some rule
  <-> exists text rest before after,
        comment = Some text
        /\ is_empty text = false
        /\ tagRules = (before ++ rule :: after)%list
        /\ forallb
             (fun r =>
                negb (TagRuleConfig.matches
                        (toLowerCase (TagRuleConfig.stripMarkers text)) r))
             before = true
        /\ toLowerCase (TagRuleConfig.stripMarkers text)
           = toLowerCase (TagRuleConfig.tag rule) ++ rest
        /\ (rest = EmptyString
            \/ exists d rest',
                 rest = String d rest'
                 /\ d ∈ [" "%char; ":"%char; "009"%char]).
Proof.
  unfold TagRuleConfig.matchTagRule. split.
  - destruct comment as [text | ]; [ | discriminate].
    destruct (is_empty text) eqn:Htext; [discriminate | ].
    intros H. apply find_first in H as (before & after & -> & Hm & Hb).
    apply matches_inv in Hm as (rest & Hrest & Hd).
    exists text, rest, before, after. auto 10.
  - intros (text & rest & before & after & -> & -> & -> & Hb & Hc & Hrest).
    apply find_intro; [exact Hb | ].
    rewrite Hc. apply matches_intro. exact Hrest.
Qed.

(** X20.  Loading an array of rules: one [null] among the entries makes
    the check throw, and the [catch] leaves no rule at all; without a
    [null], every entry is judged on its own, the valid ones are kept in
    their order and the others are skipped. *)
Theorem X20_rules_loading (rules : list json) :
  TagRuleConfig.loadRules (JArray rules)
  = if existsb isNull rules then []
    else concat (map (fun rule => TagRuleConfig.loadRules (JArray [rule]))
                   rules).
Proof.
  destruct (existsb isNull rules) eqn:Hnull.
  - unfold loadRules. destruct (validRules_with_null rules Hnull) as [err ->].
    reflexivity.
  - unfold loadRules. rewrite (validRules_without_null rules Hnull). reflexivity.
Qed.

(** X21.  Whatever the configuration file holds, every rule that is
    loaded has a colour that the pattern of [validateRule] accepts: a
    hash sign and six hexadecimal digits. *)
Theorem X21_loaded_rules_have_colors (parsed : json) :
  Forall (fun r => test TagRuleConfig.re_color (TagRuleConfig.color r) = true)
    (TagRuleConfig.loadRules parsed).
Proof.
  unfold loadRules. destruct parsed; try constructor.
  destruct (validRules items) as [rs | err] eqn:E; [ | constructor].
  eapply validRules_color; eauto.
Qed.

End Rules.

(** ** The markers of a comment *)

(** X22.  The loops that remove leading spaces, before and after the
    loops for slashes and stars, never run: the text they meet was
    trimmed.  What [matchTagRule] and [formatCodeElementLabel] strip off
    a comment, and what [cleanComment] strips off it before it joins the
    white space, is what the loop for slashes and then the loop for stars
    strip off the trimmed comment. *)
Theorem X22_space_loops_never_run (comment : string) :
  TagRuleConfig.stripMarkers comment
  = BaseParser.strip_leading "*" (BaseParser.strip_leading "/" (trim comment))
  /\ BaseParser.cleanComment comment
     = if is_empty comment then EmptyString
       else trim (replaceAll BaseParser.re_spaces " "
                    (BaseParser.strip_leading "*"
                       (BaseParser.strip_leading "/" (trim comment)))).
Proof.
  assert (Hsame : BaseParser.strip_leading " "
                    (BaseParser.strip_leading "*"
                       (BaseParser.strip_leading "/"
                          (BaseParser.strip_leading " " (trim comment))))
                  = BaseParser.strip_leading "*"
                      (BaseParser.strip_leading "/" (trim comment))).
  { rewrite (strip_leading_space (trim comment)) by apply trim_tight.
    apply strip_leading_space.
    apply strip_leading_tight, strip_leading_tight, trim_tight. }
  split.
  - unfold TagRuleConfig.stripMarkers. exact Hsame.
  - unfold BaseParser.cleanComment.
    destruct (is_empty comment); [reflexivity | ].
    cbv zeta. rewrite Hsame. reflexivity.
Qed.

(** X23.  A comment without its markers never begins with white space
    or with a star.  It can begin with a slash: the loop for slashes has
    run when the loop for stars uncovers one, as in every comment that
    begins with a star and a slash. *)
Theorem X23_markers_stripped (comment rest : string) :
  beginsTight (TagRuleConfig.stripMarkers comment)
  /\ startsWith (TagRuleConfig.stripMarkers comment) "*" = false
  /\ startsWith (TagRuleConfig.stripMarkers (String "*" (String "/" rest))) "/"
     = true.
Proof.
  unfold TagRuleConfig.stripMarkers. split; [ | split].
  - do 4 apply strip_leading_tight. apply trim_tight.
  - rewrite (strip_leading_space
               (BaseParser.strip_leading "*"
                  (BaseParser.strip_leading "/"
                     (BaseParser.strip_leading " " (trim comment)))))
      by (do 3 apply strip_leading_tight; apply trim_tight).
    apply strip_leading_done. discriminate.
  - rewrite (trim_cons "*" (String "/" rest)) by reflexivity.
    rewrite (trimEnd_cons "/" rest) by reflexivity.
    rewrite (strip_leading_space (String "*" (String "/" (trimEnd rest))))
      by reflexivity.
    rewrite (strip_leading_other "/" (String "*" (String "/" (trimEnd rest))))
      by reflexivity.
    assert (Hstar : BaseParser.strip_leading "*"
                      (String "*" (String "/" (trimEnd rest)))
                    = String "/" (trimEnd (trimEnd rest))).
    { unfold BaseParser.strip_leading. cbn [String.length].
      cbn [BaseParser.strip_leading_loop startsWith Ascii.eqb Bool.eqb andb].
      unfold substring_from.
      change (str_drop (Z.to_nat 1) (String "*" (String "/" (trimEnd rest))))
        with (String "/" (trimEnd rest)).
      rewrite (trim_cons "/" (trimEnd rest)) by reflexivity. reflexivity. }
    rewrite Hstar.
    rewrite (strip_leading_space (String "/" (trimEnd (trimEnd rest))))
      by reflexivity.
    destruct (trimEnd (trimEnd rest)); reflexivity.
Qed.
